(** * amo-workflows: the batch document pipelines, embedded in Rocq

    The repository holds four workflow scripts for the amo automation
    runtime: text extraction, receipt processing, contract review
    (all three in [workflows/text-extraction.js]) and video-to-audio
    conversion.  Each script is a [main] function over the host's [fs],
    [cliCommand] and [getVar] primitives.

    The embedding is shallow.  Script functions become Rocq functions of
    the same name; the host runtime is a type class [Host]; side effects
    are threaded through a state monad over the host's file-system state
    and a chronological list of the effects performed. *)

From Stdlib Require Import String Ascii List Bool Arith ZArith Lia.
From Stdlib Require Import Sorting.Sorted Sorting.Permutation.
From Stdlib Require Import Structures.Orders.
From Stdlib Require Sorting.Mergesort.
From Stdlib Require Import Numbers.DecimalString.
Import ListNotations.
Local Open Scope list_scope.
Local Open Scope string_scope.

(* ================================================================== *)
(** * JavaScript strings

    A string is a sequence of code units; the model keeps the code units
    below 256, one [ascii] each. *)
(* ================================================================== *)

Module Js.

Definition nonEmpty (s : string) : bool := negb (s =? "").

Fixpoint mapS (f : ascii -> ascii) (s : string) : string :=
  match s with
  | EmptyString => EmptyString
  | String c r => String (f c) (mapS f r)
  end.

Fixpoint filterS (f : ascii -> bool) (s : string) : string :=
  match s with
  | EmptyString => EmptyString
  | String c r => if f c then String c (filterS f r) else filterS f r
  end.

Definition between (lo hi : nat) (c : ascii) : bool :=
  let n := nat_of_ascii c in (lo <=? n)%nat && (n <=? hi)%nat.

Definition isUpper (c : ascii) : bool := between 65 90 c.
Definition isLower (c : ascii) : bool := between 97 122 c.
Definition isDigit (c : ascii) : bool := between 48 57 c.

(** [String.prototype.toLowerCase] on one code unit: A-Z, and the
    Latin-1 capitals U+00C0..U+00DE other than the multiplication sign. *)
Definition lowerChar (c : ascii) : ascii :=
  if isUpper c || (between 192 222 c && negb (nat_of_ascii c =? 215)%nat)
  then ascii_of_nat (nat_of_ascii c + 32)
  else c.

Definition toLowerCase (s : string) : string := mapS lowerChar s.

(** White space and line terminators, as [trim] and the regex class \s
    see them. *)
Definition isSpace (c : ascii) : bool :=
  let n := nat_of_ascii c in
  between 9 13 c || (n =? 32)%nat || (n =? 160)%nat.

Fixpoint trimStart (s : string) : string :=
  match s with
  | EmptyString => EmptyString
  | String c r => if isSpace c then trimStart r else s
  end.

Fixpoint trimEnd (s : string) : string :=
  match s with
  | EmptyString => EmptyString
  | String c r =>
      let r' := trimEnd r in
      if isSpace c && (r' =? "") then EmptyString else String c r'
  end.

Definition trim (s : string) : string := trimEnd (trimStart s).

(** [s && s.trim()], and the negation of [!s || s.trim().length === 0]. *)
Definition nonBlank (s : string) : bool := nonEmpty (trim s).

(** [s.indexOf(sub) !== -1] *)
Definition includes (s sub : string) : bool :=
  match index 0 sub s with Some _ => true | None => false end.

Definition endsWith (s suffix : string) : bool :=
  (String.length suffix <=? String.length s)%nat
  && (substring (String.length s - String.length suffix)
                (String.length suffix) s =? suffix).

Definition startsWithChar (c : ascii) (s : string) : bool :=
  match s with
  | String d _ => Ascii.eqb c d
  | EmptyString => false
  end.

(** [s.split(sep)] for a one-character separator *)
Fixpoint split (sep : ascii) (s : string) : list string :=
  match s with
  | EmptyString => [""]
  | String c r =>
      if Ascii.eqb c sep then "" :: split sep r
      else match split sep r with
           | h :: t => String c h :: t
           | [] => [String c ""]
           end
  end.

(** [arr.join(sep)] on an array of strings *)
Definition join (sep : string) (l : list string) : string := String.concat sep l.

(** Number to string, for integral values. *)
Definition numberToString (n : Z) : string := NilZero.string_of_int (Z.to_int n).

(** The default comparator of [Array.prototype.sort]: code units,
    lexicographically. *)
Module StringOrder <: Orders.TotalLeBool.
Definition t := string.
Definition leb := String.leb.
Definition leb_total :
  forall x y : string, leb x y = true \/ leb y x = true := String.leb_total.
End StringOrder.

Module StringSort := Mergesort.Sort StringOrder.

(** [arr.sort()] on an array of strings *)
Definition sort (l : list string) : list string := StringSort.sort l.

End Js.

(* ================================================================== *)
(** * JSON values

    What [JSON.parse] returns.  The property list of an object is in
    enumeration order and its keys are pairwise distinct.

    Three things are outside this model, and the theorems below say so
    where they depend on them.  Numbers are kept integral: a decimal
    amount has no value here, and nothing is rounded.  A key that is a
    canonical number ("0", "10") is kept where it was first set, while
    JavaScript enumerates such keys first, in numeric order.  And an
    object has own properties only: what a lookup finds on
    [Object.prototype] is modelled where a script is known to end in a
    [TypeError] on it ([inheritedNames], [Completion]), and nowhere
    else. *)
(* ================================================================== *)

#[warnings="-register-all"]
Inductive json : Type :=
| JNull
| JBool (b : bool)
| JNum (n : Z)
| JStr (s : string)
| JArr (items : list json)
| JObj (props : list (string * json)).

Definition object := list (string * json).

Module Value.

(** JavaScript truthiness, as tested by [if (v)] and [!v]. *)
Definition truthy (v : json) : bool :=
  match v with
  | JNull => false
  | JBool b => b
  | JNum n => negb (n =? 0)%Z
  | JStr s => Js.nonEmpty s
  | JArr _ => true
  | JObj _ => true
  end.

(** [typeof v === "object" && v !== null && !Array.isArray(v)] *)
Definition isPlainObject (v : json) : bool :=
  match v with JObj _ => true | _ => false end.

Definition isArray (v : json) : bool :=
  match v with JArr _ => true | _ => false end.

Definition keys (o : object) : list string := map fst o.

(** The names every object inherits from [Object.prototype]: under one
    of them [o[k]] finds the inherited member when [o] has no own
    property [k]. *)
Definition inheritedNames : list string :=
  ["constructor"; "hasOwnProperty"; "isPrototypeOf"; "propertyIsEnumerable";
   "toLocaleString"; "toString"; "valueOf"; "__proto__";
   "__defineGetter__"; "__defineSetter__"; "__lookupGetter__";
   "__lookupSetter__"].

Definition inherited (k : string) : bool :=
  existsb (String.eqb k) inheritedNames.

Definition hasKey (o : object) (k : string) : bool :=
  existsb (fun kv => fst kv =? k) o.

(** [o[k]] on an object: [None] is [undefined]. *)
Fixpoint get (o : object) (k : string) : option json :=
  match o with
  | [] => None
  | (k', v) :: r => if k' =? k then Some v else get r k
  end.

(** [o[k] = v]: an existing key keeps its place, a new one goes last
    (a new key that is a canonical number would be enumerated before
    the names: see above). *)
Fixpoint set (o : object) (k : string) (v : json) : object :=
  match o with
  | [] => [(k, v)]
  | (k', v') :: r => if k' =? k then (k', v) :: r else (k', v') :: set r k v
  end.

(** [v[k]] for a string key on any non-null value: only objects have
    such properties. *)
Definition prop (v : json) (k : string) : option json :=
  match v with
  | JObj o => get o k
  | _ => None
  end.

Definition truthyOpt (v : option json) : bool :=
  match v with Some x => truthy x | None => false end.

(** [String(v)], as used for property keys and inside [Array.join],
    for a value that is [printable] (see below). *)
Fixpoint toString (v : json) : string :=
  match v with
  | JNull => "null"
  | JBool true => "true"
  | JBool false => "false"
  | JNum n => Js.numberToString n
  | JStr s => s
  | JArr items =>
      Js.join "," (map (fun e => match e with
                                 | JNull => ""
                                 | _ => toString e
                                 end) items)
  | JObj _ => "[object Object]"
  end.

(** [arr.join(sep)]: [null] elements print as the empty string. *)
Definition joinArray (sep : string) (items : list json) : string :=
  Js.join sep (map (fun e => match e with
                             | JNull => ""
                             | _ => toString e
                             end) items).

(** Whether [String(v)] returns.  An object is converted with the
    "toString" it has; an own property of that name, being a JSON value,
    cannot be called, the inherited [valueOf] returns the object itself,
    and the conversion throws a [TypeError].  An array converts its
    elements. *)
Fixpoint printable (v : json) : bool :=
  match v with
  | JObj o => negb (hasKey o "toString")
  | JArr items => forallb printable items
  | _ => true
  end.

End Value.

(* ================================================================== *)
(** * The host runtime

    [amo-workflow.d.ts] declares what the scripts call; the host itself
    is an external collaborator.  A result's [error] member is absent on
    success: the scripts only ever test it for truthiness, so it is a
    string here and the empty string stands for "absent". *)
(* ================================================================== *)

Record Result := { res_error : string }.
Record FileResult := { file_error : string; file_content : string }.
Record FileInfo := { name : string; path : string; is_dir : bool }.
Record DirectoryResult := { dir_error : string; dir_files : list FileInfo }.
Record PathResult := { path_error : string; path_path : string }.
Record FindResult := { find_error : string; find_files : list string }.
Record HashResult := { hash_error : string; hash : string }.
Record CommandResult := { stdout : string; stderr : string; cmd_error : string }.
Record CommandOptions := { timeout : Z; interactive : bool }.

Class Host : Type := {
  (** the state of the machine the script runs on *)
  FS : Type;
  (** [getVar(key)]; an unset variable reads as the empty string *)
  h_getVar : FS -> string -> string;
  h_exists : FS -> string -> bool;
  h_isFile : FS -> string -> bool;
  h_isDir : FS -> string -> bool;
  h_readdir : FS -> string -> DirectoryResult;
  h_find : FS -> string -> string -> FindResult;
  h_read : FS -> string -> FileResult;
  h_abs : FS -> string -> PathResult;
  h_cwd : FS -> PathResult;
  h_md5 : FS -> string -> HashResult;
  h_mkdir : FS -> string -> Result * FS;
  h_write : FS -> string -> string -> Result * FS;
  h_rm : FS -> string -> Result * FS;
  h_cliCommand : FS -> string -> list string -> CommandOptions -> CommandResult * FS;
  (** [new Date().getTime()] and [new Date().toISOString()] *)
  h_getTime : FS -> Z;
  h_toISOString : FS -> string;
  (** path utilities *)
  fs_join : list string -> string;
  fs_ext : string -> string;
  fs_filename : string -> string;
  fs_basename : string -> string;
  fs_dirname : string -> string;
  (** [JSON.parse(text)]: [None] when it throws; and
      [JSON.stringify(value, null, 2)] *)
  JSON_parse : string -> option json;
  JSON_stringify : json -> string
}.

(** What a run leaves behind, in order.  [console.error] calls are
    recorded without the pictograph that starts each message, the
    message first, then the further arguments that are strings;
    [console.log] and [console.warn] lines are progress output and are
    not recorded. *)
Inductive Event : Type :=
| EvError (msg : string) (args : list string)
| EvExec (command : string) (args : list string) (opts : CommandOptions)
| EvMkdir (p : string)
| EvWrite (p : string) (content : string)
| EvRm (p : string).

Section Effects.
Context {H : Host}.

Record World : Type := { fs : FS; events : list Event }.

Definition M (A : Type) : Type := World -> A * World.

Definition ret {A : Type} (a : A) : M A := fun w => (a, w).

Definition bind {A B : Type} (c : M A) (k : A -> M B) : M B :=
  fun w => let (a, w') := c w in k a w'.

Definition query {A : Type} (f : FS -> A) : M A := fun w => (f (fs w), w).

Definition record (e : Event) : M unit :=
  fun w => (tt, {| fs := fs w; events := (events w ++ [e])%list |}).

Definition effect {A : Type} (f : FS -> A * FS) (e : Event) : M A :=
  fun w => let (a, s) := f (fs w) in
           (a, {| fs := s; events := (events w ++ [e])%list |}).

Definition getVar (key : string) : M string := query (fun s => h_getVar s key).
Definition fs_exists (p : string) : M bool := query (fun s => h_exists s p).
Definition fs_isFile (p : string) : M bool := query (fun s => h_isFile s p).
Definition fs_isDir (p : string) : M bool := query (fun s => h_isDir s p).
Definition fs_readdir (p : string) : M DirectoryResult := query (fun s => h_readdir s p).
Definition fs_find (root pattern : string) : M FindResult :=
  query (fun s => h_find s root pattern).
Definition fs_read (p : string) : M FileResult := query (fun s => h_read s p).
Definition fs_abs (p : string) : M PathResult := query (fun s => h_abs s p).
Definition fs_cwd : M PathResult := query h_cwd.
Definition fs_md5 (p : string) : M HashResult := query (fun s => h_md5 s p).
Definition Date_getTime : M Z := query h_getTime.
Definition Date_toISOString : M string := query h_toISOString.

Definition fs_mkdir (p : string) : M Result :=
  effect (fun s => h_mkdir s p) (EvMkdir p).
Definition fs_write (p content : string) : M Result :=
  effect (fun s => h_write s p content) (EvWrite p content).
Definition fs_rm (p : string) : M Result :=
  effect (fun s => h_rm s p) (EvRm p).
Definition cliCommand (command : string) (args : list string)
  (opts : CommandOptions) : M CommandResult :=
  effect (fun s => h_cliCommand s command args opts) (EvExec command args opts).

Definition console_error (msg : string) (args : list string) : M unit :=
  record (EvError msg args).

End Effects.

Declare Scope monad_scope.
Delimit Scope monad_scope with monad.
Notation "x <- c ;; k" := (bind c (fun x => k))
  (at level 61, c at next level, right associativity) : monad_scope.
Notation "c ;; k" := (bind c (fun _ => k))
  (at level 61, right associativity) : monad_scope.
Local Open Scope monad_scope.

Section Helpers.
Context {H : Host}.

Fixpoint forEach {A : Type} (l : list A) (body : A -> M unit) : M unit :=
  match l with
  | [] => ret tt
  | x :: r => body x ;; forEach r body
  end.

(** The recurring block that shows a captured stream:
    [if (out && out.trim()) { console.error(title); first [limit] lines,
    each printed trimmed unless blank }]. *)
Definition showLines (title : string) (out : string) (limit : nat) : M unit :=
  if Js.nonBlank out then
    console_error title [] ;;
    forEach (firstn limit (Js.split "010"%char out))
      (fun line => if Js.nonBlank line
                   then console_error ("  " ++ Js.trim line) []
                   else ret tt)
  else ret tt.

End Helpers.

(** [getVar(key) || fallback] *)
Definition orDefault (v fallback : string) : string :=
  if Js.nonEmpty v then v else fallback.

(** The [{ valid, path }] / [{ valid, error }] objects of
    [validateOutputPath]. *)
Inductive Validation : Type :=
| Valid (resolved : string)
| Invalid (reason : string).

(** How a call ends: it returns a value, or a [TypeError] leaves it.
    The receipt script catches exceptions in [readExistingReceiptData],
    [parseExtractedData] and around its re-read of an existing output;
    anywhere else a [TypeError] ends the script. *)
Inductive Completion (A : Type) : Type :=
| Normal (a : A)
| TypeError.

Arguments Normal {A} a.
Arguments TypeError {A}.

Definition andThen {A B : Type} (c : Completion A) (k : A -> Completion B)
  : Completion B :=
  match c with
  | Normal a => k a
  | TypeError => TypeError
  end.

(** A loop whose body may throw. *)
Definition foldC {A B : Type} (body : A -> B -> Completion A) (l : list B)
  (start : A) : Completion A :=
  fold_left (fun acc x => andThen acc (fun a => body a x)) l (Normal start).

(** [arr.map(f)] for an [f] that may throw. *)
Fixpoint mapC {A B : Type} (f : A -> Completion B) (l : list A)
  : Completion (list B) :=
  match l with
  | [] => Normal []
  | x :: r =>
      andThen (f x) (fun y => andThen (mapC f r) (fun ys => Normal (y :: ys)))
  end.

(* ================================================================== *)
(** * What the scripts share

    [validateOutputPath] has the same body in all four scripts (the
    receipt script's copy takes a third parameter it never reads). *)
(* ================================================================== *)

Section Shared.
Context {H : Host}.

Definition validateOutputPath (outputPath : string) (isBatchProcessing : bool)
  : M Validation :=
  let absolute : M Validation :=
    absResult <- fs_abs outputPath ;;
    ret (Valid (if Js.nonEmpty (path_error absResult)
                then outputPath else path_path absResult)) in
  pathExists <- fs_exists outputPath ;;
  if isBatchProcessing then
    if pathExists then
      isDir <- fs_isDir outputPath ;;
      if negb isDir then
        ret (Invalid ("For batch processing, output path must be a directory, but '"
                      ++ outputPath ++ "' is a file"))
      else absolute
    else
      mkdirResult <- fs_mkdir outputPath ;;
      if Js.nonEmpty (res_error mkdirResult) then
        ret (Invalid ("Cannot create output directory '" ++ outputPath ++ "': "
                      ++ res_error mkdirResult))
      else absolute
  else
    if pathExists then
      isDir <- fs_isDir outputPath ;;
      if isDir then absolute else absolute
    else
      let parentDir := fs_dirname outputPath in
      parentExists <- fs_exists parentDir ;;
      if negb parentExists then
        mkdirResult <- fs_mkdir parentDir ;;
        if Js.nonEmpty (res_error mkdirResult) then
          ret (Invalid ("Cannot create parent directory for '" ++ outputPath ++ "': "
                        ++ res_error mkdirResult))
        else absolute
      else absolute.

(** The per-file output path: [determineTextOutputPath],
    [determineReceiptOutputPath], [determineReviewOutputPath] and
    [determineOutputPath] differ only in the file name and in the
    extension appended to an output path that has none. *)
Definition determinePath (inputFile outputFileName defaultExt outputPath : string)
  (isBatchProcessing : bool) : M string :=
  if Js.nonEmpty outputPath then
    outIsDir <- fs_isDir outputPath ;;
    if isBatchProcessing || outIsDir then
      ret (fs_join [outputPath; outputFileName])
    else
      let outputExt := fs_ext outputPath in
      if Js.nonEmpty outputExt then ret outputPath
      else ret (outputPath ++ defaultExt)
  else
    let inputDir := fs_dirname inputFile in
    ret (fs_join [inputDir; outputFileName]).

End Shared.

(* ================================================================== *)
(** * Text extraction workflow (text-extraction.js, lines 1-491) *)
(* ================================================================== *)

Module TextExtraction.
Section WithHost.
Context {H : Host}.

Definition checkCliTool (toolName : string) : M bool :=
  result <- cliCommand toolName ["-h"] {| timeout := 10; interactive := false |} ;;
  let err := cmd_error result in
  if Js.nonEmpty err && Js.includes err "not in the allowed CLI commands list" then
    console_error (toolName ++ " command is blocked by security whitelist") [] ;;
    console_error "Error:" [err] ;;
    ret false
  else if Js.nonEmpty err
          && (Js.includes err "command not found"
              || Js.includes err "No such file or directory") then
    console_error (toolName ++ " command not found") [] ;;
    console_error "Error:" [err] ;;
    ret false
  else
    let output := orDefault (stdout result) (orDefault (stderr result) "") in
    if (0 <? String.length output)%nat || negb (Js.nonEmpty err) then ret true
    else
      console_error (toolName ++ " command failed") [] ;;
      console_error "Error:" [err] ;;
      showLines "Standard Error Output:" (stderr result) 5 ;;
      showLines "Standard Output:" (stdout result) 5 ;;
      ret false.

Definition isDocumentFile (filepath : string) (documentExtensions : list string)
  : bool :=
  let extension := Js.toLowerCase (fs_ext filepath) in
  existsb (fun e => extension =? e) documentExtensions.

Definition getDocumentFiles (inputPath : string) (documentExtensions : list string)
  : M (list string) :=
  inputExists <- fs_exists inputPath ;;
  if negb inputExists then
    console_error "Cannot access:" [inputPath] ;;
    ret []
  else
    isDir <- fs_isDir inputPath ;;
    if isDir then
      listResult <- fs_readdir inputPath ;;
      if negb (Js.nonEmpty (dir_error listResult)) then
        let files :=
          map path
            (filter (fun fileInfo =>
                       negb (is_dir fileInfo)
                       && isDocumentFile (path fileInfo) documentExtensions)
                    (dir_files listResult)) in
        ret (Js.sort files)
      else
        console_error "Failed to list directory:" [dir_error listResult] ;;
        ret (Js.sort [])
    else
      isFile <- fs_isFile inputPath ;;
      if isFile && isDocumentFile inputPath documentExtensions
      then ret (Js.sort [inputPath])
      else ret (Js.sort []).

Definition determineTextOutputPath (inputFile baseName outputPath : string)
  (isBatchProcessing : bool) : M string :=
  determinePath inputFile (baseName ++ ".txt") ".txt" outputPath isBatchProcessing.

(** The argument vector both [extractTextFromDocument] and the contract
    script's [processDocument] build for doc-to-text. *)
Definition docToTextArgs (documentFile ocrTool ocrLlmTemplate contentType : string)
  (verbose : bool) (target : string) : list string :=
  ([documentFile]
   ++ (if Js.nonEmpty contentType then ["--content-type"; contentType] else [])
   ++ (if Js.nonEmpty ocrTool && negb (ocrTool =? "interactive") then
         ["--ocr"; ocrTool]
         ++ (if (ocrTool =? "llm-caller") && Js.nonEmpty ocrLlmTemplate
             then ["--llm_template"; ocrLlmTemplate] else [])
       else [])
   ++ (if verbose then ["--verbose"] else [])
   ++ ["-o"; target])%list.

Definition docToTextOptions (ocrTool : string) : CommandOptions :=
  if negb (Js.nonEmpty ocrTool) || (ocrTool =? "interactive")
  then {| timeout := 1800; interactive := true |}
  else {| timeout := 600; interactive := false |}.

(** [extractTextFromDocument], lines 471-487: the check of the output
    file that ends the function. *)
Definition verifyTextOutput (textOutputFile : string) : M bool :=
  verifyResult <- fs_read textOutputFile ;;
  if Js.nonEmpty (file_error verifyResult) then
    console_error "Failed to verify output file:" [file_error verifyResult] ;;
    ret false
  else if negb (Js.nonBlank (file_content verifyResult)) then
    console_error "Extracted text is empty" [] ;;
    ret false
  else ret true.

Definition extractTextFromDocument
  (documentFile textOutputFile ocrTool ocrLlmTemplate contentType : string)
  (verbose : bool) : M bool :=
  let extractArgs :=
    docToTextArgs documentFile ocrTool ocrLlmTemplate contentType verbose
                  textOutputFile in
  let commandOptions := docToTextOptions ocrTool in
  extractResult <- cliCommand "doc-to-text" extractArgs commandOptions ;;
  if Js.nonEmpty (cmd_error extractResult) then
    console_error "Text extraction failed:" [] ;;
    console_error ("Command: doc-to-text " ++ Js.join " " extractArgs) [] ;;
    console_error "Error:" [cmd_error extractResult] ;;
    showLines "Standard Error Output:" (stderr extractResult) 10 ;;
    showLines "Standard Output:" (stdout extractResult) 10 ;;
    ret false
  else
    created <- fs_exists textOutputFile ;;
    if created then verifyTextOutput textOutputFile
    else
      console_error "Text file was not created at expected location:"
                    [textOutputFile] ;;
      cwdResult <- fs_cwd ;;
      if negb (Js.nonEmpty (path_error cwdResult)) then
        findResult <- fs_find (path_path cwdResult) "text.txt" ;;
        match (if Js.nonEmpty (find_error findResult)
               then [] else find_files findResult) with
        | sourceFile :: _ =>
            readResult <- fs_read sourceFile ;;
            if negb (Js.nonEmpty (file_error readResult)) then
              writeResult <- fs_write textOutputFile (file_content readResult) ;;
              if negb (Js.nonEmpty (res_error writeResult)) then
                fs_rm sourceFile ;;
                verifyTextOutput textOutputFile
              else
                console_error "Failed to write text to desired location:"
                              [res_error writeResult] ;;
                ret false
            else
              console_error "Failed to read extracted text:"
                            [file_error readResult] ;;
              ret false
        | [] =>
            console_error "Could not locate extracted text file" [] ;;
            ret false
        end
      else
        console_error "Could not determine current working directory" [] ;;
        ret false.

Definition documentExtensions : list string :=
  [".pdf"; ".docx"; ".doc"; ".txt";
   ".png"; ".jpg"; ".jpeg"; ".gif"; ".bmp"; ".tiff"].

Record Config : Type := {
  inputPath : string;
  outputPath : string;
  ocrTool : string;
  ocrLlmTemplate : string;
  contentType : string;
  overwrite : bool;
  verbose : bool
}.

(** What [main] has in hand when it enters the per-file loop. *)
Record Setup : Type := {
  config : Config;
  resolvedOutput : string;
  isBatchProcessing : bool;
  documentFiles : list string
}.

(** [main], lines 8-101: everything before "Process each document
    file".  [None] is an early [return false]. *)
Definition main_setup : M (option Setup) :=
  input <- getVar "input" ;;
  output <- getVar "output" ;;
  ocr <- getVar "ocr" ;;
  template <- getVar "ocr_llm_template" ;;
  ctype <- getVar "content_type" ;;
  ow <- getVar "overwrite" ;;
  vb <- getVar "verbose" ;;
  let cfg := {| inputPath := input; outputPath := output;
                ocrTool := orDefault ocr "interactive";
                ocrLlmTemplate := template; contentType := ctype;
                overwrite := ow =? "true"; verbose := vb =? "true" |} in
  if negb (Js.nonEmpty input) then
    console_error "Error: Input path is required" [] ;;
    ret None
  else if (ocrTool cfg =? "llm-caller") && negb (Js.nonEmpty template) then
    console_error
      "Error: ocr_llm_template is required when using llm-caller as OCR tool" [] ;;
    ret None
  else
    inputExists <- fs_exists input ;;
    if negb inputExists then
      console_error "Error: Input path does not exist:" [input] ;;
      ret None
    else
      isBatch <- fs_isDir input ;;
      outputValidation <-
        (if Js.nonEmpty output then validateOutputPath output isBatch
         else ret (Valid output)) ;;
      match outputValidation with
      | Invalid reason =>
          console_error "Error:" [reason] ;;
          ret None
      | Valid resolved =>
          available <- checkCliTool "doc-to-text" ;;
          if negb available then ret None
          else
            files <- getDocumentFiles input documentExtensions ;;
            if (List.length files =? 0)%nat then
              console_error "No supported document files found in:" [input] ;;
              ret None
            else
              ret (Some {| config := cfg; resolvedOutput := resolved;
                           isBatchProcessing := isBatch;
                           documentFiles := files |})
      end.

(** [main], lines 103-133: the per-file loop.  The result is
    [(successCount, failureCount)]. *)
Fixpoint main_loop (s : Setup) (files : list string)
  (successCount failureCount : nat) : M (nat * nat) :=
  match files with
  | [] => ret (successCount, failureCount)
  | documentFile :: rest =>
      let baseName := fs_basename documentFile in
      textOutputFile <-
        determineTextOutputPath documentFile baseName (resolvedOutput s)
                                (isBatchProcessing s) ;;
      outputExists <- fs_exists textOutputFile ;;
      if negb (overwrite (config s)) && outputExists then
        main_loop s rest successCount failureCount
      else
        extracted <-
          extractTextFromDocument documentFile textOutputFile
            (ocrTool (config s)) (ocrLlmTemplate (config s))
            (contentType (config s)) (verbose (config s)) ;;
        if extracted
        then main_loop s rest (S successCount) failureCount
        else main_loop s rest successCount (S failureCount)
  end.

Definition main : M bool :=
  setup <- main_setup ;;
  match setup with
  | None => ret false
  | Some s =>
      main_loop s (documentFiles s) 0 0 ;;
      ret true
  end.

End WithHost.
End TextExtraction.

(* ================================================================== *)
(** * Receipt processor workflow (text-extraction.js, lines 491-1381) *)
(* ================================================================== *)

Module ReceiptProcessor.

(** ** Pure helpers: file names, grouping, flattening, CSV *)

Definition underscore : ascii := "_"%char.
Definition hyphen : ascii := "-"%char.

(** The class [[a-z0-9_\-]] *)
Definition nameChar (c : ascii) : bool :=
  Js.isLower c || Js.isDigit c || Ascii.eqb c underscore || Ascii.eqb c hyphen.

(** [.replace(/[^a-z0-9_\-]/g, "_")] *)
Definition replaceInvalid (s : string) : string :=
  Js.mapS (fun c => if nameChar c then c else underscore) s.

(** [.replace(/_+/g, "_")] *)
Fixpoint collapseUnderscores (s : string) : string :=
  match s with
  | EmptyString => EmptyString
  | String c r =>
      match r with
      | String d _ =>
          if Ascii.eqb c underscore && Ascii.eqb d underscore
          then collapseUnderscores r
          else String c (collapseUnderscores r)
      | EmptyString => String c EmptyString
      end
  end.

Fixpoint dropLastUnderscore (s : string) : string :=
  match s with
  | EmptyString => EmptyString
  | String c EmptyString =>
      if Ascii.eqb c underscore then EmptyString else s
  | String c r => String c (dropLastUnderscore r)
  end.

(** [.replace(/^_|_$/g, "")]: one match at the start, and one at the end
    of what follows it. *)
Definition stripEnds (s : string) : string :=
  match s with
  | String c r =>
      if Ascii.eqb c underscore then dropLastUnderscore r
      else dropLastUnderscore s
  | EmptyString => EmptyString
  end.

Definition sanitizeFileName (name : string) : string :=
  stripEnds
    (collapseUnderscores
       (replaceInvalid (Js.toLowerCase (orDefault name "unknown")))).

Definition determineReceiptType (receipt : json) : option json :=
  if Value.truthyOpt (Value.prop receipt "type-code") then
    Value.prop receipt "type-code"
  else
    match Value.prop receipt "fields" with
    | Some fields =>
        if Value.truthy fields
           && Value.truthyOpt (Value.prop fields "type-code")
        then Value.prop fields "type-code"
        else None
    | None => None
    end.

(** [receiptsByType]: group key to receipts, in creation order. *)
Definition groups := list (string * list json).

Fixpoint addToGroup (g : groups) (k : string) (receipt : json) : groups :=
  match g with
  | [] => [(k, [receipt])]
  | (k', rs) :: rest =>
      if k' =? k then (k', (rs ++ [receipt])%list) :: rest
      else (k', rs) :: addToGroup rest k receipt
  end.

(** [groupReceiptsByType] keeps the groups in an object created as [{}].
    For a type code whose text is the name of an inherited member,
    [receiptsByType[receiptType]] is that member: it is truthy, so no
    list is made, and it has no [push], so line 1321 throws.  A type
    code that cannot be turned into a property key throws before that.
    Reading the type code of [null] throws as well (the loop of [main]
    only collects truthy values). *)
Definition groupReceiptsByType (receipts : list json) : Completion groups :=
  foldC
    (fun receiptsByType receipt =>
       match receipt with
       | JNull => TypeError
       | _ =>
           match determineReceiptType receipt with
           | Some receiptType =>
               if negb (Value.printable receiptType) then TypeError
               else
                 let key := Value.toString receiptType in
                 if Value.inherited key then TypeError
                 else Normal (addToGroup receiptsByType key receipt)
           | None => Normal receiptsByType
           end
       end)
    receipts [].

(** [result[key] = value] on the object [flattenObject] builds.  Under
    the key "__proto__" the assignment goes to the setter every object
    inherits, and no property is made.  (What the setter does to the
    prototype of the result is not modelled.) *)
Definition assign (result : object) (key : string) (value : json) : object :=
  if key =? "__proto__" then result else Value.set result key value.

(** [o.hasOwnProperty(k)], as [flattenObject] calls it in its loops over
    the keys of [o]: an own property "hasOwnProperty" is found before
    the inherited method, and no JSON value can be called. *)
Definition hasOwnPropertyThrows (o : object) : bool :=
  Value.hasKey o "hasOwnProperty".

(** The inner loop of [flattenObject] over the [fields] object: copy
    every property but "type-code", unprefixed. *)
Definition promoteFields (fields : object) (result : object)
  : Completion object :=
  if hasOwnPropertyThrows fields then TypeError
  else
    Normal (fold_left
              (fun result kv =>
                 if fst kv =? "type-code" then result
                 else assign result (fst kv) (snd kv))
              fields result).

(** The loop that copies what the recursive call returned. *)
Definition mergeInto (result flattened : object) : Completion object :=
  if hasOwnPropertyThrows flattened then TypeError
  else
    Normal (fold_left (fun result kv => assign result (fst kv) (snd kv))
                      flattened result).

(** One turn of the [for (var key in obj)] loop of [flattenObject];
    [flatten] is the recursive call. *)
Definition flattenStep (flatten : json -> string -> Completion object)
  (prefix : string) (result : object) (kv : string * json)
  : Completion object :=
  let key := fst kv in
  let newKey := if Js.nonEmpty prefix then prefix ++ "." ++ key else key in
  if newKey =? "type-code" then Normal result
  else
    match snd kv with
    | JObj inner =>
        if key =? "fields" then promoteFields inner result
        else andThen (flatten (snd kv) newKey) (mergeInto result)
    | JArr items =>
        if forallb Value.printable items
        then Normal (assign result newKey (JStr (Value.joinArray "; " items)))
        else TypeError
    | value => Normal (assign result newKey value)
    end.

(** The scripts call it on receipts that carry a type code, which are
    objects, and on the objects nested in them.  (An array or a string
    would be enumerated by index; that is not modelled, and the
    theorems are about objects.) *)
Fixpoint flattenObject (obj : json) (prefix : string) {struct obj}
  : Completion object :=
  match obj with
  | JObj props =>
      if hasOwnPropertyThrows props then TypeError
      else foldC (flattenStep flattenObject prefix) props []
  | _ => Normal []
  end.

Definition quote : string := String "034"%char EmptyString.
Definition newline : string := String "010"%char EmptyString.

(** The [replace] that doubles every double quote of a cell. *)
Fixpoint doubleQuotes (s : string) : string :=
  match s with
  | EmptyString => EmptyString
  | String c r =>
      if Ascii.eqb c "034"%char
      then String c (String c (doubleQuotes r))
      else String c (doubleQuotes r)
  end.

(** One cell of a summary row, after [Array.join] has turned it into
    text. *)
Definition csvCell (value : option json) : string :=
  match value with
  | Some (JStr s) =>
      if Js.includes s "," || Js.includes s quote || Js.includes s newline
      then quote ++ doubleQuotes s ++ quote
      else s
  | Some JNull | None => ""
  | Some v => Value.toString v
  end.

(** [allFields.add(key)] on a [Set] kept in insertion order *)
Definition addField (fields : list string) (key : string) : list string :=
  if existsb (String.eqb key) fields then fields else (fields ++ [key])%list.

(** The columns after the keys of one more flattened receipt. *)
Definition addColumns (allFields : list string) (keys : list string)
  : list string :=
  fold_left (fun allFields key =>
               if key =? "type-code" then allFields
               else addField allFields key) keys allFields.

(** One cell of a row.  The row is put together by [Array.join], which
    converts what is not a string; that throws on a value that is not
    printable. *)
Definition cell (value : option json) : Completion string :=
  match value with
  | Some v => if Value.printable v then Normal (csvCell value) else TypeError
  | None => Normal (csvCell value)
  end.

(** The cells of one row, joined. *)
Definition row (flat : object) (fields : list string) : Completion string :=
  andThen (mapC (fun field => cell (Value.get flat field)) fields)
          (fun cells => Normal (Js.join "," cells)).

(** [flat[field]] is modelled as the own property: under a column named
    like an inherited member, a record without that key would print the
    member it inherits. *)
Definition createTotalCsv (receipts : list json) : Completion string :=
  match receipts with
  | [] => Normal ""
  | _ =>
      andThen
        (foldC (fun allFields receipt =>
                  andThen (flattenObject receipt "")
                          (fun flat =>
                             Normal (addColumns allFields (Value.keys flat))))
               receipts [])
        (fun fields =>
           let headerRow := Js.join "," fields in
           andThen
             (mapC (fun receipt =>
                      andThen (flattenObject receipt "")
                              (fun flat => row flat fields))
                   receipts)
             (fun dataRows =>
                Normal (headerRow ++ newline ++ Js.join newline dataRows)))
  end.

(** [convertToCsv]: the table of one receipt.  No script calls it. *)
Definition convertToCsv (data : json) : Completion string :=
  andThen (flattenObject data "")
    (fun flatData =>
       let headers := Value.keys flatData in
       let headerRow := Js.join "," headers in
       andThen (row flatData headers)
               (fun dataRow => Normal (headerRow ++ newline ++ dataRow))).

(** The regular expression of [parseExtractedData],
    [/```(?:json)?\s*([\s\S]*?)\s*```/]: the first fence, an optional
    "json", and the text up to the next fence, without the white space
    around it.  [None] when the text holds no such pair of fences. *)
Definition fence : string := "```".

Definition fencedBlock (text : string) : option string :=
  match index 0 fence text with
  | None => None
  | Some i =>
      let rest := substring (i + 3) (String.length text - (i + 3)) text in
      let rest :=
        if prefix "json" rest
        then substring 4 (String.length rest - 4) rest else rest in
      let body := Js.trimStart rest in
      match index 0 fence body with
      | None => None
      | Some k => Some (Js.trimEnd (substring 0 k body))
      end
  end.

Section WithHost.
Context {H : Host}.

Definition checkCliTool (toolName : string) : M bool :=
  result <- cliCommand toolName ["-h"] {| timeout := 10; interactive := false |} ;;
  let err := cmd_error result in
  if Js.nonEmpty err && Js.includes err "not in the allowed CLI commands list" then
    console_error (toolName ++ " command is blocked by security whitelist") [] ;;
    console_error "Error:" [err] ;;
    ret false
  else if Js.nonEmpty err
          && (Js.includes err "command not found"
              || Js.includes err "No such file or directory") then
    console_error (toolName ++ " command not found") [] ;;
    console_error "Error:" [err] ;;
    ret false
  else
    let output := orDefault (stdout result) (orDefault (stderr result) "") in
    if (0 <? String.length output)%nat || negb (Js.nonEmpty err) then ret true
    else
      console_error (toolName ++ " command failed") [] ;;
      console_error "Error:" [err] ;;
      showLines "Standard Error Output:" (stderr result) 5 ;;
      ret false.

(** [verbose] only adds [console.log] lines. *)
Definition isDocumentFile (filepath : string) (documentExtensions : list string)
  (verbose : bool) : bool :=
  let extension := fs_ext filepath in
  if negb (Js.nonEmpty extension) then false
  else
    let extension := Js.toLowerCase extension in
    let extension :=
      if negb (Js.startsWithChar "."%char extension)
      then "." ++ extension else extension in
    existsb (fun e => extension =? e) documentExtensions.

(** The listing's entries are [FileInfo] records, so the script's
    safety check ([!fileInfo || typeof fileInfo.name !== 'string'])
    never fires. *)
Definition getDocumentFiles (inputPath : string) (documentExtensions : list string)
  (verbose : bool) : M (list string) :=
  inputExists <- fs_exists inputPath ;;
  if negb inputExists then
    console_error "Cannot access:" [inputPath] ;;
    ret []
  else
    isDir <- fs_isDir inputPath ;;
    if isDir then
      listResult <- fs_readdir inputPath ;;
      if negb (Js.nonEmpty (dir_error listResult)) then
        let files :=
          map path
            (filter (fun fileInfo =>
                       negb (is_dir fileInfo)
                       && isDocumentFile (path fileInfo) documentExtensions verbose)
                    (dir_files listResult)) in
        ret (Js.sort files)
      else
        console_error "Failed to list directory:" [dir_error listResult] ;;
        ret (Js.sort [])
    else
      isFile <- fs_isFile inputPath ;;
      if isFile && isDocumentFile inputPath documentExtensions verbose
      then ret (Js.sort [inputPath])
      else ret (Js.sort []).

Definition determineReceiptOutputPath (inputFile baseName outputPath : string)
  (isBatchProcessing : bool) (outputFormat : string) : M string :=
  let extension := ".json" in
  determinePath inputFile (baseName ++ ".receipt" ++ extension) extension
                outputPath isBatchProcessing.

(** The result is the parsed value, or [JNull] for the script's
    [null]. *)
Definition readExistingReceiptData (filePath : string) : M json :=
  result <- fs_read filePath ;;
  if Js.nonEmpty (file_error result) then
    console_error "Failed to read existing receipt data:" [file_error result] ;;
    ret JNull
  else
    match JSON_parse (file_content result) with
    | Some data => ret data
    | None =>
        console_error "Failed to parse existing receipt data:" [] ;;
        ret JNull
    end.

(** [data.source_file = ...; data.extraction_timestamp = ...]: on an
    object the two properties are set; on [null] the assignment throws
    ([None]); on an array or a primitive nothing observable changes. *)
Definition addMetadata (data : json) (sourceFileName stamp : string)
  : option json :=
  match data with
  | JNull => None
  | JObj props =>
      Some (JObj (Value.set (Value.set props "source_file" (JStr sourceFileName))
                            "extraction_timestamp" (JStr stamp)))
  | other => Some other
  end.

Definition parseExtractedData (llmOutput sourceFileName : string) : M json :=
  let jsonStr := match fencedBlock llmOutput with
                 | Some inner => inner
                 | None => llmOutput
                 end in
  stamp <- Date_toISOString ;;
  match JSON_parse jsonStr with
  | Some data =>
      match addMetadata data sourceFileName stamp with
      | Some enriched => ret enriched
      | None =>
          console_error "Error parsing LLM output:" [] ;;
          ret JNull
      end
  | None =>
      console_error "Error parsing LLM output:" [] ;;
      ret JNull
  end.

(** The local function of [processReceipt] that names the staging
    directory. *)
Definition calculateMd5 (str : string) : M string :=
  let fallback : M string :=
    now <- Date_getTime ;;
    let uniquePart := fs_basename str ++ "_" ++ Js.numberToString now in
    ret (substring 0 32
           (Js.filterS (fun c => Js.isLower c || Js.isUpper c || Js.isDigit c)
                       uniquePart)) in
  strExists <- fs_exists str ;;
  if strExists then
    md5Result <- fs_md5 str ;;
    if negb (Js.nonEmpty (hash_error md5Result)) then ret (hash md5Result)
    else fallback
  else fallback.

(** [processReceipt], steps 2 to 5 (lines 1043-1140), entered with the
    text file the first step settled on. *)
Definition structureReceipt (documentFile outputFile tempTextFile : string)
  : M json :=
  textContent <- fs_read tempTextFile ;;
  if Js.nonEmpty (file_error textContent) then
    console_error "Failed to read extracted text:" [file_error textContent] ;;
    ret JNull
  else if negb (Js.nonBlank (file_content textContent)) then
    console_error "Extracted text is empty" [] ;;
    ret JNull
  else
    outputExists <- fs_exists outputFile ;;
    existingData <-
      (if outputExists then readExistingReceiptData outputFile
       else ret JNull) ;;
    if Value.truthy existingData then ret existingData
    else
      let llmArgs := ["call"; "deepseek-ticket-extraction"; "--var";
                      "text:text:" ++ file_content textContent] in
      llmResult <-
        cliCommand "llm-caller" llmArgs
                   {| timeout := 600; interactive := false |} ;;
      if Js.nonEmpty (cmd_error llmResult) then
        console_error "LLM extraction failed:" [] ;;
        console_error "Error:" [cmd_error llmResult] ;;
        showLines "Standard Error Output:" (stderr llmResult) 10 ;;
        ret JNull
      else if negb (Js.nonBlank (stdout llmResult)) then
        console_error "LLM extraction returned empty result" [] ;;
        ret JNull
      else
        extractedData <-
          parseExtractedData (stdout llmResult) (fs_basename documentFile) ;;
        if negb (Value.truthy extractedData) then
          console_error "Failed to parse structured data" [] ;;
          ret JNull
        else
          let outputContent := JSON_stringify extractedData in
          writeResult <- fs_write outputFile outputContent ;;
          if Js.nonEmpty (res_error writeResult) then
            console_error "Failed to save extracted data:"
                          [res_error writeResult] ;;
            ret JNull
          else ret extractedData.

Definition processReceipt (documentFile outputFile : string) (verbose : bool)
  : M json :=
  let finish := structureReceipt documentFile outputFile in
  md5Hash <- calculateMd5 documentFile ;;
  let tempDir := fs_dirname outputFile in
  let baseName := fs_basename documentFile in
  let hashPath := fs_join [tempDir; md5Hash] in
  hashPathExists <- fs_exists hashPath ;;
  hashDir <-
    (if negb hashPathExists then
       mkdirResult <- fs_mkdir hashPath ;;
       if Js.nonEmpty (res_error mkdirResult) then
         console_error "Failed to create hash directory:"
                       [res_error mkdirResult] ;;
         ret tempDir
       else ret hashPath
     else ret hashPath) ;;
  let tempTextFile := fs_join [hashDir; baseName ++ ".extracted.txt"] in
  skipTextExtraction <- fs_exists tempTextFile ;;
  if skipTextExtraction then finish tempTextFile
  else
    let extractArgs :=
      ([documentFile; "--content-type"; "image"; "--ocr"; "llm-caller";
        "--llm_template"; "qwen-vl-ocr-image"; "-o"; tempTextFile]
       ++ (if verbose then ["--verbose"] else []))%list in
    extractResult <-
      cliCommand "doc-to-text" extractArgs
                 {| timeout := 600; interactive := false |} ;;
    if Js.nonEmpty (cmd_error extractResult) then
      console_error "Text extraction failed:" [] ;;
      console_error "Error:" [cmd_error extractResult] ;;
      showLines "Standard Error Output:" (stderr extractResult) 10 ;;
      ret JNull
    else
      created <- fs_exists tempTextFile ;;
      if created then finish tempTextFile
      else
        console_error "Text file was not created at expected location:"
                      [tempTextFile] ;;
        cwdResult <- fs_cwd ;;
        if negb (Js.nonEmpty (path_error cwdResult)) then
          hashDirExists <- fs_exists hashDir ;;
          staged <-
            (if negb (hashDir =? tempDir) && hashDirExists then
               hashDirList <- fs_readdir hashDir ;;
               if negb (Js.nonEmpty (dir_error hashDirList)) then
                 match find (fun entry => Js.endsWith (name entry) ".txt"
                                          && negb (is_dir entry))
                            (dir_files hashDirList) with
                 | Some entry => ret (path entry)
                 | None => ret tempTextFile
                 end
               else ret tempTextFile
             else ret tempTextFile) ;;
          stagedExists <- fs_exists staged ;;
          if negb stagedExists then
            findResult <- fs_find (path_path cwdResult) "text.txt" ;;
            match (if Js.nonEmpty (find_error findResult)
                   then [] else find_files findResult) with
            | candidate :: _ => finish candidate
            | [] =>
                console_error "Could not locate extracted text file" [] ;;
                ret JNull
            end
          else finish staged
        else
          console_error "Could not determine current working directory" [] ;;
          ret JNull.

(** The loop of [createSummaryFile] over the groups.  A [TypeError]
    from [createTotalCsv] ends it where it stands. *)
Fixpoint writeGroups (receiptsByType : groups)
  (totalDirPath outputFormat : string) (overwrite : bool)
  (results : list string) : M (Completion (list string)) :=
  match receiptsByType with
  | [] => ret (Normal results)
  | (receiptType, typeReceipts) :: rest =>
      if (0 <? List.length typeReceipts)%nat && negb (receiptType =? "general")
      then
        let typeName := sanitizeFileName receiptType in
        let typeFileName :=
          "receipts_" ++ typeName ++ "."
          ++ (if outputFormat =? "csv" then "csv" else "json") in
        let typeFilePath := fs_join [totalDirPath; typeFileName] in
        fileExists <- fs_exists typeFilePath ;;
        if negb overwrite && fileExists then
          writeGroups rest totalDirPath outputFormat overwrite results
        else
          match (if outputFormat =? "csv" then createTotalCsv typeReceipts
                 else Normal (JSON_stringify (JArr typeReceipts))) with
          | TypeError => ret TypeError
          | Normal typeContent =>
              writeTypeResult <- fs_write typeFilePath typeContent ;;
              if Js.nonEmpty (res_error writeTypeResult) then
                console_error "Failed to save type summary file:"
                              [res_error writeTypeResult] ;;
                writeGroups rest totalDirPath outputFormat overwrite results
              else
                writeGroups rest totalDirPath outputFormat overwrite
                            (results ++ [typeFilePath])%list
          end
      else writeGroups rest totalDirPath outputFormat overwrite results
  end.

(** The directory the summary files go to: the "total" folder, or the
    output path itself when that folder cannot be created. *)
Definition totalDirectory (outputPath : string) : M string :=
  let totalDirPath := fs_join [outputPath; "total"] in
  totalExists <- fs_exists totalDirPath ;;
  if negb totalExists then
    mkdirResult <- fs_mkdir totalDirPath ;;
    if Js.nonEmpty (res_error mkdirResult) then
      console_error "Failed to create 'total' directory:"
                    [res_error mkdirResult] ;;
      ret outputPath
    else ret totalDirPath
  else ret totalDirPath.

(** [None] is the [null] returned when no file was written. *)
Definition createSummaryFile (receipts : list json)
  (outputPath outputFormat : string) (overwrite : bool)
  : M (Completion (option (list string))) :=
  totalDirPath <- totalDirectory outputPath ;;
  match groupReceiptsByType receipts with
  | TypeError => ret TypeError
  | Normal receiptsByType =>
      written <-
        writeGroups receiptsByType totalDirPath outputFormat overwrite [] ;;
      ret (andThen written
             (fun results =>
                Normal (match results with [] => None | _ => Some results end)))
  end.

Definition documentExtensions : list string :=
  [".pdf"; ".png"; ".jpg"; ".jpeg"; ".gif"; ".bmp"; ".tiff";
   ".docx"; ".doc"; ".txt"].

Record Config : Type := {
  inputPath : string;
  outputPath : string;
  outputFormat : string;
  overwrite : bool;
  verbose : bool
}.

Record Setup : Type := {
  config : Config;
  resolvedOutput : string;
  isBatchProcessing : bool;
  documentFiles : list string
}.

(** The counters and the collection the loop of [main] updates. *)
Record Tally : Type := {
  successCount : nat;
  failureCount : nat;
  allReceipts : list json;
  skippedCount : nat
}.

Definition emptyTally : Tally :=
  {| successCount := 0; failureCount := 0; allReceipts := []; skippedCount := 0 |}.

(** [main], lines 498-579: everything before "Process each document
    file".  [None] is an early [return false]. *)
Definition main_setup : M (option Setup) :=
  input <- getVar "input" ;;
  output <- getVar "output" ;;
  format <- getVar "format" ;;
  ow <- getVar "overwrite" ;;
  vb <- getVar "verbose" ;;
  let cfg := {| inputPath := input; outputPath := output;
                outputFormat := orDefault format "json";
                overwrite := ow =? "true"; verbose := vb =? "true" |} in
  if negb (Js.nonEmpty input) then
    console_error "Error: Input path is required" [] ;;
    ret None
  else
    inputExists <- fs_exists input ;;
    if negb inputExists then
      console_error "Error: Input path does not exist:" [input] ;;
      ret None
    else
      isBatch <- fs_isDir input ;;
      outputValidation <-
        (if Js.nonEmpty output then validateOutputPath output isBatch
         else ret (Valid output)) ;;
      match outputValidation with
      | Invalid reason =>
          console_error "Error:" [reason] ;;
          ret None
      | Valid resolved =>
          extractor <- checkCliTool "doc-to-text" ;;
          if negb extractor then ret None
          else
            caller <- checkCliTool "llm-caller" ;;
            if negb caller then ret None
            else
              files <- getDocumentFiles input documentExtensions (verbose cfg) ;;
              if (List.length files =? 0)%nat then
                console_error "No supported document files found in:" [input] ;;
                ret None
              else
                ret (Some {| config := cfg; resolvedOutput := resolved;
                             isBatchProcessing := isBatch;
                             documentFiles := files |})
      end.

(** [main], lines 581-628: the per-file loop. *)
Fixpoint main_loop (s : Setup) (files : list string) (t : Tally) : M Tally :=
  match files with
  | [] => ret t
  | documentFile :: rest =>
      let baseName := fs_basename documentFile in
      receiptOutputFile <-
        determineReceiptOutputPath documentFile baseName (resolvedOutput s)
          (isBatchProcessing s) (outputFormat (config s)) ;;
      outputExists <- fs_exists receiptOutputFile ;;
      if negb (overwrite (config s)) && outputExists then
        existingData <- readExistingReceiptData receiptOutputFile ;;
        if Value.truthy existingData then
          main_loop s rest
            {| successCount := successCount t;
               failureCount := failureCount t;
               allReceipts := (allReceipts t ++ [existingData])%list;
               skippedCount := S (skippedCount t) |}
        else main_loop s rest t
      else
        extractedData <-
          processReceipt documentFile receiptOutputFile (verbose (config s)) ;;
        if Value.truthy extractedData then
          main_loop s rest
            {| successCount := S (successCount t);
               failureCount := failureCount t;
               allReceipts :=
                 if isBatchProcessing s
                 then (allReceipts t ++ [extractedData])%list
                 else allReceipts t;
               skippedCount := skippedCount t |}
        else
          main_loop s rest
            {| successCount := successCount t;
               failureCount := S (failureCount t);
               allReceipts := allReceipts t;
               skippedCount := skippedCount t |}
  end.

(** [main], lines 630-642: the summary files. *)
Definition main_summary (s : Setup) (t : Tally) : M (Completion unit) :=
  if isBatchProcessing s && (0 <? List.length (allReceipts t))%nat then
    let summaryOutputPath :=
      orDefault (resolvedOutput s) (inputPath (config s)) in
    summaryFiles <-
      createSummaryFile (allReceipts t) summaryOutputPath
                        (outputFormat (config s)) (overwrite (config s)) ;;
    ret (andThen summaryFiles (fun _ => Normal tt))
  else ret (Normal tt).

(** [main] does not catch what [createSummaryFile] throws. *)
Definition main : M (Completion bool) :=
  setup <- main_setup ;;
  match setup with
  | None => ret (Normal false)
  | Some s =>
      t <- main_loop s (documentFiles s) emptyTally ;;
      summary <- main_summary s t ;;
      ret (andThen summary (fun _ => Normal true))
  end.

End WithHost.
End ReceiptProcessor.

(* ================================================================== *)
(** * Contract review workflow (text-extraction.js, lines 1381-1933)

    [checkCliTool], [isDocumentFile] and [getDocumentFiles] have the
    same bodies as in the text extraction script. *)
(* ================================================================== *)

Module ContractReview.
Section WithHost.
Context {H : Host}.

Definition checkCliTool : string -> M bool := TextExtraction.checkCliTool.

Definition isDocumentFile : string -> list string -> bool :=
  TextExtraction.isDocumentFile.

Definition getDocumentFiles : string -> list string -> M (list string) :=
  TextExtraction.getDocumentFiles.

Definition determineReviewOutputPath (inputFile baseName outputPath : string)
  (isBatchProcessing : bool) : M string :=
  determinePath inputFile (baseName ++ ".review.txt") ".txt" outputPath
                isBatchProcessing.

(** [processDocument], steps 2 to 4 (lines 1847-1929), entered with the
    text file the first step settled on. *)
Definition reviewText (reviewOutputFile contractLlmTemplate tempTextFile : string)
  : M bool :=
  textContent <- fs_read tempTextFile ;;
  if Js.nonEmpty (file_error textContent) then
    console_error "Failed to read extracted text:" [file_error textContent] ;;
    ret false
  else if negb (Js.nonBlank (file_content textContent)) then
    console_error "Extracted text is empty" [] ;;
    ret false
  else
    let llmArgs := ["call"; contractLlmTemplate; "--var";
                    "text:text:" ++ file_content textContent] in
    llmResult <-
      cliCommand "llm-caller" llmArgs
                 {| timeout := 600; interactive := false |} ;;
    if Js.nonEmpty (cmd_error llmResult) then
      console_error "LLM analysis failed:" [] ;;
      console_error ("Command: llm-caller "
                     ++ Js.join " " (firstn 2 llmArgs)
                     ++ " --var text:text:[content]") [] ;;
      console_error "Error:" [cmd_error llmResult] ;;
      showLines "Standard Error Output:" (stderr llmResult) 10 ;;
      showLines "Standard Output:" (stdout llmResult) 10 ;;
      ret false
    else if negb (Js.nonBlank (stdout llmResult)) then
      console_error "LLM analysis returned empty result" [] ;;
      ret false
    else
      writeResult <- fs_write reviewOutputFile (stdout llmResult) ;;
      if Js.nonEmpty (res_error writeResult) then
        console_error "Failed to save review result:" [res_error writeResult] ;;
        ret false
      else ret true.

Definition processDocument
  (documentFile reviewOutputFile ocrTool ocrLlmTemplate contractLlmTemplate
     contentType : string) (verbose : bool) : M bool :=
  let tempDir := fs_dirname reviewOutputFile in
  let baseName := fs_basename documentFile in
  let tempTextFile := fs_join [tempDir; baseName ++ ".extracted.txt"] in
  let extractArgs :=
    TextExtraction.docToTextArgs documentFile ocrTool ocrLlmTemplate
                                 contentType verbose tempTextFile in
  let commandOptions := TextExtraction.docToTextOptions ocrTool in
  let finish := reviewText reviewOutputFile contractLlmTemplate in
  extractResult <- cliCommand "doc-to-text" extractArgs commandOptions ;;
  if Js.nonEmpty (cmd_error extractResult) then
    console_error "Text extraction failed:" [] ;;
    console_error ("Command: doc-to-text " ++ Js.join " " extractArgs) [] ;;
    console_error "Error:" [cmd_error extractResult] ;;
    showLines "Standard Error Output:" (stderr extractResult) 10 ;;
    showLines "Standard Output:" (stdout extractResult) 10 ;;
    ret false
  else
    created <- fs_exists tempTextFile ;;
    if created then finish tempTextFile
    else
      console_error "Text file was not created at expected location:"
                    [tempTextFile] ;;
      cwdResult <- fs_cwd ;;
      if negb (Js.nonEmpty (path_error cwdResult)) then
        findResult <- fs_find (path_path cwdResult) "text.txt" ;;
        match (if Js.nonEmpty (find_error findResult)
               then [] else find_files findResult) with
        | candidate :: _ => finish candidate
        | [] =>
            console_error "Could not locate extracted text file" [] ;;
            ret false
        end
      else
        console_error "Could not determine current working directory" [] ;;
        ret false.

Definition documentExtensions : list string := TextExtraction.documentExtensions.

Record Config : Type := {
  inputPath : string;
  outputPath : string;
  ocrTool : string;
  ocrLlmTemplate : string;
  contractLlmTemplate : string;
  contentType : string;
  overwrite : bool;
  verbose : bool
}.

Record Setup : Type := {
  config : Config;
  resolvedOutput : string;
  isBatchProcessing : bool;
  documentFiles : list string
}.

(** [main], lines 1388-1487. *)
Definition main_setup : M (option Setup) :=
  input <- getVar "input" ;;
  output <- getVar "output" ;;
  ocr <- getVar "ocr" ;;
  template <- getVar "ocr_llm_template" ;;
  contract <- getVar "contract_llm_template" ;;
  ctype <- getVar "content_type" ;;
  ow <- getVar "overwrite" ;;
  vb <- getVar "verbose" ;;
  let cfg := {| inputPath := input; outputPath := output;
                ocrTool := orDefault ocr "interactive";
                ocrLlmTemplate := template;
                contractLlmTemplate := orDefault contract "deepseek-contract-review";
                contentType := ctype;
                overwrite := ow =? "true"; verbose := vb =? "true" |} in
  if negb (Js.nonEmpty input) then
    console_error "Error: Input path is required" [] ;;
    ret None
  else if (ocrTool cfg =? "llm-caller") && negb (Js.nonEmpty template) then
    console_error
      "Error: ocr_llm_template is required when using llm-caller as OCR tool" [] ;;
    ret None
  else
    inputExists <- fs_exists input ;;
    if negb inputExists then
      console_error "Error: Input path does not exist:" [input] ;;
      ret None
    else
      isBatch <- fs_isDir input ;;
      outputValidation <-
        (if Js.nonEmpty output then validateOutputPath output isBatch
         else ret (Valid output)) ;;
      match outputValidation with
      | Invalid reason =>
          console_error "Error:" [reason] ;;
          ret None
      | Valid resolved =>
          extractor <- checkCliTool "doc-to-text" ;;
          if negb extractor then ret None
          else
            caller <- checkCliTool "llm-caller" ;;
            if negb caller then ret None
            else
              files <- getDocumentFiles input documentExtensions ;;
              if (List.length files =? 0)%nat then
                console_error "No supported document files found in:" [input] ;;
                ret None
              else
                ret (Some {| config := cfg; resolvedOutput := resolved;
                             isBatchProcessing := isBatch;
                             documentFiles := files |})
      end.

(** [main], lines 1489-1519; the result is
    [(successCount, failureCount)]. *)
Fixpoint main_loop (s : Setup) (files : list string)
  (successCount failureCount : nat) : M (nat * nat) :=
  match files with
  | [] => ret (successCount, failureCount)
  | documentFile :: rest =>
      let baseName := fs_basename documentFile in
      reviewOutputFile <-
        determineReviewOutputPath documentFile baseName (resolvedOutput s)
                                  (isBatchProcessing s) ;;
      outputExists <- fs_exists reviewOutputFile ;;
      if negb (overwrite (config s)) && outputExists then
        main_loop s rest successCount failureCount
      else
        reviewed <-
          processDocument documentFile reviewOutputFile
            (ocrTool (config s)) (ocrLlmTemplate (config s))
            (contractLlmTemplate (config s)) (contentType (config s))
            (verbose (config s)) ;;
        if reviewed
        then main_loop s rest (S successCount) failureCount
        else main_loop s rest successCount (S failureCount)
  end.

Definition main : M bool :=
  setup <- main_setup ;;
  match setup with
  | None => ret false
  | Some s =>
      main_loop s (documentFiles s) 0 0 ;;
      ret true
  end.

End WithHost.
End ContractReview.

(* ================================================================== *)
(** * Video to audio converter (the fourth script)

    Its [validateOutputPath] is the shared one. *)
(* ================================================================== *)

Module VideoToAudio.
Section WithHost.
Context {H : Host}.

Definition isVideoFile (filepath : string) (videoExtensions : list string)
  : bool :=
  let extension := Js.toLowerCase (fs_ext filepath) in
  existsb (fun e => extension =? e) videoExtensions.

(** The loop of [getVideoFiles] over what [fs.find] returned. *)
Fixpoint keepVideoFiles (found : list string) (videoExtensions : list string)
  : M (list string) :=
  match found with
  | [] => ret []
  | file :: rest =>
      isFile <- fs_isFile file ;;
      kept <- keepVideoFiles rest videoExtensions ;;
      if isFile && isVideoFile file videoExtensions
      then ret (file :: kept) else ret kept
  end.

Definition getVideoFiles (inputPath : string) (videoExtensions : list string)
  : M (list string) :=
  inputExists <- fs_exists inputPath ;;
  if negb inputExists then
    console_error "Cannot access:" [inputPath] ;;
    ret []
  else
    isDir <- fs_isDir inputPath ;;
    if isDir then
      findResult <- fs_find inputPath "*" ;;
      if negb (Js.nonEmpty (find_error findResult)) then
        files <- keepVideoFiles (find_files findResult) videoExtensions ;;
        ret (Js.sort files)
      else ret (Js.sort [])
    else
      isFile <- fs_isFile inputPath ;;
      if isFile && isVideoFile inputPath videoExtensions
      then ret (Js.sort [inputPath])
      else ret (Js.sort []).

Definition videoExtensions : list string :=
  [".mp4"; ".avi"; ".mov"; ".mkv"; ".wmv"; ".flv"; ".webm"; ".m4v";
   ".mpg"; ".mpeg"; ".3gp"; ".asf"; ".rm"; ".rmvb"; ".vob"; ".ts"; ".mts"].

(** [qualityMap[format][quality]] and [audioConfigs[outputFormat]] are
    lookups in object literals.  They are modelled for the names the
    tables hold and for names no object inherits; under an inherited
    name ("constructor", "toString", ...) the source finds that member,
    which is outside this model. *)
Definition getQualityParams (format quality : string) : list string :=
  let table (low standard high : list string) :=
    if quality =? "low" then low
    else if quality =? "high" then high
    else standard in
  if format =? "mp3" then table ["-ab"; "128k"] ["-ab"; "192k"] ["-ab"; "320k"]
  else if format =? "ogg" then table ["-aq"; "2"] ["-aq"; "4"] ["-aq"; "6"]
  else if format =? "aac" then table ["-ab"; "128k"] ["-ab"; "192k"] ["-ab"; "256k"]
  else [].

Record AudioConfig : Type := {
  codec : string;
  params : list string;
  ext : string
}.

(** [audioConfigs[outputFormat]], for the five formats of the table. *)
Definition audioConfig (outputFormat quality : string) : option AudioConfig :=
  if outputFormat =? "mp3" then
    Some {| codec := "libmp3lame"; params := getQualityParams "mp3" quality;
            ext := ".mp3" |}
  else if outputFormat =? "wav" then
    Some {| codec := "pcm_s16le"; params := []; ext := ".wav" |}
  else if outputFormat =? "ogg" then
    Some {| codec := "libvorbis"; params := getQualityParams "ogg" quality;
            ext := ".ogg" |}
  else if outputFormat =? "aac" then
    Some {| codec := "aac"; params := getQualityParams "aac" quality;
            ext := ".aac" |}
  else if outputFormat =? "flac" then
    Some {| codec := "flac"; params := []; ext := ".flac" |}
  else None.

Definition getBaseNameWithoutExt (fileName : string) : string :=
  fs_basename fileName.

Definition determineOutputPath (inputFile baseName audioExt outputPath : string)
  (isBatchProcessing : bool) : M string :=
  determinePath inputFile (baseName ++ audioExt) audioExt outputPath
                isBatchProcessing.

Definition convertVideoToAudio (inputFile outputFile : string)
  (config : AudioConfig) (overwrite : bool) : M bool :=
  let args :=
    (["-i"; inputFile; "-vn"; "-acodec"; codec config]
     ++ params config
     ++ (if overwrite then ["-y"] else [])
     ++ [outputFile])%list in
  result <- cliCommand "ffmpeg" args {| timeout := 300; interactive := false |} ;;
  if Js.nonEmpty (cmd_error result) then
    console_error "Conversion failed:" [] ;;
    console_error ("Command: ffmpeg " ++ Js.join " " args) [] ;;
    console_error "Error:" [cmd_error result] ;;
    (if Js.nonEmpty (stderr result) then
       forEach (firstn 5 (Js.split "010"%char (stderr result)))
         (fun line => if Js.nonBlank line
                      then console_error ("  " ++ Js.trim line) []
                      else ret tt)
     else ret tt) ;;
    ret false
  else
    created <- fs_exists outputFile ;;
    if negb created then
      console_error "Output file was not created" [] ;;
      ret false
    else ret true.

Record Config : Type := {
  inputPath : string;
  outputFormat : string;
  quality : string;
  overwrite : bool
}.

Record Setup : Type := {
  config : Config;
  finalOutputPath : string;
  isBatchProcessing : bool;
  audio : AudioConfig;
  videoFiles : list string
}.

(** [main], lines 8-143.  [None] is an early [return false]. *)
Definition main_setup : M (option Setup) :=
  help <- getVar "help" ;;
  input <- getVar "input" ;;
  format <- getVar "format" ;;
  output <- getVar "output" ;;
  outputDir <- getVar "output_dir" ;;
  qual <- getVar "quality" ;;
  ow <- getVar "overwrite" ;;
  let cfg := {| inputPath := input; outputFormat := orDefault format "mp3";
                quality := orDefault qual "standard";
                overwrite := ow =? "true" |} in
  if help =? "true" then ret None
  else
    let requested := orDefault output outputDir in
    if negb (Js.nonEmpty input) then
      console_error "Error: Input path is required" [] ;;
      ret None
    else
      inputExists <- fs_exists input ;;
      if negb inputExists then
        console_error "Error: Input path does not exist:" [input] ;;
        ret None
      else
        isBatch <- fs_isDir input ;;
        outputValidation <-
          (if Js.nonEmpty requested then validateOutputPath requested isBatch
           else ret (Valid requested)) ;;
        match outputValidation with
        | Invalid reason =>
            console_error "Error:" [reason] ;;
            ret None
        | Valid resolved =>
            ffmpegCheck <-
              cliCommand "ffmpeg" [] {| timeout := 5; interactive := false |} ;;
            let ffmpegOutput :=
              orDefault (stderr ffmpegCheck)
                (orDefault (stdout ffmpegCheck)
                   (orDefault (cmd_error ffmpegCheck) "")) in
            if negb (Js.includes ffmpegOutput "ffmpeg version") then
              console_error "FFmpeg not found or not working properly" [] ;;
              console_error ("Error: " ++ ffmpegOutput) [] ;;
              ret None
            else
              match audioConfig (outputFormat cfg) (quality cfg) with
              | None =>
                  console_error "Unsupported audio format:" [outputFormat cfg] ;;
                  ret None
              | Some chosen =>
                  files <- getVideoFiles input videoExtensions ;;
                  if (List.length files =? 0)%nat then
                    console_error "No video files found in:" [input] ;;
                    ret None
                  else
                    ret (Some {| config := cfg; finalOutputPath := resolved;
                                 isBatchProcessing := isBatch;
                                 audio := chosen; videoFiles := files |})
              end
        end.

(** [main], lines 145-175; the result is
    [(successCount, failureCount)]. *)
Fixpoint main_loop (s : Setup) (files : list string)
  (successCount failureCount : nat) : M (nat * nat) :=
  match files with
  | [] => ret (successCount, failureCount)
  | videoFile :: rest =>
      let fileName := fs_basename videoFile in
      let baseName := getBaseNameWithoutExt fileName in
      outputFile <-
        determineOutputPath videoFile baseName (ext (audio s))
                            (finalOutputPath s) (isBatchProcessing s) ;;
      outputExists <- fs_exists outputFile ;;
      if negb (overwrite (config s)) && outputExists then
        main_loop s rest successCount failureCount
      else
        converted <-
          convertVideoToAudio videoFile outputFile (audio s)
                              (overwrite (config s)) ;;
        if converted
        then main_loop s rest (S successCount) failureCount
        else main_loop s rest successCount (S failureCount)
  end.

Definition main : M bool :=
  setup <- main_setup ;;
  match setup with
  | None => ret false
  | Some s =>
      main_loop s (videoFiles s) 0 0 ;;
      ret true
  end.

End WithHost.
End VideoToAudio.

(* ================================================================== *)
(** * A small host, to run the scripts on concrete machines

    An in-memory file tree with slash-separated paths, scripted
    command-line tools and a JSON reader and printer for integral
    numbers.  It is one inhabitant of [Host]; the general theorems below
    hold for every host. *)
(* ================================================================== *)

Module Sim.

Inductive Node : Type :=
| Dir
| File (content : string).

(** What a tool does when it is run: its result, and the files it
    leaves, from its arguments. *)
Record Tool : Type := {
  tool_name : string;
  tool_help : CommandResult;
  tool_run : list string -> CommandResult * list (string * string)
}.

Record State : Type := {
  nodes : list (string * Node);
  workdir : string;
  variables : list (string * string);
  tools : list Tool;
  (** paths that can be neither created nor written *)
  denied : list string;
  (** directories that cannot be listed *)
  unlistable : list string;
  clock : Z;
  isoTime : string
}.

Definition slash : ascii := "/"%char.

Definition components (p : string) : list string := Js.split slash p.

Definition filename (p : string) : string := last (components p) "".

Definition dirname (p : string) : string :=
  match components p with
  | [] | [_] => "."
  | parts =>
      let d := Js.join "/" (removelast parts) in
      if Js.nonEmpty d then d else "/"
  end.

Definition ext (p : string) : string :=
  match Js.split "."%char (filename p) with
  | [] | [_] => ""
  | parts => "." ++ last parts ""
  end.

Definition basename (p : string) : string :=
  let f := filename p in
  substring 0 (String.length f - String.length (ext p)) f.

Definition join (parts : list string) : string :=
  Js.join "/" (filter Js.nonEmpty parts).

(** Relative paths are read from the working directory, and the
    working directory from the root. *)
Definition resolve (s : State) (p : string) : string :=
  if Js.startsWithChar slash p then p
  else if Js.startsWithChar slash (workdir s) then workdir s ++ "/" ++ p
  else "/" ++ workdir s ++ "/" ++ p.

Fixpoint assoc {A : Type} (k : string) (l : list (string * A)) : option A :=
  match l with
  | [] => None
  | (k', v) :: r => if k' =? k then Some v else assoc k r
  end.

Fixpoint update {A : Type} (k : string) (v : A) (l : list (string * A))
  : list (string * A) :=
  match l with
  | [] => [(k, v)]
  | (k', v') :: r => if k' =? k then (k, v) :: r else (k', v') :: update k v r
  end.

Definition lookup (s : State) (p : string) : option Node :=
  assoc (resolve s p) (nodes s).

Definition isDirNode (n : option Node) : bool :=
  match n with Some Dir => true | _ => false end.

Definition isFileNode (n : option Node) : bool :=
  match n with Some (File _) => true | _ => false end.

Definition withNodes (s : State) (n : list (string * Node)) : State :=
  {| nodes := n; workdir := workdir s; variables := variables s;
     tools := tools s; denied := denied s; unlistable := unlistable s;
     clock := clock s; isoTime := isoTime s |}.

Definition mem (p : string) (l : list string) : bool := existsb (String.eqb p) l.

Definition ok : Result := {| res_error := "" |}.
Definition failed (why : string) : Result := {| res_error := why |}.

Definition readdir (s : State) (p : string) : DirectoryResult :=
  let d := resolve s p in
  if isDirNode (lookup s p) && negb (mem d (unlistable s)) then
    {| dir_error := "";
       dir_files :=
         map (fun e => {| name := filename (fst e); path := fst e;
                          is_dir := isDirNode (Some (snd e)) |})
             (filter (fun e => (dirname (fst e) =? d) && negb (fst e =? d))
                     (nodes s)) |}
  else {| dir_error := "cannot list directory"; dir_files := [] |}.

(** Modelled from the spec: the host's "pattern-based recursive search"
    (section 6); the scripts use it to look for a file the extractor
    left somewhere below the working directory.  Every node below
    [root], at any depth, whose file name matches the pattern; the
    patterns the scripts pass are the wildcard and a plain file name. *)
Definition find (s : State) (root pattern : string) : FindResult :=
  let d := resolve s root in
  if isDirNode (lookup s root) then
    {| find_error := "";
       find_files :=
         map fst
           (filter (fun e => prefix (d ++ "/") (fst e)
                             && ((pattern =? "*") || (filename (fst e) =? pattern)))
                   (nodes s)) |}
  else {| find_error := "not a directory"; find_files := [] |}.

Definition read (s : State) (p : string) : FileResult :=
  match lookup s p with
  | Some (File c) => {| file_error := ""; file_content := c |}
  | _ => {| file_error := "cannot read file"; file_content := "" |}
  end.

(** A stand-in for the MD5 digest of a file: a function of its content. *)
Definition digest (content : string) : string :=
  "h" ++ Js.numberToString (Z.of_nat (String.length content)).

Definition md5 (s : State) (p : string) : HashResult :=
  match lookup s p with
  | Some (File c) => {| hash_error := ""; hash := digest c |}
  | _ => {| hash_error := "cannot hash"; hash := "" |}
  end.

Definition mkdir (s : State) (p : string) : Result * State :=
  let d := resolve s p in
  if mem d (denied s) then (failed "permission denied", s)
  else match lookup s p with
       | Some Dir => (ok, s)
       | Some (File _) => (failed "not a directory", s)
       | None => (ok, withNodes s (update d Dir (nodes s)))
       end.

Definition putFile (s : State) (p content : string) : State :=
  withNodes s (update (resolve s p) (File content) (nodes s)).

Definition write (s : State) (p content : string) : Result * State :=
  let f := resolve s p in
  if mem f (denied s) then (failed "permission denied", s)
  else if isDirNode (lookup s p) then (failed "is a directory", s)
  else if negb (isDirNode (assoc (dirname f) (nodes s)))
  then (failed "no such directory", s)
  else (ok, putFile s p content).

Definition rm (s : State) (p : string) : Result * State :=
  match lookup s p with
  | Some _ =>
      (ok, withNodes s (filter (fun e => negb (fst e =? resolve s p)) (nodes s)))
  | None => (failed "no such file", s)
  end.

Definition runTool (s : State) (command : string) (args : list string)
  (opts : CommandOptions) : CommandResult * State :=
  match List.find (fun t => tool_name t =? command) (tools s) with
  | None =>
      ({| stdout := ""; stderr := "";
          cmd_error := command ++ ": command not found" |}, s)
  | Some t =>
      match args with
      | ["-h"] => (tool_help t, s)
      | _ =>
          let (result, files) := tool_run t args in
          (result, fold_left (fun s f => putFile s (fst f) (snd f)) files s)
      end
  end.

Definition variable (s : State) (key : string) : string :=
  match assoc key (variables s) with Some v => v | None => "" end.

(** ** JSON text *)

Definition isWs (c : ascii) : bool :=
  let n := nat_of_ascii c in
  (n =? 32)%nat || (n =? 9)%nat || (n =? 10)%nat || (n =? 13)%nat.

Fixpoint skipWs (s : string) : string :=
  match s with
  | String c r => if isWs c then skipWs r else s
  | EmptyString => EmptyString
  end.

Definition dropPrefix (n : nat) (s : string) : string :=
  substring n (String.length s - n) s.

(** The characters of a string literal after its opening quote. *)
Fixpoint readString (s : string) : option (string * string) :=
  match s with
  | EmptyString => None
  | String c r =>
      if Ascii.eqb c "034"%char then Some (EmptyString, r)
      else if Ascii.eqb c "\"%char then
        match r with
        | String e r' =>
            let plain (d : ascii) :=
              match readString r' with
              | Some (t, rest) => Some (String d t, rest)
              | None => None
              end in
            if Ascii.eqb e "034"%char then plain "034"%char
            else if Ascii.eqb e "\"%char then plain "\"%char
            else if Ascii.eqb e "/"%char then plain "/"%char
            else if Ascii.eqb e "n"%char then plain "010"%char
            else if Ascii.eqb e "t"%char then plain "009"%char
            else if Ascii.eqb e "r"%char then plain "013"%char
            else None
        | EmptyString => None
        end
      else match readString r with
           | Some (t, rest) => Some (String c t, rest)
           | None => None
           end
  end.

Fixpoint readDigits (s : string) (acc : Z) : Z * string :=
  match s with
  | String c r =>
      if Js.isDigit c
      then readDigits r (10 * acc + Z.of_nat (nat_of_ascii c - 48))
      else (acc, s)
  | EmptyString => (acc, s)
  end.

Definition startsWithDigit (s : string) : bool :=
  match s with String c _ => Js.isDigit c | EmptyString => false end.

Definition readNumber (s : string) : option (json * string) :=
  let negative := Js.startsWithChar "-"%char s in
  let body := if negative then dropPrefix 1 s else s in
  if startsWithDigit body then
    let (n, rest) := readDigits body 0 in
    if Js.startsWithChar "."%char rest || Js.startsWithChar "e"%char rest
       || Js.startsWithChar "E"%char rest
    then None
    else Some (JNum (if negative then (- n)%Z else n), rest)
  else None.

Fixpoint readValue (fuel : nat) (s : string) : option (json * string) :=
  match fuel with
  | O => None
  | S fuel' =>
      let s := skipWs s in
      if prefix "null" s then Some (JNull, dropPrefix 4 s)
      else if prefix "true" s then Some (JBool true, dropPrefix 4 s)
      else if prefix "false" s then Some (JBool false, dropPrefix 5 s)
      else match s with
           | String c r =>
               if Ascii.eqb c "034"%char then
                 match readString r with
                 | Some (t, rest) => Some (JStr t, rest)
                 | None => None
                 end
               else if Ascii.eqb c "["%char then
                 if Js.startsWithChar "]"%char (skipWs r)
                 then Some (JArr [], dropPrefix 1 (skipWs r))
                 else readItems fuel' r []
               else if Ascii.eqb c "{"%char then
                 if Js.startsWithChar "}"%char (skipWs r)
                 then Some (JObj [], dropPrefix 1 (skipWs r))
                 else readMembers fuel' r []
               else readNumber s
           | EmptyString => None
           end
  end
with readItems (fuel : nat) (s : string) (acc : list json)
  : option (json * string) :=
  match fuel with
  | O => None
  | S fuel' =>
      match readValue fuel' s with
      | Some (v, rest) =>
          let rest := skipWs rest in
          if Js.startsWithChar ","%char rest
          then readItems fuel' (dropPrefix 1 rest) (acc ++ [v])%list
          else if Js.startsWithChar "]"%char rest
          then Some (JArr (acc ++ [v])%list, dropPrefix 1 rest)
          else None
      | None => None
      end
  end
with readMembers (fuel : nat) (s : string) (acc : object)
  : option (json * string) :=
  match fuel with
  | O => None
  | S fuel' =>
      match skipWs s with
      | String c r =>
          if Ascii.eqb c "034"%char then
            match readString r with
            | Some (k, rest) =>
                let rest := skipWs rest in
                if Js.startsWithChar ":"%char rest then
                  match readValue fuel' (dropPrefix 1 rest) with
                  | Some (v, rest) =>
                      let rest := skipWs rest in
                      if Js.startsWithChar ","%char rest
                      then readMembers fuel' (dropPrefix 1 rest)
                                       (Value.set acc k v)
                      else if Js.startsWithChar "}"%char rest
                      then Some (JObj (Value.set acc k v), dropPrefix 1 rest)
                      else None
                  | None => None
                  end
                else None
            | None => None
            end
          else None
      | EmptyString => None
      end
  end.

Definition parse (text : string) : option json :=
  match readValue (S (String.length text)) text with
  | Some (v, rest) => if skipWs rest =? "" then Some v else None
  | None => None
  end.

Fixpoint escape (s : string) : string :=
  match s with
  | EmptyString => EmptyString
  | String c r =>
      if Ascii.eqb c "034"%char then String "\"%char (String c (escape r))
      else if Ascii.eqb c "\"%char then String c (String c (escape r))
      else if Ascii.eqb c "010"%char then String "\"%char (String "n"%char (escape r))
      else if Ascii.eqb c "009"%char then String "\"%char (String "t"%char (escape r))
      else if Ascii.eqb c "013"%char then String "\"%char (String "r"%char (escape r))
      else String c (escape r)
  end.

Definition quoted (s : string) : string :=
  String "034"%char (escape s ++ String "034"%char EmptyString).

Definition nl : string := String "010"%char EmptyString.

(** Two-space pretty printing, as [JSON.stringify(value, null, 2)]
    lays values out. *)
Fixpoint print (indent : string) (v : json) : string :=
  match v with
  | JNull => "null"
  | JBool true => "true"
  | JBool false => "false"
  | JNum n => Js.numberToString n
  | JStr s => quoted s
  | JArr [] => "[]"
  | JArr items =>
      "[" ++ nl
      ++ Js.join ("," ++ nl)
           (map (fun e => indent ++ "  " ++ print (indent ++ "  ") e) items)
      ++ nl ++ indent ++ "]"
  | JObj [] => "{}"
  | JObj props =>
      "{" ++ nl
      ++ Js.join ("," ++ nl)
           (map (fun kv => indent ++ "  " ++ quoted (fst kv) ++ ": "
                           ++ print (indent ++ "  ") (snd kv)) props)
      ++ nl ++ indent ++ "}"
  end.

Definition stringify (v : json) : string := print "" v.

#[export] Instance host : Host := {|
  FS := State;
  h_getVar := variable;
  h_exists := fun s p => match lookup s p with Some _ => true | None => false end;
  h_isFile := fun s p => isFileNode (lookup s p);
  h_isDir := fun s p => isDirNode (lookup s p);
  h_readdir := readdir;
  h_find := find;
  h_read := read;
  h_abs := fun s p => {| path_error := ""; path_path := resolve s p |};
  h_cwd := fun s => {| path_error := ""; path_path := workdir s |};
  h_md5 := md5;
  h_mkdir := mkdir;
  h_write := write;
  h_rm := rm;
  h_cliCommand := runTool;
  h_getTime := clock;
  h_toISOString := isoTime;
  fs_join := join;
  fs_ext := ext;
  fs_filename := filename;
  fs_basename := basename;
  fs_dirname := dirname;
  JSON_parse := parse;
  JSON_stringify := stringify
|}.

End Sim.

(* ================================================================== *)
(** * Vocabulary of the specification *)
(* ================================================================== *)

Module Spec.

(** A record with no nested object and no array among its values. *)
Definition isFlat (o : object) : bool :=
  forallb (fun kv => negb (Value.isPlainObject (snd kv))
                     && negb (Value.isArray (snd kv))) o.

(** The record without its discriminant field. *)
Definition withoutTypeCode (o : object) : object :=
  filter (fun kv => negb (fst kv =? "type-code")) o.

(** Every maximal run of characters outside [keep] becomes one
    underscore. *)
Fixpoint collapseRuns (keep : ascii -> bool) (s : string) : string :=
  match s with
  | EmptyString => EmptyString
  | String c rest =>
      if keep c then String c (collapseRuns keep rest)
      else
        match rest with
        | String d _ =>
            if keep d
            then String ReceiptProcessor.underscore (collapseRuns keep rest)
            else collapseRuns keep rest
        | EmptyString => String ReceiptProcessor.underscore EmptyString
        end
  end.

Definition alphanumeric (c : ascii) : bool :=
  Js.isLower c || Js.isUpper c || Js.isDigit c.

(** The group file name as the specification words it: lower-cased,
    non-alphanumeric runs collapsed to a single underscore, no leading
    or trailing underscore. *)
Definition sanitizedBySpec (name : string) : string :=
  ReceiptProcessor.stripEnds (collapseRuns alphanumeric (Js.toLowerCase name)).

(** What [sanitizeFileName] keeps as it is: lower-case letters, digits
    and the hyphen. *)
Definition kept (c : ascii) : bool :=
  Js.isLower c || Js.isDigit c || Ascii.eqb c ReceiptProcessor.hyphen.

Section WithHost.
Context {H : Host}.

Definition groupFilePath (dir receiptType outputFormat : string) : string :=
  fs_join [dir;
           "receipts_" ++ ReceiptProcessor.sanitizeFileName receiptType ++ "."
           ++ (if outputFormat =? "csv" then "csv" else "json")].

(** What goes into the file of a group; the table may throw. *)
Definition groupContent (outputFormat : string) (typeReceipts : list json)
  : Completion string :=
  if outputFormat =? "csv" then ReceiptProcessor.createTotalCsv typeReceipts
  else Normal (JSON_stringify (JArr typeReceipts)).

(** The effects [createSummaryFile] may have: creating the "total"
    folder, error lines, and writing the file of a non-empty group other
    than "general" into [dir] under its derived name. *)
Definition summaryEffect (receiptsByType : ReceiptProcessor.groups)
  (outputPath dir outputFormat : string) (e : Event) : Prop :=
  match e with
  | EvWrite p _ =>
      exists receiptType typeReceipts,
        In (receiptType, typeReceipts) receiptsByType
        /\ typeReceipts <> []
        /\ receiptType <> "general"
        /\ p = groupFilePath dir receiptType outputFormat
  | EvMkdir p => p = fs_join [outputPath; "total"]
  | EvError _ _ => True
  | _ => False
  end.

(** One turn of the loop of [groupReceiptsByType] when nothing throws. *)
Definition groupStep (receiptsByType : ReceiptProcessor.groups)
  (receipt : json) : ReceiptProcessor.groups :=
  match ReceiptProcessor.determineReceiptType receipt with
  | Some receiptType =>
      ReceiptProcessor.addToGroup receiptsByType (Value.toString receiptType)
                                  receipt
  | None => receiptsByType
  end.

(** The groups of a batch; none when the grouping throws. *)
Definition groupsOf (receipts : list json) : ReceiptProcessor.groups :=
  match ReceiptProcessor.groupReceiptsByType receipts with
  | Normal receiptsByType => receiptsByType
  | TypeError => []
  end.

(** The world after the file of a group was written: the write is on
    record, and so is the error line when it failed. *)
Definition afterWrite (w : World) (file content : string) : World :=
  let result := h_write (fs w) file content in
  {| fs := snd result;
     events :=
       (events w
        ++ EvWrite file content
           :: (if Js.nonEmpty (res_error (fst result))
               then [EvError "Failed to save type summary file:"
                             [res_error (fst result)]]
               else []))%list |}.

(** The summary files of a batch, group after group, as the
    specification has them.  An empty group and the group "general" get
    no file.  With overwrite off, a file that exists is left as it is.
    Every other group has its records written, as a table or as a list,
    to the file named after it in [dir]; the file is reported unless the
    write failed.  [summaryTurns groups w w' written] relates the world
    before the first group to the world after the last, and lists the
    files reported. *)
Inductive summaryTurns (dir outputFormat : string) (overwrite : bool)
  : ReceiptProcessor.groups -> World -> World -> list string -> Prop :=
| turns_done (w : World) :
    summaryTurns dir outputFormat overwrite [] w w []
| turns_pass (receiptType : string) (typeReceipts : list json)
    (rest : ReceiptProcessor.groups) (w w' : World) (written : list string) :
    typeReceipts = [] \/ receiptType = "general" ->
    summaryTurns dir outputFormat overwrite rest w w' written ->
    summaryTurns dir outputFormat overwrite
                 ((receiptType, typeReceipts) :: rest) w w' written
| turns_kept (receiptType : string) (typeReceipts : list json)
    (rest : ReceiptProcessor.groups) (w w' : World) (written : list string) :
    typeReceipts <> [] -> receiptType <> "general" ->
    overwrite = false ->
    h_exists (fs w) (groupFilePath dir receiptType outputFormat) = true ->
    summaryTurns dir outputFormat overwrite rest w w' written ->
    summaryTurns dir outputFormat overwrite
                 ((receiptType, typeReceipts) :: rest) w w' written
| turns_written (receiptType : string) (typeReceipts : list json)
    (rest : ReceiptProcessor.groups) (w w' : World) (written : list string)
    (content : string) :
    typeReceipts <> [] -> receiptType <> "general" ->
    overwrite = true
    \/ h_exists (fs w) (groupFilePath dir receiptType outputFormat) = false ->
    groupContent outputFormat typeReceipts = Normal content ->
    summaryTurns dir outputFormat overwrite rest
      (afterWrite w (groupFilePath dir receiptType outputFormat) content)
      w' written ->
    summaryTurns dir outputFormat overwrite
      ((receiptType, typeReceipts) :: rest) w w'
      (if Js.nonEmpty
            (res_error
               (fst (h_write (fs w)
                       (groupFilePath dir receiptType outputFormat) content)))
       then written
       else groupFilePath dir receiptType outputFormat :: written).

(** What the resolver needs from the host, at one state and path: a
    [mkdir] that reports no error has made a directory, and the
    absolute form of a path names the same thing. *)
Definition mkdirCreatesDirectory (s : FS) (p : string) : Prop :=
  Js.nonEmpty (res_error (fst (h_mkdir s p))) = false ->
  h_isDir (snd (h_mkdir s p)) p = true.

Definition absKeepsDirectory (s : FS) (p : string) : Prop :=
  Js.nonEmpty (path_error (h_abs s p)) = false ->
  h_isDir s (path_path (h_abs s p)) = h_isDir s p.

(** [p] was found as the root itself, a file, or as an entry of the
    root's listing that is not a directory. *)
Definition notADirectory (w : World) (root p : string) : Prop :=
  (p = root /\ h_isFile (fs w) root = true)
  \/ exists e : FileInfo,
       In e (dir_files (h_readdir (fs w) root))
       /\ path e = p /\ is_dir e = false.

(** A direct entry of the root's listing, not a directory, that the
    predicate [accepts]. *)
Definition directEntry (w : World) (root : string) (accepts : string -> bool)
  (p : string) : Prop :=
  exists e : FileInfo,
    In e (dir_files (h_readdir (fs w) root))
    /\ path e = p /\ is_dir e = false /\ accepts p = true.

(** The root cannot be enumerated: it is missing, or it is a
    directory whose listing fails. *)
Definition discoveryFails (w : World) (root : string) : Prop :=
  h_exists (fs w) root = false
  \/ (h_exists (fs w) root = true /\ h_isDir (fs w) root = true
      /\ Js.nonEmpty (dir_error (h_readdir (fs w) root)) = true).

(** The root is a directory that lists, and no entry is an accepted
    file. *)
Definition zeroMatches (w : World) (root : string) (accepts : string -> bool)
  : Prop :=
  h_exists (fs w) root = true /\ h_isDir (fs w) root = true
  /\ Js.nonEmpty (dir_error (h_readdir (fs w) root)) = false
  /\ forallb (fun e => is_dir e || negb (accepts (path e)))
             (dir_files (h_readdir (fs w) root)) = true.

(** What the three document scripts' [getDocumentFiles] come to, for
    the extension test [accepts] of the script: the files returned and
    the world afterwards. *)
Definition discoveryOutcome (accepts : string -> bool) (root : string)
  (w : World) : list string * World :=
  if h_exists (fs w) root then
    if h_isDir (fs w) root then
      if Js.nonEmpty (dir_error (h_readdir (fs w) root)) then
        ([], {| fs := fs w;
                events := (events w
                           ++ [EvError "Failed to list directory:"
                                       [dir_error (h_readdir (fs w) root)]])%list |})
      else
        (Js.sort (map path
                    (filter (fun e => negb (is_dir e) && accepts (path e))
                            (dir_files (h_readdir (fs w) root)))), w)
    else if h_isFile (fs w) root && accepts root then ([root], w)
    else ([], w)
  else
    ([], {| fs := fs w;
            events := (events w ++ [EvError "Cannot access:" [root]])%list |}).

(** The fallback locator's second tier: what the search for the
    extractor's default file name under the working directory returns,
    nothing when the search fails. *)
Definition cwdCandidates (s : FS) : list string :=
  let found := h_find s (path_path (h_cwd s)) "text.txt" in
  if Js.nonEmpty (find_error found) then [] else find_files found.

(** Its first tier, in the receipt script: the first entry of the
    staging directory that is a file named "*.txt". *)
Definition stagedCandidate (s : FS) (hashDir tempDir : string)
  : option string :=
  if negb (hashDir =? tempDir) && h_exists s hashDir then
    if Js.nonEmpty (dir_error (h_readdir s hashDir)) then None
    else
      match find (fun entry => Js.endsWith (name entry) ".txt"
                               && negb (is_dir entry))
                 (dir_files (h_readdir s hashDir)) with
      | Some entry => Some (path entry)
      | None => None
      end
  else None.

(** The file the receipt script settles on: the staged candidate when
    there is one and it exists, else the first hit of the search. *)
Definition locate (s : FS) (hashDir tempDir : string) : option string :=
  match stagedCandidate s hashDir tempDir with
  | Some staged =>
      if h_exists s staged then Some staged else hd_error (cwdCandidates s)
  | None => hd_error (cwdCandidates s)
  end.

(** The two error lines of the fallback locator. *)
Definition notCreated (expected : string) : Event :=
  EvError "Text file was not created at expected location:" [expected].

Definition notLocated : Event :=
  EvError "Could not locate extracted text file" [].

(** The world after one more line on the error console. *)
Definition logged (w : World) (msg : string) (args : list string) : World :=
  {| fs := fs w; events := (events w ++ [EvError msg args])%list |}.

End WithHost.

(** Ascending in the order of [Array.prototype.sort]. *)
Definition ascending (l : list string) : Prop :=
  Sorted (fun a b => String.leb a b = true) l.

(** The extension as the receipt script compares it: lower-cased, with
    a leading dot. *)
Definition dotted (extension : string) : string :=
  let e := Js.toLowerCase extension in
  if Js.startsWithChar "."%char e then e else "." ++ e.

(** The receipts of all groups, group after group. *)
Definition grouped (g : ReceiptProcessor.groups) : list json :=
  concat (map snd g).

(** The group key of a receipt: the string form of its type code. *)
Definition typeKey (receipt : json) : option string :=
  option_map Value.toString (ReceiptProcessor.determineReceiptType receipt).

Definition hasType (receipt : json) : bool :=
  match ReceiptProcessor.determineReceiptType receipt with
  | Some _ => true
  | None => false
  end.

(** The names every object inherits from [Object.prototype].  A lookup
    [o[k]] under such a name finds the inherited member where the
    scripts expect their own entry or nothing. *)
Definition inheritedNames : list string := Value.inheritedNames.

Definition ownName (k : string) : bool := negb (Value.inherited k).

(** The calls of the extraction tool among the events of a run. *)
Definition isExtractorRun (e : Event) : bool :=
  match e with
  | EvExec command _ _ => command =? "doc-to-text"
  | _ => false
  end.

Definition extractorRuns (evs : list Event) : list Event :=
  filter isExtractorRun evs.

Section Staging.
Context {H : Host}.

(** The fingerprinted staging directory of a receipt, and the extracted
    text in it. *)
Definition stagingDirectory (documentFile outputFile : string) (w : World)
  : string :=
  fs_join [fs_dirname outputFile;
           fst (ReceiptProcessor.calculateMd5 documentFile w)].

Definition stagedText (documentFile outputFile : string) (w : World) : string :=
  fs_join [stagingDirectory documentFile outputFile w;
           fs_basename documentFile ++ ".extracted.txt"].

(** A computation that does not run the extractor. *)
Definition noExtractorRun {A : Type} (c : M A) : Prop :=
  forall w, extractorRuns (events (snd (c w))) = extractorRuns (events w).

End Staging.

(** Every character of the string satisfies [p]. *)
Fixpoint allChars (p : ascii -> bool) (s : string) : bool :=
  match s with
  | EmptyString => true
  | String c r => p c && allChars p r
  end.

(** No two underscores in a row. *)
Fixpoint noDoubleUnderscore (s : string) : bool :=
  match s with
  | String c (String d _ as r) =>
      negb (Ascii.eqb c ReceiptProcessor.underscore
            && Ascii.eqb d ReceiptProcessor.underscore)
      && noDoubleUnderscore r
  | _ => true
  end.

Fixpoint endsWithChar (c : ascii) (s : string) : bool :=
  match s with
  | EmptyString => false
  | String d EmptyString => Ascii.eqb c d
  | String _ r => endsWithChar c r
  end.

Definition notBacktick (c : ascii) : bool := negb (Ascii.eqb c "`").

Definition notTypeCode (k : string) : bool := negb (k =? "type-code").

(** Every key of the object satisfies [ok]. *)
Definition allKeys (ok : string -> bool) (o : object) : Prop :=
  Forall (fun k => ok k = true) (Value.keys o).

(** The object satisfies [holds] and its keys satisfy [ok]. *)
Definition keeps (ok : string -> bool) (holds : object -> Prop) (o : object)
  : Prop :=
  holds o /\ allKeys ok o.

(** A key made of digits only.  An object lists its array indices
    first, in ascending order, whenever they were set; the model keeps
    every key where it was first set. *)
Definition indexLike (k : string) : bool :=
  Js.nonEmpty k && allChars Js.isDigit k.

(** A key that is the object's own and is listed where it was set. *)
Definition ordinaryKey (k : string) : bool :=
  ownName k && negb (indexLike k).

(** Every key of the value, at any depth, satisfies [ok]. *)
Fixpoint plainBy (ok : string -> bool) (v : json) : bool :=
  match v with
  | JObj props => forallb (fun kv => ok (fst kv) && plainBy ok (snd kv)) props
  | JArr items => forallb (plainBy ok) items
  | _ => true
  end.


(** A value all of whose keys are ordinary. *)
Definition plain (v : json) : bool := plainBy ordinaryKey v.

(** The flattened form of a record that flattens. *)
Definition flattened (v : json) : object :=
  match ReceiptProcessor.flattenObject v "" with
  | Normal flat => flat
  | TypeError => []
  end.

(** A record that goes into a table: it flattens, and what it flattens
    to can be printed. *)
Definition tabulates (v : json) : Prop :=
  ReceiptProcessor.flattenObject v "" = Normal (flattened v)
  /\ forall k x, Value.get (flattened v) k = Some x ->
                 Value.printable x = true.


(** A receipt for which the model of the summary is exact: it is not
    null, and its keys and the text of its type code are ordinary. *)
Definition ordinary (receipt : json) : bool :=
  match receipt with
  | JNull => false
  | _ =>
      plain receipt
      && match typeKey receipt with
         | Some k => ordinaryKey k
         | None => true
         end
  end.

(** A line on the error console. *)
Definition isErrorLine (e : Event) : bool :=
  match e with EvError _ _ => true | _ => false end.

(** What the copies of [checkCliTool] decide, from the result of the
    run with "-h". *)
Definition toolAvailable (result : CommandResult) : bool :=
  let err := cmd_error result in
  negb (Js.nonEmpty err)
  || (negb (Js.includes err "not in the allowed CLI commands list")
      && negb (Js.includes err "command not found")
      && negb (Js.includes err "No such file or directory")
      && (Js.nonEmpty (stdout result) || Js.nonEmpty (stderr result))).

Section Outcomes.
Context {H : Host}.

(** The checks of a run before its loop, one after the other, as the
    specification names them.  Each check sees the world the earlier
    ones left. *)

(** Input validation: an input path is given, and it exists. *)
Definition inputValid (w : World) : bool :=
  Js.nonEmpty (h_getVar (fs w) "input")
  && h_exists (fs w) (h_getVar (fs w) "input").

(** Output-path validation; without an output path there is nothing to
    validate. *)
Definition outputValidation : M Validation :=
  fun w =>
    let output := h_getVar (fs w) "output" in
    if Js.nonEmpty output
    then validateOutputPath output (h_isDir (fs w) (h_getVar (fs w) "input")) w
    else (Valid output, w).

Definition accepted (v : Validation) : bool :=
  match v with
  | Valid _ => true
  | Invalid _ => false
  end.

(** The tool-availability check: the tool is run with "-h". *)
Definition probe (tool : string) : M CommandResult :=
  cliCommand tool ["-h"] {| timeout := 10; interactive := false |}.

(** The text extraction script also wants a template when the OCR tool
    is "llm-caller". *)
Definition templateGiven (w : World) : bool :=
  negb ((orDefault (h_getVar (fs w) "ocr") "interactive" =? "llm-caller")
        && negb (Js.nonEmpty (h_getVar (fs w) "ocr_llm_template"))).



(** The run of the contract review script reaches its loop. *)
Definition contractSetupPasses (w : World) : bool :=
  inputValid w
  && templateGiven w
  && (let validated := outputValidation w in
      accepted (fst validated)
      && (let extractor := probe "doc-to-text" (snd validated) in
          toolAvailable (fst extractor)
          && (let caller := probe "llm-caller" (snd extractor) in
              toolAvailable (fst caller)
              && negb (Nat.eqb
                         (List.length
                            (fst (ContractReview.getDocumentFiles
                                    (h_getVar (fs w) "input")
                                    ContractReview.documentExtensions
                                    (snd caller))))
                         0)))).

(** The review step of the contract script went through from the world
    [before], with the text at [textFile]: the text was read and is not
    blank; the review tool was run on it, reported no error and did not
    answer with a blank; its answer was written to the review file.
    [after] is the world that leaves. *)
Definition reviewed (reviewOutputFile contractLlmTemplate textFile : string)
  (before after : World) : Prop :=
  let text := h_read (fs before) textFile in
  let llmArgs := ["call"; contractLlmTemplate; "--var";
                  "text:text:" ++ file_content text] in
  let options := {| timeout := 600; interactive := false |} in
  let call := h_cliCommand (fs before) "llm-caller" llmArgs options in
  let review := stdout (fst call) in
  let written := h_write (snd call) reviewOutputFile review in
  Js.nonEmpty (file_error text) = false
  /\ Js.nonBlank (file_content text) = true
  /\ Js.nonEmpty (cmd_error (fst call)) = false
  /\ Js.nonBlank review = true
  /\ Js.nonEmpty (res_error (fst written)) = false
  /\ after
     = {| fs := snd written;
          events :=
            (events before
             ++ [EvExec "llm-caller" llmArgs options;
                 EvWrite reviewOutputFile review])%list |}.


(** A run that came to nothing: the result is [no], the file system is
    untouched, and at most one line went to the error console. *)
Definition refusedAs {A : Type} (no : A) (w : World) (run : A * World)
  : Prop :=
  run = (no, w)
  \/ exists msg args, run = (no, logged w msg args).

(** The same for a script that returns false. *)
Definition refused (w : World) (run : bool * World) : Prop :=
  refusedAs false w run.

(** The record a run returned is on disk: the last thing the run did
    was to write it to the output file, or the output file holds it. *)
Definition recordOnDisk (outputFile : string) (run : json * World) : Prop :=
  last (events (snd run)) (EvRm "")
  = EvWrite outputFile (JSON_stringify (fst run))
  \/ (h_exists (fs (snd run)) outputFile = true
      /\ file_error (h_read (fs (snd run)) outputFile) = ""
      /\ JSON_parse (file_content (h_read (fs (snd run)) outputFile))
         = Some (fst run)).

End Outcomes.

End Spec.

(* ================================================================== *)
(** * Concrete machines *)
(* ================================================================== *)

Module Scenario.

Definition sampleRecord : object :=
  [("type-code", JStr "invoice"); ("total", JNum 1250);
   ("vendor", JStr "ACME"); ("paid", JBool true); ("note", JNull)].

(** Two flat records with a key that every object also inherits. *)
Definition shadowedRecord : object :=
  [("type-code", JStr "invoice"); ("hasOwnProperty", JNum 1);
   ("total", JNum 7)].

Definition protoRecord : object :=
  [("type-code", JStr "invoice"); ("__proto__", JNum 1); ("total", JNum 7)].

Definition machine (nodes : list (string * Sim.Node))
  (variables : list (string * string)) (tools : list Sim.Tool)
  (denied unlistable : list string) : Sim.State :=
  {| Sim.nodes := nodes; Sim.workdir := "/work"; Sim.variables := variables;
     Sim.tools := tools; Sim.denied := denied; Sim.unlistable := unlistable;
     Sim.clock := 1700000000000;
     Sim.isoTime := "2023-11-14T22:13:20.000Z" |}.

Definition start (s : Sim.State) : @World Sim.host :=
  @Build_World Sim.host s [].

Definition blank : Sim.State :=
  machine [("/", Sim.Dir); ("/work", Sim.Dir)] [] [] [] [].

(** An output folder whose "total" subfolder cannot be created. *)
Definition lockedTotal : Sim.State :=
  machine [("/", Sim.Dir); ("/work", Sim.Dir); ("/out", Sim.Dir)] [] []
          ["/out/total"] [].

Definition succeeded (out : string) : CommandResult :=
  {| stdout := out; stderr := ""; cmd_error := "" |}.

(** A tool that answers its help request and otherwise does [run]. *)
Definition tool (name : string)
  (run : list string -> CommandResult * list (string * string)) : Sim.Tool :=
  {| Sim.tool_name := name; Sim.tool_help := succeeded ("usage: " ++ name);
     Sim.tool_run := run |}.

(** A folder with documents, a file without extension, videos, and a
    subfolder that holds more of both. *)
Definition libraryNodes : list (string * Sim.Node) :=
  [("/", Sim.Dir); ("/work", Sim.Dir); ("/in", Sim.Dir);
   ("/in/b.PDF", Sim.File "second");
   ("/in/a.txt", Sim.File "first");
   ("/in/notes", Sim.File "no extension");
   ("/in/movie.mp4", Sim.File "video");
   ("/in/sub", Sim.Dir);
   ("/in/sub/deep.pdf", Sim.File "nested");
   ("/in/sub/clip.mp4", Sim.File "nested video")].

Definition library : Sim.State := machine libraryNodes [] [] [] [].

(** Three machines for discovery from "/in": the folder cannot be
    listed; the folder lists but holds no document; there is no such
    folder.  The extractor is installed on each. *)
Definition extractorOnly : list Sim.Tool :=
  [tool "doc-to-text" (fun _ => (succeeded "", []))].

Definition unlistableInput : Sim.State :=
  machine [("/", Sim.Dir); ("/work", Sim.Dir); ("/in", Sim.Dir);
           ("/in/a.txt", Sim.File "first")]
          [("input", "/in")] extractorOnly [] ["/in"].

Definition noDocuments : Sim.State :=
  machine [("/", Sim.Dir); ("/work", Sim.Dir); ("/in", Sim.Dir);
           ("/in/notes", Sim.File "no extension");
           ("/in/sub", Sim.Dir)]
          [("input", "/in")] extractorOnly [] [].

Definition missingInput : Sim.State :=
  machine [("/", Sim.Dir); ("/work", Sim.Dir)]
          [("input", "/in")] extractorOnly [] [].

(** Two documents and tools that are installed but fail on every
    document they are given. *)
Definition broken (name : string) : Sim.Tool :=
  tool name (fun _ => ({| stdout := ""; stderr := "cannot process";
                          cmd_error := "exit status 1" |}, [])).

Definition everyFileFails : Sim.State :=
  machine [("/", Sim.Dir); ("/work", Sim.Dir); ("/in", Sim.Dir);
           ("/in/a.pdf", Sim.File "first");
           ("/in/b.PDF", Sim.File "second")]
          [("input", "/in"); ("ocr", "surya_ocr")]
          [broken "doc-to-text"; broken "llm-caller"] [] [].

(** An extractor that ignores the requested output path and leaves its
    text in a folder of its own under the working directory. *)
Definition strayExtractor : Sim.Tool :=
  tool "doc-to-text"
       (fun _ => (succeeded "", [("/work/cache/text.txt", "CONTRACT TEXT")])).

Definition reviewer : Sim.Tool :=
  tool "llm-caller" (fun _ => (succeeded "The contract looks fine.", [])).

Definition strayOutput : Sim.State :=
  machine [("/", Sim.Dir); ("/work", Sim.Dir); ("/work/cache", Sim.Dir);
           ("/in", Sim.Dir); ("/in/c.pdf", Sim.File "scan");
           ("/out", Sim.Dir)]
          [("input", "/in/c.pdf"); ("output", "/out"); ("ocr", "surya_ocr")]
          [strayExtractor; reviewer] [] [].

Definition invoice : json :=
  JObj [("type-code", JStr "invoice"); ("total", JNum 1250)].

(** The argument that follows [flag]. *)
Fixpoint argAfter (flag : string) (args : list string) : string :=
  match args with
  | a :: rest =>
      if a =? flag then hd "" rest else argAfter flag rest
  | [] => ""
  end.

(** An extractor that writes its text where it is told to, and a
    structuring tool that answers with a fenced record. *)
Definition obedientExtractor : Sim.Tool :=
  tool "doc-to-text"
       (fun args => (succeeded "", [(argAfter "-o" args, "TAXI 12.50")])).

Definition taxi : json :=
  JObj [("type-code", JStr "taxi"); ("total", JNum 1250)].

Definition structurer : Sim.Tool :=
  tool "llm-caller"
       (fun _ => (succeeded ("Here is the record: ```json" ++ Sim.nl
                             ++ Sim.stringify taxi ++ Sim.nl ++ "```"), [])).

(** A batch that was run before: the outputs of three receipts are
    already in "/out".  The first holds a record, the second is not
    JSON, the third holds the number zero. *)
Definition resumedNodes : list (string * Sim.Node) :=
  [("/", Sim.Dir); ("/work", Sim.Dir); ("/in", Sim.Dir);
   ("/in/r1.png", Sim.File "image one");
   ("/in/r2.png", Sim.File "image two");
   ("/in/r3.png", Sim.File "image three");
   ("/out", Sim.Dir);
   ("/out/r1.receipt.json", Sim.File (Sim.stringify invoice));
   ("/out/r2.receipt.json", Sim.File "not json");
   ("/out/r3.receipt.json", Sim.File "0")].

Definition resumedBatch : Sim.State :=
  machine resumedNodes [("input", "/in"); ("output", "/out")]
          [obedientExtractor; structurer] [] [].

Definition resumedSetup : ReceiptProcessor.Setup :=
  {| ReceiptProcessor.config :=
       {| ReceiptProcessor.inputPath := "/in";
          ReceiptProcessor.outputPath := "/out";
          ReceiptProcessor.outputFormat := "json";
          ReceiptProcessor.overwrite := false;
          ReceiptProcessor.verbose := false |};
     ReceiptProcessor.resolvedOutput := "/out";
     ReceiptProcessor.isBatchProcessing := true;
     ReceiptProcessor.documentFiles :=
       ["/in/r1.png"; "/in/r2.png"; "/in/r3.png"] |}.



(** One receipt whose output and whose extracted text are both there
    from an earlier run, processed again with overwrite switched on. *)
Definition rerunNodes : list (string * Sim.Node) :=
  [("/", Sim.Dir); ("/work", Sim.Dir); ("/in", Sim.Dir);
   ("/in/r1.png", Sim.File "image one");
   ("/out", Sim.Dir);
   ("/out/h9", Sim.Dir);
   ("/out/h9/r1.extracted.txt", Sim.File "INVOICE 12.50");
   ("/out/r1.receipt.json", Sim.File (Sim.stringify invoice))].

Definition rerunWithOverwrite : Sim.State :=
  machine rerunNodes
          [("input", "/in"); ("output", "/out"); ("overwrite", "true")]
          [obedientExtractor; structurer] [] [].

(** An encoder that shows its banner when run without arguments and
    otherwise writes the file named by its last argument. *)
Definition encoder : Sim.Tool :=
  tool "ffmpeg"
       (fun args =>
          match args with
          | [] => ({| stdout := ""; stderr := "ffmpeg version 6.0";
                      cmd_error := "exit status 1" |}, [])
          | _ => (succeeded "", [(last args "", "AUDIO")])
          end).

Definition studio : Sim.State :=
  machine libraryNodes [("input", "/in"); ("format", "ogg"); ("quality", "high")]
          [encoder] [] [].

(** The text extraction script in a folder, with no output path and
    overwrite off. *)
Definition inPlace : TextExtraction.Setup :=
  {| TextExtraction.config :=
       {| TextExtraction.inputPath := "/in"; TextExtraction.outputPath := "";
          TextExtraction.ocrTool := "interactive";
          TextExtraction.ocrLlmTemplate := "";
          TextExtraction.contentType := "";
          TextExtraction.overwrite := false;
          TextExtraction.verbose := false |};
     TextExtraction.resolvedOutput := "";
     TextExtraction.isBatchProcessing := true;
     TextExtraction.documentFiles := ["/in/a.txt"] |}.

(** A receipt with a nested object, a list, and a text that needs
    quoting. *)
Definition lunchRecord : object :=
  [("type-code", JStr "meal");
   ("vendor", JStr "Chez Max, Lyon");
   ("fields", JObj [("total", JNum 4200); ("type-code", JStr "meal")]);
   ("tax", JObj [("rate", JNum 10); ("amount", JNum 420)]);
   ("items", JArr [JStr "menu"; JStr "coffee"])].

Definition lunch : json := JObj lunchRecord.

End Scenario.

(* ================================================================== *)
(** * Proof tools *)
(* ================================================================== *)

(** Opens the effect primitives up to the host's functions. *)
Ltac unfold_effects :=
  unfold getVar, fs_exists, fs_isFile, fs_isDir, fs_readdir, fs_find, fs_read,
    fs_abs, fs_cwd, fs_md5, Date_getTime, Date_toISOString, fs_mkdir, fs_write,
    fs_rm, cliCommand, console_error in *;
  unfold query, effect, record in *;
  unfold bind, ret in *;
  cbn beta iota in *.

(** Projections of the world and list appends, after a step. *)
Ltac tidy :=
  cbn [negb andb orb fst snd fs events];
  rewrite <- ?app_assoc; cbn [app].

(** The tail of [structureReceipt], from the call of the structuring
    tool on: every way out is null, or the write of the record. *)
Ltac structuring_tail :=
  match goal with |- context [h_cliCommand ?s ?c ?a ?o] =>
    destruct (h_cliCommand s c a o) end;
  tidy;
  match goal with |- context [Js.nonEmpty (cmd_error ?r)] =>
    destruct (Js.nonEmpty (cmd_error r)) end;
  [ match goal with |- context [showLines ?t ?o ?n ?w0] =>
      destruct (showLines t o n w0) as [[] ?] end;
    cbn [fst]; discriminate |];
  match goal with |- context [Js.nonBlank (stdout ?r)] =>
    destruct (Js.nonBlank (stdout r)) end;
  tidy; [|discriminate];
  match goal with |- context [ReceiptProcessor.parseExtractedData ?o ?n ?w0] =>
    destruct (ReceiptProcessor.parseExtractedData o n w0) as [? ?] end;
  match goal with |- context [negb (Value.truthy ?d)] =>
    destruct (Value.truthy d) end;
  tidy; [|discriminate];
  match goal with |- context [h_write ?s ?p ?c] =>
    destruct (h_write s p c) end;
  tidy;
  match goal with |- context [Js.nonEmpty (res_error ?r)] =>
    destruct (Js.nonEmpty (res_error r)) end;
  tidy; [discriminate|];
  intros _; left; apply last_last.



(* ================================================================== *)
(** * Theorems *)
(* ================================================================== *)

#[local] Existing Instance Sim.host.

(* ================================================================== *)
(** * Completions *)
(* ================================================================== *)

Section CompletionFacts.
Context {A B : Type}.

Lemma fold_TypeError (body : A -> B -> Completion A) (l : list B) :
  fold_left (fun acc x => andThen acc (fun a => body a x)) l TypeError
  = TypeError.
Proof. induction l as [|x l IH]; simpl; [reflexivity|exact IH]. Qed.

Lemma foldC_cons (body : A -> B -> Completion A) (x : B) (l : list B)
  (start : A) :
  foldC body (x :: l) start = andThen (body start x) (foldC body l).
Proof.
  unfold foldC. simpl. destruct (body start x); simpl; [reflexivity|].
  apply fold_TypeError.
Qed.

Lemma foldC_app (body : A -> B -> Completion A) (l l' : list B) (start : A) :
  foldC body (l ++ l') start = andThen (foldC body l start) (foldC body l').
Proof.
  revert start. induction l as [|x l IH]; intros start; [reflexivity|].
  cbn [app]. rewrite !foldC_cons. destruct (body start x); simpl; auto.
Qed.

(** A loop whose body never throws is the plain fold. *)
Lemma foldC_total (body : A -> B -> Completion A) (step : A -> B -> A)
  (l : list B) :
  (forall a x, In x l -> body a x = Normal (step a x)) ->
  forall start, foldC body l start = Normal (fold_left step l start).
Proof.
  induction l as [|x l IH]; intros Hbody start; [reflexivity|].
  rewrite foldC_cons, Hbody by (now left). simpl.
  apply IH. intros a y Hy. apply Hbody. now right.
Qed.

(** A [map] whose function never throws. *)
Lemma mapC_total (f : A -> Completion B) (g : A -> B) (l : list A) :
  (forall x, In x l -> f x = Normal (g x)) -> mapC f l = Normal (map g l).
Proof.
  induction l as [|x l IH]; intros Hf; [reflexivity|].
  cbn [mapC map]. rewrite Hf by (now left). cbn [andThen].
  rewrite IH; [reflexivity|]. intros y Hy. apply Hf. now right.
Qed.

End CompletionFacts.

(* ================================================================== *)
(** * Flattening (receipt processor) *)
(* ================================================================== *)

Section FlattenFacts.
Import ReceiptProcessor.

Lemma set_fresh (o : object) (k : string) (v : json) :
  ~ In k (Value.keys o) -> Value.set o k v = (o ++ [(k, v)])%list.
Proof.
  induction o as [|[k' v'] o IH]; simpl; intros Hk.
  - reflexivity.
  - destruct (String.eqb_spec k' k) as [->|Hne].
    + exfalso. apply Hk. now left.
    + rewrite IH; [reflexivity|]. intros Hin. apply Hk. now right.
Qed.

Lemma hasKey_In (o : object) (k : string) :
  Value.hasKey o k = true <-> In k (Value.keys o).
Proof.
  unfold Value.hasKey, Value.keys. rewrite existsb_exists, in_map_iff.
  split; intros [kv [H1 H2]]; exists kv.
  - apply String.eqb_eq in H2. now split.
  - split; [assumption|]. now apply String.eqb_eq.
Qed.

Lemma hasKey_false (o : object) (k : string) :
  Value.hasKey o k = false <-> ~ In k (Value.keys o).
Proof.
  rewrite <- hasKey_In. destruct (Value.hasKey o k); split; intros H;
    try discriminate; try reflexivity; try (now exfalso; apply H).
Qed.

Lemma flattenStep_flat (flatten : json -> string -> Completion object)
  (result : object) (k : string) (v : json) :
  Value.isPlainObject v = false -> Value.isArray v = false ->
  flattenStep flatten "" result (k, v)
  = Normal (if k =? "type-code" then result else assign result k v).
Proof.
  intros Hobj Harr. unfold flattenStep. simpl.
  destruct (k =? "type-code"); [reflexivity|].
  destruct v; simpl in *; try reflexivity; discriminate.
Qed.

Lemma keys_app (a b : object) :
  Value.keys (a ++ b)%list = (Value.keys a ++ Value.keys b)%list.
Proof. unfold Value.keys. apply map_app. Qed.

Lemma flatten_flat_acc (flatten : json -> string -> Completion object)
  (o : object) :
  forall acc : object,
    Spec.isFlat o = true ->
    NoDup (Value.keys o) ->
    ~ In "__proto__" (Value.keys o) ->
    (forall k, In k (Value.keys o) -> ~ In k (Value.keys acc)) ->
    foldC (flattenStep flatten "") o acc
    = Normal (acc ++ Spec.withoutTypeCode o)%list.
Proof.
  induction o as [|[k v] o IH]; intros acc Hflat Hnd Hproto Hdisj.
  - cbn. now rewrite app_nil_r.
  - simpl in Hflat. apply andb_prop in Hflat as [Hv Hflat].
    apply andb_prop in Hv as [Hobj Harr].
    apply negb_true_iff in Hobj, Harr.
    inversion Hnd as [|? ? Hk Hnd']; subst.
    assert (Hproto' : ~ In "__proto__" (Value.keys o))
      by (intros Hin; apply Hproto; now right).
    rewrite foldC_cons, flattenStep_flat by assumption.
    cbn [andThen Spec.withoutTypeCode filter fst].
    destruct (String.eqb_spec k "type-code") as [->|Hne]; cbn [negb].
    + apply IH; try assumption.
      intros k' Hk'. apply Hdisj. now right.
    + unfold assign.
      destruct (String.eqb_spec k "__proto__") as [->|Hnp];
        [exfalso; apply Hproto; now left|].
      rewrite set_fresh by (apply Hdisj; now left).
      rewrite IH; try assumption.
      * now rewrite <- app_assoc.
      * intros k' Hk'. rewrite keys_app, in_app_iff. simpl.
        intros [Hin|[<-|[]]].
        -- revert Hin. apply Hdisj. now right.
        -- now apply Hk.
Qed.

Lemma withoutTypeCode_flat (o : object) :
  Spec.isFlat o = true -> Spec.isFlat (Spec.withoutTypeCode o) = true.
Proof.
  unfold Spec.isFlat, Spec.withoutTypeCode. rewrite !forallb_forall.
  intros Hall kv Hin. apply filter_In in Hin as [Hin _]. now apply Hall.
Qed.

Lemma withoutTypeCode_keys (o : object) (k : string) :
  In k (Value.keys (Spec.withoutTypeCode o)) -> In k (Value.keys o).
Proof.
  unfold Value.keys, Spec.withoutTypeCode. rewrite !in_map_iff.
  intros [kv [Heq Hin]]. apply filter_In in Hin as [Hin _]. now exists kv.
Qed.

Lemma withoutTypeCode_NoDup (o : object) :
  NoDup (Value.keys o) -> NoDup (Value.keys (Spec.withoutTypeCode o)).
Proof.
  induction o as [|[k v] o IH]; simpl; intros Hnd; [constructor|].
  inversion Hnd as [|? ? Hk Hnd']; subst.
  destruct (negb (k =? "type-code")); simpl; [|now apply IH].
  constructor; [|now apply IH].
  intros Hin. apply Hk. now apply withoutTypeCode_keys.
Qed.

Lemma withoutTypeCode_idem (o : object) :
  Spec.withoutTypeCode (Spec.withoutTypeCode o) = Spec.withoutTypeCode o.
Proof.
  unfold Spec.withoutTypeCode.
  induction o as [|[k v] o IH]; simpl; [reflexivity|].
  destruct (negb (k =? "type-code")) eqn:E; simpl; [rewrite E, IH|]; auto.
Qed.

Lemma withoutTypeCode_get (o : object) :
  Value.get (Spec.withoutTypeCode o) "type-code" = None.
Proof.
  induction o as [|[k v] o IH]; simpl; [reflexivity|].
  destruct (String.eqb_spec k "type-code") as [->|Hne]; simpl; [exact IH|].
  apply String.eqb_neq in Hne. now rewrite Hne.
Qed.

Lemma flattenObject_flat (o : object) :
  NoDup (Value.keys o) ->
  Spec.isFlat o = true ->
  Value.hasKey o "hasOwnProperty" = false ->
  Value.hasKey o "__proto__" = false ->
  flattenObject (JObj o) "" = Normal (Spec.withoutTypeCode o).
Proof.
  intros Hnd Hflat Hown Hproto. cbn [flattenObject].
  unfold hasOwnPropertyThrows. rewrite Hown.
  rewrite (flatten_flat_acc flattenObject o []); auto.
  now apply hasKey_false.
Qed.

(** C9.  Flattening a record that is already flat (no nested object and
    no array among its values; its keys pairwise distinct, as in every
    object) and that has no key "hasOwnProperty" and no key "__proto__"
    returns the same record, in the same order, without the "type-code"
    field; so flattening the result again changes nothing. *)
Theorem flattenObject_flat_record (o : object) :
  NoDup (Value.keys o) ->
  Spec.isFlat o = true ->
  Value.hasKey o "hasOwnProperty" = false ->
  Value.hasKey o "__proto__" = false ->
  exists flat,
    flattenObject (JObj o) "" = Normal flat
    /\ flat = Spec.withoutTypeCode o
    /\ Value.get flat "type-code" = None
    /\ flattenObject (JObj flat) "" = Normal flat.
Proof.
  intros Hnd Hflat Hown Hproto.
  exists (Spec.withoutTypeCode o). split; [|split; [|split]].
  - now apply flattenObject_flat.
  - reflexivity.
  - apply withoutTypeCode_get.
  - rewrite flattenObject_flat.
    + now rewrite withoutTypeCode_idem.
    + now apply withoutTypeCode_NoDup.
    + now apply withoutTypeCode_flat.
    + apply hasKey_false. intros Hin.
      apply withoutTypeCode_keys in Hin. revert Hin. now apply hasKey_false.
    + apply hasKey_false. intros Hin.
      apply withoutTypeCode_keys in Hin. revert Hin. now apply hasKey_false.
Qed.

Lemma flattenObject_flat_record_witness :
  exists flat,
    flattenObject (JObj Scenario.sampleRecord) "" = Normal flat
    /\ flat = Spec.withoutTypeCode Scenario.sampleRecord
    /\ Value.get flat "type-code" = None
    /\ flattenObject (JObj flat) "" = Normal flat.
Proof.
  apply (flattenObject_flat_record Scenario.sampleRecord).
  - repeat constructor; simpl; intuition discriminate.
  - reflexivity.
  - reflexivity.
  - reflexivity.
Defined.

(** C9, as the specification words it, fails on two flat records: with
    a key "hasOwnProperty" the call [obj.hasOwnProperty(key)] finds that
    value and throws; a key "__proto__" is assigned to the setter every
    object inherits and is missing from the result. *)
Lemma flattenObject_flat_record_counterexample :
  (NoDup (Value.keys Scenario.shadowedRecord)
   /\ Spec.isFlat Scenario.shadowedRecord = true
   /\ flattenObject (JObj Scenario.shadowedRecord) "" = TypeError)
  /\ (NoDup (Value.keys Scenario.protoRecord)
      /\ Spec.isFlat Scenario.protoRecord = true
      /\ flattenObject (JObj Scenario.protoRecord) ""
         = Normal [("total", JNum 7)]
      /\ Spec.withoutTypeCode Scenario.protoRecord
         = [("__proto__", JNum 1); ("total", JNum 7)]).
Proof.
  repeat split; try reflexivity;
    repeat constructor; simpl; intuition discriminate.
Qed.

End FlattenFacts.

(* ================================================================== *)
(** * Summary file names (receipt processor) *)
(* ================================================================== *)

Section SanitizeFacts.
Import ReceiptProcessor.

Lemma replaceInvalid_char (c : ascii) :
  if Spec.kept c
  then (if nameChar c then c else underscore) = c
       /\ Ascii.eqb c underscore = false
  else (if nameChar c then c else underscore) = underscore.
Proof.
  destruct c as [[] [] [] [] [] [] [] []]; vm_compute; auto.
Qed.

Lemma collapse_replace (s : string) :
  collapseUnderscores (replaceInvalid s) = Spec.collapseRuns Spec.kept s.
Proof.
  unfold replaceInvalid.
  induction s as [|c s IH]; [reflexivity|].
  cbn [Js.mapS Spec.collapseRuns collapseUnderscores].
  pose proof (replaceInvalid_char c) as Hc.
  destruct s as [|d s'].
  - cbn [Js.mapS]. destruct (Spec.kept c).
    + destruct Hc as [-> _]. reflexivity.
    + rewrite Hc. reflexivity.
  - cbn [Js.mapS] in *.
    pose proof (replaceInvalid_char d) as Hd.
    destruct (Spec.kept c).
    + destruct Hc as [-> Hc]. rewrite Hc. cbn [andb]. now rewrite IH.
    + rewrite Hc. rewrite Ascii.eqb_refl. cbn [andb].
      destruct (Spec.kept d).
      * destruct Hd as [Hd1 Hd2]. rewrite Hd1 in *. rewrite Hd2.
        now rewrite IH.
      * rewrite Hd in *. rewrite Ascii.eqb_refl. exact IH.
Qed.

Lemma sanitizeFileName_runs (name : string) :
  sanitizeFileName name
  = stripEnds (Spec.collapseRuns Spec.kept
                 (Js.toLowerCase (orDefault name "unknown"))).
Proof. unfold sanitizeFileName. now rewrite collapse_replace. Qed.

End SanitizeFacts.

(* ================================================================== *)
(** * Summary files: names and places *)
(* ================================================================== *)

Section SummaryFacts.
Context {H : Host}.
Import ReceiptProcessor.

Lemma writeGroups_effects (receiptsByType : groups) :
  forall (all : groups) (outputPath dir outputFormat : string) (overwrite : bool)
         (results : list string) (w : World),
    incl receiptsByType all ->
    exists added,
      events (snd (writeGroups receiptsByType dir outputFormat overwrite results w))
      = (events w ++ added)%list
      /\ Forall (Spec.summaryEffect all outputPath dir outputFormat) added.
Proof.
  induction receiptsByType as [|[receiptType typeReceipts] rest IH];
    intros all outputPath dir outputFormat overwrite results w Hincl.
  - exists []. simpl. now rewrite app_nil_r.
  - assert (Hrest : incl rest all) by (intros x Hx; apply Hincl; now right).
    cbn [writeGroups].
    destruct ((0 <? List.length typeReceipts)%nat) eqn:Hlen; cbn [andb];
      [|now apply IH].
    destruct (receiptType =? "general") eqn:Hgen; cbn [negb]; [now apply IH|].
    unfold_effects. cbn [fst snd fs events].
    match goal with |- context [negb overwrite && ?e] =>
      destruct (negb overwrite && e) end; [now apply IH|].
    fold (Spec.groupContent outputFormat typeReceipts).
    destruct (Spec.groupContent outputFormat typeReceipts) as [content|];
      [|exists []; cbn [snd]; rewrite app_nil_r; now split].
    match goal with |- context [h_write ?s ?p ?c] =>
      destruct (h_write s p c) as [writeResult s'] eqn:Hwrite end.
    assert (Hw : Spec.summaryEffect all outputPath dir outputFormat
                   (EvWrite (Spec.groupFilePath dir receiptType outputFormat)
                      content)).
    { exists receiptType, typeReceipts. repeat split.
      - apply Hincl. now left.
      - intros ->. discriminate.
      - now apply String.eqb_neq. }
    cbn [fst snd fs events].
    destruct (Js.nonEmpty (res_error writeResult)).
    + match goal with |- context [writeGroups rest ?d ?f ?o ?r ?w'] =>
        destruct (IH all outputPath d f o r w' Hrest) as [added [Hev Hall]] end.
      eexists. split.
      * rewrite Hev. cbn [events]. rewrite <- !app_assoc. reflexivity.
      * constructor; [exact Hw|]. constructor; [exact I|]. exact Hall.
    + match goal with |- context [writeGroups rest ?d ?f ?o ?r ?w'] =>
        destruct (IH all outputPath d f o r w' Hrest) as [added [Hev Hall]] end.
      eexists. split.
      * rewrite Hev. cbn [events]. rewrite <- !app_assoc. reflexivity.
      * constructor; [exact Hw|]. exact Hall.
Qed.

Lemma totalDirectory_effects (outputPath : string) (w : World) :
  let total := fs_join [outputPath; "total"] in
  (fst (totalDirectory outputPath w) = total
   /\ (events (snd (totalDirectory outputPath w)) = events w
       \/ events (snd (totalDirectory outputPath w))
          = (events w ++ [EvMkdir total])%list))
  \/ (fst (totalDirectory outputPath w) = outputPath
      /\ h_exists (fs w) total = false
      /\ Js.nonEmpty (res_error (fst (h_mkdir (fs w) total))) = true
      /\ events (snd (totalDirectory outputPath w))
         = (events w ++ [EvMkdir total;
                         EvError "Failed to create 'total' directory:"
                                 [res_error (fst (h_mkdir (fs w) total))]])%list).
Proof.
  intros total. unfold totalDirectory. fold total. unfold_effects.
  destruct (h_exists (fs w) total) eqn:Hex; cbn [negb fst snd fs events].
  - left. split; [reflexivity|now left].
  - destruct (h_mkdir (fs w) total) as [mkdirResult s'] eqn:Hmk.
    cbn [fst snd fs events].
    destruct (Js.nonEmpty (res_error mkdirResult)) eqn:Herr;
      cbn [fst snd fs events].
    + right. repeat split; try reflexivity.
      now rewrite <- app_assoc.
    + left. split; [reflexivity|now right].
Qed.

End SummaryFacts.

(** C8, the claim as worded fails twice: a hyphen is not collapsed into
    an underscore, and a summary file lands in the output folder itself
    when the "total" folder cannot be created. *)
Lemma group_file_name_counterexample :
  ReceiptProcessor.sanitizeFileName "Taxi-Receipt (2024)" = "taxi-receipt_2024"
  /\ Spec.sanitizedBySpec "Taxi-Receipt (2024)" = "taxi_receipt_2024"
  /\ fst (ReceiptProcessor.createSummaryFile (H := Sim.host)
             [Scenario.invoice] "/out" "json" false
             (Scenario.start Scenario.lockedTotal))
     = Normal (Some ["/out/receipts_invoice.json"]).
Proof. repeat split; vm_compute; reflexivity. Qed.


(* ================================================================== *)
(** * Path resolver *)
(* ================================================================== *)

Section ValidateFacts.
Context {H : Host}.

(** C6.  In batch mode the resolver succeeds only with a directory: an
    existing path that is not a directory is rejected, a missing one is
    created with [mkdir] and a failure of that is returned as the
    error.  In single-file mode a path that exists is never rejected.
    The host is asked for two things at this path: a [mkdir] without
    error leaves a directory, and [abs] names the same thing. *)
Theorem validateOutputPath_modes (outputPath : string) (w : World) :
  Spec.mkdirCreatesDirectory (fs w) outputPath ->
  Spec.absKeepsDirectory (fs w) outputPath ->
  Spec.absKeepsDirectory (snd (h_mkdir (fs w) outputPath)) outputPath ->
  match validateOutputPath outputPath true w with
  | (Valid p, w') =>
      h_isDir (fs w') p = true
      /\ (h_exists (fs w) outputPath = true /\ w' = w
          \/ h_exists (fs w) outputPath = false
             /\ fs w' = snd (h_mkdir (fs w) outputPath)
             /\ events w' = (events w ++ [EvMkdir outputPath])%list)
  | (Invalid reason, w') =>
      (h_exists (fs w) outputPath = true /\ h_isDir (fs w) outputPath = false
       /\ reason = "For batch processing, output path must be a directory, but '"
                   ++ outputPath ++ "' is a file")
      \/ (h_exists (fs w) outputPath = false
          /\ Js.nonEmpty (res_error (fst (h_mkdir (fs w) outputPath))) = true
          /\ reason = "Cannot create output directory '" ++ outputPath ++ "': "
                      ++ res_error (fst (h_mkdir (fs w) outputPath)))
  end
  /\ match validateOutputPath outputPath false w with
     | (Valid p, w') => True
     | (Invalid reason, w') => h_exists (fs w) outputPath = false
     end.
Proof.
  intros Hmk Habs Habs'.
  unfold Spec.mkdirCreatesDirectory, Spec.absKeepsDirectory in Hmk, Habs, Habs'.
  unfold validateOutputPath. unfold_effects.
  destruct (h_exists (fs w) outputPath) eqn:Hex; cbn [fst snd fs events].
  - destruct (h_isDir (fs w) outputPath) eqn:Hdir; cbn [negb fst snd fs events].
    + split; [|exact I]. split; [|left; now split].
      destruct (Js.nonEmpty (path_error (h_abs (fs w) outputPath))) eqn:Ha.
      * exact Hdir.
      * now apply Habs.
    + split; [|exact I]. left. now repeat split.
  - destruct (h_mkdir (fs w) outputPath) as [mkdirResult s'] eqn:Hrun.
    cbn [fst snd fs events] in *.
    split.
    + destruct (Js.nonEmpty (res_error mkdirResult)) eqn:Herr;
        cbn [fst snd fs events].
      * right. now repeat split.
      * split; [|right; now repeat split].
        destruct (Js.nonEmpty (path_error (h_abs s' outputPath))) eqn:Ha.
        -- now apply Hmk.
        -- rewrite Habs' by reflexivity. now apply Hmk.
    + destruct (h_exists (fs w) (fs_dirname outputPath));
        cbn [negb fst snd fs events].
      * exact I.
      * destruct (h_mkdir (fs w) (fs_dirname outputPath)) as [r2 s2].
        cbn [fst snd fs events].
        destruct (Js.nonEmpty (res_error r2)); cbn [fst snd fs events]; auto.
Qed.
End ValidateFacts.

Lemma validateOutputPath_modes_witness :
  match validateOutputPath (H := Sim.host) "/out" true
          (Scenario.start Scenario.blank) with
  | (Valid p, w') =>
      h_isDir (fs w') p = true
      /\ (h_exists Scenario.blank "/out" = true
          /\ w' = Scenario.start Scenario.blank
          \/ h_exists Scenario.blank "/out" = false
             /\ fs w' = snd (h_mkdir Scenario.blank "/out")
             /\ events w' = [EvMkdir "/out"])
  | (Invalid reason, w') =>
      (h_exists Scenario.blank "/out" = true
       /\ h_isDir Scenario.blank "/out" = false
       /\ reason = "For batch processing, output path must be a directory, but '"
                   ++ "/out" ++ "' is a file")
      \/ (h_exists Scenario.blank "/out" = false
          /\ Js.nonEmpty (res_error (fst (h_mkdir Scenario.blank "/out"))) = true
          /\ reason = "Cannot create output directory '" ++ "/out" ++ "': "
                      ++ res_error (fst (h_mkdir Scenario.blank "/out")))
  end
  /\ match validateOutputPath (H := Sim.host) "/out" false
            (Scenario.start Scenario.blank) with
     | (Valid p, w') => True
     | (Invalid reason, w') => h_exists Scenario.blank "/out" = false
     end.
Proof.
  apply (validateOutputPath_modes (H := Sim.host) "/out"
           (Scenario.start Scenario.blank));
    unfold Spec.mkdirCreatesDirectory, Spec.absKeepsDirectory;
    intros _; vm_compute; reflexivity.
Defined.



(* ================================================================== *)
(** * Document discovery *)
(* ================================================================== *)

Section SortFacts.

Lemma sort_In (l : list string) (p : string) : In p (Js.sort l) <-> In p l.
Proof.
  unfold Js.sort. split; intros Hin.
  - eapply Permutation_in; [|exact Hin].
    apply Permutation_sym, Js.StringSort.Permuted_sort.
  - eapply Permutation_in; [|exact Hin]. apply Js.StringSort.Permuted_sort.
Qed.

Lemma sort_ascending (l : list string) : Spec.ascending (Js.sort l).
Proof. exact (Js.StringSort.Sorted_sort l). Qed.

Lemma sort_nil : Js.sort [] = [].
Proof. reflexivity. Qed.

Lemma sort_single (x : string) : Js.sort [x] = [x].
Proof. reflexivity. Qed.

End SortFacts.

Section DiscoveryFacts.
Context {H : Host}.

Lemma text_getDocumentFiles_outcome (root : string) (exts : list string)
  (w : World) :
  TextExtraction.getDocumentFiles root exts w
  = Spec.discoveryOutcome (fun p => TextExtraction.isDocumentFile p exts) root w.
Proof.
  unfold TextExtraction.getDocumentFiles, Spec.discoveryOutcome.
  unfold_effects.
  destruct (h_exists (fs w) root); cbn [negb]; [|reflexivity].
  destruct (h_isDir (fs w) root).
  - destruct (Js.nonEmpty (dir_error (h_readdir (fs w) root)));
      cbn [negb]; reflexivity.
  - destruct (h_isFile (fs w) root && TextExtraction.isDocumentFile root exts);
      reflexivity.
Qed.

Lemma receipt_getDocumentFiles_outcome (root : string) (exts : list string)
  (verbose : bool) (w : World) :
  ReceiptProcessor.getDocumentFiles root exts verbose w
  = Spec.discoveryOutcome
      (fun p => ReceiptProcessor.isDocumentFile p exts verbose) root w.
Proof.
  unfold ReceiptProcessor.getDocumentFiles, Spec.discoveryOutcome.
  unfold_effects.
  destruct (h_exists (fs w) root); cbn [negb]; [|reflexivity].
  destruct (h_isDir (fs w) root).
  - destruct (Js.nonEmpty (dir_error (h_readdir (fs w) root)));
      cbn [negb]; reflexivity.
  - destruct (h_isFile (fs w) root
              && ReceiptProcessor.isDocumentFile root exts verbose);
      reflexivity.
Qed.

Lemma discoveryOutcome_ascending (accepts : string -> bool) (root : string)
  (w : World) :
  Spec.ascending (fst (Spec.discoveryOutcome accepts root w)).
Proof.
  unfold Spec.discoveryOutcome.
  destruct (h_exists (fs w) root); [|constructor].
  destruct (h_isDir (fs w) root).
  - destruct (Js.nonEmpty (dir_error (h_readdir (fs w) root)));
      [constructor|apply sort_ascending].
  - destruct (h_isFile (fs w) root && accepts root); repeat constructor.
Qed.

Lemma discoveryOutcome_members (accepts : string -> bool) (root : string)
  (w : World) :
  Forall (fun p => Spec.notADirectory w root p /\ accepts p = true)
         (fst (Spec.discoveryOutcome accepts root w)).
Proof.
  unfold Spec.discoveryOutcome.
  destruct (h_exists (fs w) root); [|constructor].
  destruct (h_isDir (fs w) root).
  - destruct (Js.nonEmpty (dir_error (h_readdir (fs w) root)));
      [constructor|].
    cbn [fst]. apply Forall_forall. intros p Hin.
    apply sort_In, in_map_iff in Hin as [e [<- Hin]].
    apply filter_In in Hin as [Hin Hok].
    apply andb_prop in Hok as [Hnd Hacc]. apply negb_true_iff in Hnd.
    split; [|exact Hacc]. right. now exists e.
  - destruct (h_isFile (fs w) root && accepts root) eqn:Hok; [|constructor].
    apply andb_prop in Hok as [Hfile Hacc].
    constructor; [|constructor]. split; [|exact Hacc]. now left.
Qed.

Lemma discoveryOutcome_world (accepts : string -> bool) (root : string)
  (w : World) :
  fs (snd (Spec.discoveryOutcome accepts root w)) = fs w
  /\ (snd (Spec.discoveryOutcome accepts root w) = w
      \/ events (snd (Spec.discoveryOutcome accepts root w))
         = (events w ++ [EvError "Cannot access:" [root]])%list
      \/ events (snd (Spec.discoveryOutcome accepts root w))
         = (events w ++ [EvError "Failed to list directory:"
                                [dir_error (h_readdir (fs w) root)]])%list).
Proof.
  unfold Spec.discoveryOutcome.
  destruct (h_exists (fs w) root); [|split; [reflexivity|right; now left]].
  destruct (h_isDir (fs w) root).
  - destruct (Js.nonEmpty (dir_error (h_readdir (fs w) root)));
      (split; [reflexivity|]); [right; now right|now left].
  - destruct (h_isFile (fs w) root && accepts root);
      (split; [reflexivity|now left]).
Qed.

Lemma discoveryOutcome_direct (accepts : string -> bool) (root : string)
  (w : World) :
  h_exists (fs w) root = true ->
  h_isDir (fs w) root = true ->
  Js.nonEmpty (dir_error (h_readdir (fs w) root)) = false ->
  forall p : string,
    In p (fst (Spec.discoveryOutcome accepts root w))
    <-> Spec.directEntry w root accepts p.
Proof.
  intros Hex Hdir Hlist p. unfold Spec.discoveryOutcome, Spec.directEntry.
  rewrite Hex, Hdir, Hlist. cbn [fst]. rewrite sort_In, in_map_iff.
  split.
  - intros [e [<- Hin]]. apply filter_In in Hin as [Hin Hok].
    apply andb_prop in Hok as [Hnd Hacc]. apply negb_true_iff in Hnd.
    now exists e.
  - intros [e [Hin [<- [Hnd Hacc]]]]. exists e. split; [reflexivity|].
    apply filter_In. split; [exact Hin|]. now rewrite Hnd, Hacc.
Qed.

Lemma discoveryOutcome_fails (accepts : string -> bool) (root : string)
  (w : World) :
  Spec.discoveryFails w root ->
  fst (Spec.discoveryOutcome accepts root w) = []
  /\ fs (snd (Spec.discoveryOutcome accepts root w)) = fs w
  /\ exists (msg : string) (args : list string),
       events (snd (Spec.discoveryOutcome accepts root w))
       = (events w ++ [EvError msg args])%list.
Proof.
  unfold Spec.discoveryFails, Spec.discoveryOutcome.
  intros [Hex|[Hex [Hdir Herr]]].
  - rewrite Hex. repeat split. now eexists _, _.
  - rewrite Hex, Hdir, Herr. repeat split. now eexists _, _.
Qed.

Lemma discoveryOutcome_zero (accepts : string -> bool) (root : string)
  (w : World) :
  Spec.zeroMatches w root accepts ->
  Spec.discoveryOutcome accepts root w = ([], w).
Proof.
  unfold Spec.zeroMatches, Spec.discoveryOutcome.
  intros [Hex [Hdir [Hlist Hnone]]]. rewrite Hex, Hdir, Hlist.
  replace (filter _ _) with (@nil FileInfo); [reflexivity|].
  symmetry. induction (dir_files (h_readdir (fs w) root)) as [|e l IH];
    [reflexivity|].
  cbn [forallb filter] in *. apply andb_prop in Hnone as [He Hl].
  destruct (is_dir e); cbn [negb orb andb] in *.
  - now apply IH.
  - apply negb_true_iff in He. rewrite He. now apply IH.
Qed.

Lemma text_isDocumentFile_extension (p : string) :
  TextExtraction.isDocumentFile p TextExtraction.documentExtensions = true ->
  In (Js.toLowerCase (fs_ext p)) TextExtraction.documentExtensions
  /\ fs_ext p <> "".
Proof.
  unfold TextExtraction.isDocumentFile. intros Hok.
  apply existsb_exists in Hok as [e [Hin Heq]].
  apply String.eqb_eq in Heq. subst e. split; [exact Hin|].
  intros Hnone. rewrite Hnone in Hin. cbn in Hin.
  repeat (destruct Hin as [Hin|Hin]; [discriminate|]). exact Hin.
Qed.

Lemma receipt_isDocumentFile_extension (p : string) (exts : list string)
  (verbose : bool) :
  ReceiptProcessor.isDocumentFile p exts verbose = true ->
  In (Spec.dotted (fs_ext p)) exts /\ fs_ext p <> "".
Proof.
  unfold ReceiptProcessor.isDocumentFile, Spec.dotted.
  destruct (Js.nonEmpty (fs_ext p)) eqn:Hext; cbn [negb]; [|discriminate].
  intros Hok. split.
  - apply existsb_exists in Hok as [e [Hin Heq]].
    apply String.eqb_eq in Heq. subst e.
    destruct (Js.startsWithChar "." (Js.toLowerCase (fs_ext p)));
      cbn [negb] in Hin; exact Hin.
  - intros Hnone. rewrite Hnone in Hext. discriminate.
Qed.

(** C7.  Document discovery returns its files in ascending order; each
    is the root itself, a file, or an entry of the root's listing that
    is not a directory; each has an extension, and that extension,
    lower-cased, is on the allow-list.  A file without extension is
    left out silently: the only error lines discovery can add are the
    two about a root that cannot be read. *)
Theorem discovery_sorted_and_filtered (root : string) (verbose : bool)
  (w : World) :
  let text :=
    TextExtraction.getDocumentFiles root TextExtraction.documentExtensions w in
  let receipt :=
    ReceiptProcessor.getDocumentFiles root ReceiptProcessor.documentExtensions
                                      verbose w in
  let quiet (w' : World) :=
    fs w' = fs w
    /\ (w' = w
        \/ events w' = (events w ++ [EvError "Cannot access:" [root]])%list
        \/ events w'
           = (events w ++ [EvError "Failed to list directory:"
                                  [dir_error (h_readdir (fs w) root)]])%list) in
  (Spec.ascending (fst text)
   /\ Forall (fun p => Spec.notADirectory w root p
                       /\ In (Js.toLowerCase (fs_ext p))
                             TextExtraction.documentExtensions
                       /\ fs_ext p <> "") (fst text)
   /\ quiet (snd text))
  /\ (Spec.ascending (fst receipt)
      /\ Forall (fun p => Spec.notADirectory w root p
                          /\ In (Spec.dotted (fs_ext p))
                                ReceiptProcessor.documentExtensions
                          /\ fs_ext p <> "") (fst receipt)
      /\ quiet (snd receipt)).
Proof.
  intros text receipt quiet. subst text receipt quiet. cbn beta.
  rewrite text_getDocumentFiles_outcome, receipt_getDocumentFiles_outcome.
  split; (split; [apply discoveryOutcome_ascending|]);
    (split; [|apply discoveryOutcome_world]).
  - eapply Forall_impl; [|apply discoveryOutcome_members].
    intros p [Hnd Hacc]. split; [exact Hnd|].
    now apply text_isDocumentFile_extension.
  - eapply Forall_impl; [|apply discoveryOutcome_members].
    intros p [Hnd Hacc]. split; [exact Hnd|].
    now apply (receipt_isDocumentFile_extension p _ verbose).
Qed.

End DiscoveryFacts.


Section VideoFacts.
Context {H : Host}.

Lemma keepVideoFiles_filter (found exts : list string) (w : World) :
  VideoToAudio.keepVideoFiles found exts w
  = (filter (fun f => h_isFile (fs w) f && VideoToAudio.isVideoFile f exts)
            found, w).
Proof.
  induction found as [|f rest IH]; [reflexivity|].
  cbn [VideoToAudio.keepVideoFiles filter]. unfold_effects.
  unfold bind, ret in IH. rewrite IH.
  destruct (h_isFile (fs w) f && VideoToAudio.isVideoFile f exts); reflexivity.
Qed.

Lemma getVideoFiles_search (root : string) (exts : list string) (w : World) :
  h_exists (fs w) root = true ->
  h_isDir (fs w) root = true ->
  Js.nonEmpty (find_error (h_find (fs w) root "*")) = false ->
  VideoToAudio.getVideoFiles root exts w
  = (Js.sort (filter (fun f => h_isFile (fs w) f
                               && VideoToAudio.isVideoFile f exts)
                     (find_files (h_find (fs w) root "*"))), w).
Proof.
  intros Hex Hdir Hfind. unfold VideoToAudio.getVideoFiles. unfold_effects.
  rewrite Hex. cbn [negb]. rewrite Hdir. cbn [negb]. rewrite Hfind.
  cbn [negb].
  pose proof (keepVideoFiles_filter (find_files (h_find (fs w) root "*"))
                exts w) as Hkeep.
  rewrite Hkeep. reflexivity.
Qed.

End VideoFacts.

Section DirectEntries.
Context {H : Host}.

(** C4, as amended.  Given a directory that lists, the text, contract
    and receipt scripts return exactly the paths of the listing's
    entries that are not directories and whose extension is accepted:
    nothing from below a subdirectory.  The video script does not list
    the directory: it returns what the host's search [fs.find] for the
    wildcard finds under the root, kept when it is a file with an
    accepted extension. *)
Theorem discovery_direct_entries (root : string) (exts : list string)
  (verbose : bool) (w : World) (p : string) :
  h_exists (fs w) root = true ->
  h_isDir (fs w) root = true ->
  Js.nonEmpty (dir_error (h_readdir (fs w) root)) = false ->
  Js.nonEmpty (find_error (h_find (fs w) root "*")) = false ->
  (In p (fst (TextExtraction.getDocumentFiles root exts w))
   <-> Spec.directEntry w root
         (fun f => TextExtraction.isDocumentFile f exts) p)
  /\ (In p (fst (ContractReview.getDocumentFiles root exts w))
      <-> Spec.directEntry w root
            (fun f => ContractReview.isDocumentFile f exts) p)
  /\ (In p (fst (ReceiptProcessor.getDocumentFiles root exts verbose w))
      <-> Spec.directEntry w root
            (fun f => ReceiptProcessor.isDocumentFile f exts verbose) p)
  /\ (In p (fst (VideoToAudio.getVideoFiles root exts w))
      <-> In p (find_files (h_find (fs w) root "*"))
          /\ h_isFile (fs w) p = true
          /\ VideoToAudio.isVideoFile p exts = true).
Proof.
  intros Hex Hdir Hlist Hfind.
  unfold ContractReview.getDocumentFiles, ContractReview.isDocumentFile.
  rewrite text_getDocumentFiles_outcome, receipt_getDocumentFiles_outcome.
  do 3 (split; [apply discoveryOutcome_direct; assumption|]).
  rewrite getVideoFiles_search by assumption. cbn [fst].
  rewrite sort_In, filter_In, andb_true_iff. tauto.
Qed.

(** C5, as amended.  When the root is missing, or is a directory whose
    listing fails, discovery returns the empty list, leaves the file
    system alone and writes one line on the error console.  The
    returned value is the one a readable directory without documents
    yields, which comes with no error line: the caller is handed the
    same empty list in both cases. *)
Theorem discovery_failure_returns_empty (root root' : string)
  (exts : list string) (verbose : bool) (w w' : World) :
  Spec.discoveryFails w root ->
  Spec.zeroMatches w' root' (fun f => TextExtraction.isDocumentFile f exts) ->
  Spec.zeroMatches w' root'
    (fun f => ReceiptProcessor.isDocumentFile f exts verbose) ->
  let text := TextExtraction.getDocumentFiles root exts w in
  let receipt := ReceiptProcessor.getDocumentFiles root exts verbose w in
  (fst text = []
   /\ fs (snd text) = fs w
   /\ exists (msg : string) (args : list string),
        events (snd text) = (events w ++ [EvError msg args])%list)
  /\ (fst receipt = []
      /\ fs (snd receipt) = fs w
      /\ exists (msg : string) (args : list string),
           events (snd receipt) = (events w ++ [EvError msg args])%list)
  /\ TextExtraction.getDocumentFiles root' exts w' = ([], w')
  /\ ReceiptProcessor.getDocumentFiles root' exts verbose w' = ([], w')
  /\ fst text = fst (TextExtraction.getDocumentFiles root' exts w')
  /\ fst receipt
     = fst (ReceiptProcessor.getDocumentFiles root' exts verbose w').
Proof.
  intros Hfail Hzero Hzero' text receipt. subst text receipt.
  rewrite !text_getDocumentFiles_outcome, !receipt_getDocumentFiles_outcome.
  rewrite (discoveryOutcome_zero _ root' w' Hzero).
  rewrite (discoveryOutcome_zero _ root' w' Hzero').
  pose proof (discoveryOutcome_fails
                (fun f => TextExtraction.isDocumentFile f exts) root w Hfail)
    as [Ht1 Ht2].
  pose proof (discoveryOutcome_fails
                (fun f => ReceiptProcessor.isDocumentFile f exts verbose)
                root w Hfail) as [Hr1 Hr2].
  repeat split; try assumption; try tauto.
Qed.

End DirectEntries.

Lemma discovery_direct_entries_witness :
  (In "/in/a.txt"
      (fst (TextExtraction.getDocumentFiles "/in"
              TextExtraction.documentExtensions
              (Scenario.start Scenario.library)))
   <-> Spec.directEntry (Scenario.start Scenario.library) "/in"
         (fun f => TextExtraction.isDocumentFile f
                     TextExtraction.documentExtensions) "/in/a.txt")
  /\ (In "/in/a.txt"
         (fst (ContractReview.getDocumentFiles "/in"
                 TextExtraction.documentExtensions
                 (Scenario.start Scenario.library)))
      <-> Spec.directEntry (Scenario.start Scenario.library) "/in"
            (fun f => ContractReview.isDocumentFile f
                        TextExtraction.documentExtensions) "/in/a.txt")
  /\ (In "/in/a.txt"
         (fst (ReceiptProcessor.getDocumentFiles "/in"
                 TextExtraction.documentExtensions false
                 (Scenario.start Scenario.library)))
      <-> Spec.directEntry (Scenario.start Scenario.library) "/in"
            (fun f => ReceiptProcessor.isDocumentFile f
                        TextExtraction.documentExtensions false) "/in/a.txt")
  /\ (In "/in/a.txt"
         (fst (VideoToAudio.getVideoFiles "/in"
                 TextExtraction.documentExtensions
                 (Scenario.start Scenario.library)))
      <-> In "/in/a.txt" (find_files (h_find Scenario.library "/in" "*"))
          /\ h_isFile Scenario.library "/in/a.txt" = true
          /\ VideoToAudio.isVideoFile "/in/a.txt"
               TextExtraction.documentExtensions = true).
Proof.
  apply (discovery_direct_entries (H := Sim.host) "/in"
           TextExtraction.documentExtensions false
           (Scenario.start Scenario.library) "/in/a.txt");
    reflexivity.
Defined.

(** C4, the claim as worded fails for the video script: a video inside
    a subfolder of the root is returned, though the root's direct
    entries do not include it. *)
Lemma discovery_recursion_counterexample :
  fst (VideoToAudio.getVideoFiles "/in" VideoToAudio.videoExtensions
         (Scenario.start Scenario.library))
  = ["/in/movie.mp4"; "/in/sub/clip.mp4"]
  /\ map path (dir_files (h_readdir Scenario.library "/in"))
     = ["/in/b.PDF"; "/in/a.txt"; "/in/notes"; "/in/movie.mp4"; "/in/sub"]
  /\ h_isDir Scenario.library "/in/sub" = true.
Proof. repeat split; vm_compute; reflexivity. Qed.

Lemma discovery_failure_returns_empty_witness :
  let text :=
    TextExtraction.getDocumentFiles "/in" TextExtraction.documentExtensions
      (Scenario.start Scenario.unlistableInput) in
  let receipt :=
    ReceiptProcessor.getDocumentFiles "/in" TextExtraction.documentExtensions
      false (Scenario.start Scenario.unlistableInput) in
  (fst text = []
   /\ fs (snd text) = Scenario.unlistableInput
   /\ exists (msg : string) (args : list string),
        events (snd text) = [EvError msg args])
  /\ (fst receipt = []
      /\ fs (snd receipt) = Scenario.unlistableInput
      /\ exists (msg : string) (args : list string),
           events (snd receipt) = [EvError msg args])
  /\ TextExtraction.getDocumentFiles "/in" TextExtraction.documentExtensions
       (Scenario.start Scenario.noDocuments)
     = ([], Scenario.start Scenario.noDocuments)
  /\ ReceiptProcessor.getDocumentFiles "/in" TextExtraction.documentExtensions
       false (Scenario.start Scenario.noDocuments)
     = ([], Scenario.start Scenario.noDocuments)
  /\ fst text
     = fst (TextExtraction.getDocumentFiles "/in"
              TextExtraction.documentExtensions
              (Scenario.start Scenario.noDocuments))
  /\ fst receipt
     = fst (ReceiptProcessor.getDocumentFiles "/in"
              TextExtraction.documentExtensions false
              (Scenario.start Scenario.noDocuments)).
Proof.
  apply (discovery_failure_returns_empty (H := Sim.host) "/in" "/in"
           TextExtraction.documentExtensions false
           (Scenario.start Scenario.unlistableInput)
           (Scenario.start Scenario.noDocuments)).
  - right. repeat split; reflexivity.
  - repeat split; reflexivity.
  - repeat split; reflexivity.
Defined.

(** C5, the claim as worded fails: a folder that cannot be listed and a
    folder without documents hand the caller the same empty list, and
    [main] ends the same way on both, with the same last error line. *)
Lemma discovery_failure_counterexample :
  dir_error (h_readdir Scenario.unlistableInput "/in") = "cannot list directory"
  /\ dir_error (h_readdir Scenario.noDocuments "/in") = ""
  /\ fst (TextExtraction.getDocumentFiles "/in"
            TextExtraction.documentExtensions
            (Scenario.start Scenario.unlistableInput))
     = fst (TextExtraction.getDocumentFiles "/in"
              TextExtraction.documentExtensions
              (Scenario.start Scenario.noDocuments))
  /\ fst (TextExtraction.main (Scenario.start Scenario.unlistableInput))
     = false
  /\ fst (TextExtraction.main (Scenario.start Scenario.noDocuments)) = false
  /\ last (events (snd (TextExtraction.main
                          (Scenario.start Scenario.unlistableInput))))
          (EvRm "")
     = EvError "No supported document files found in:" ["/in"]
  /\ last (events (snd (TextExtraction.main
                          (Scenario.start Scenario.noDocuments))))
          (EvRm "")
     = EvError "No supported document files found in:" ["/in"].
Proof. repeat split; vm_compute; reflexivity. Qed.

(* ================================================================== *)
(** * The result of a run *)
(* ================================================================== *)

Section MainFacts.
Context {H : Host}.

(** X1.  The loop of the text extraction script counts every file at
    most once: the two counters only grow, and together they grow by no
    more than the number of files (a skipped file is in neither). *)
Lemma text_main_loop_counts (s : TextExtraction.Setup) (files : list string) :
  forall (successCount failureCount : nat) (w : World),
    let counts :=
      fst (TextExtraction.main_loop s files successCount failureCount w) in
    successCount <= fst counts
    /\ failureCount <= snd counts
    /\ fst counts + snd counts
       <= successCount + failureCount + List.length files.
Proof.
  induction files as [|documentFile rest IH]; intros sc fc w; cbn zeta.
  - cbn. lia.
  - cbn [TextExtraction.main_loop List.length]. unfold_effects.
    destruct (TextExtraction.determineTextOutputPath _ _ _ _ w) as [out w0].
    destruct (negb _ && _).
    + specialize (IH sc fc w0). cbn zeta in IH. lia.
    + destruct (TextExtraction.extractTextFromDocument _ _ _ _ _ _ w0)
        as [[|] w1].
      * specialize (IH (S sc) fc w1). cbn zeta in IH. lia.
      * specialize (IH sc (S fc) w1). cbn zeta in IH. lia.
Qed.

(** X2.  The loop of the receipt script counts every file at most once:
    the three counters only grow, and together they grow by no more than
    the number of files (a skipped file whose output cannot be read
    again is in none of them). *)
Lemma receipt_main_loop_counts (s : ReceiptProcessor.Setup)
  (files : list string) :
  forall (t : ReceiptProcessor.Tally) (w : World),
    let t' := fst (ReceiptProcessor.main_loop s files t w) in
    ReceiptProcessor.successCount t <= ReceiptProcessor.successCount t'
    /\ ReceiptProcessor.failureCount t <= ReceiptProcessor.failureCount t'
    /\ ReceiptProcessor.skippedCount t <= ReceiptProcessor.skippedCount t'
    /\ ReceiptProcessor.successCount t' + ReceiptProcessor.failureCount t'
       + ReceiptProcessor.skippedCount t'
       <= ReceiptProcessor.successCount t + ReceiptProcessor.failureCount t
          + ReceiptProcessor.skippedCount t + List.length files.
Proof.
  induction files as [|documentFile rest IH]; intros t w; cbn zeta.
  - cbn. lia.
  - cbn [ReceiptProcessor.main_loop List.length]. unfold_effects.
    destruct (ReceiptProcessor.determineReceiptOutputPath _ _ _ _ _ w)
      as [out w0].
    destruct (negb _ && _).
    + destruct (ReceiptProcessor.readExistingReceiptData out w0)
        as [existingData w1].
      destruct (Value.truthy existingData).
      * match goal with |- context [ReceiptProcessor.main_loop s rest ?t1 w1] =>
          specialize (IH t1 w1) end.
        cbn zeta in IH. cbn [ReceiptProcessor.successCount
          ReceiptProcessor.failureCount ReceiptProcessor.skippedCount] in IH.
        lia.
      * specialize (IH t w1). cbn zeta in IH. lia.
    + destruct (ReceiptProcessor.processReceipt _ _ _ w0) as [extractedData w1].
      destruct (Value.truthy extractedData).
      * match goal with |- context [ReceiptProcessor.main_loop s rest ?t1 w1] =>
          specialize (IH t1 w1) end.
        cbn zeta in IH. cbn [ReceiptProcessor.successCount
          ReceiptProcessor.failureCount ReceiptProcessor.skippedCount] in IH.
        lia.
      * match goal with |- context [ReceiptProcessor.main_loop s rest ?t1 w1] =>
          specialize (IH t1 w1) end.
        cbn zeta in IH. cbn [ReceiptProcessor.successCount
          ReceiptProcessor.failureCount ReceiptProcessor.skippedCount] in IH.
        lia.
Qed.

End MainFacts.

(* ================================================================== *)
(** * Resuming a batch (receipt processor) *)
(* ================================================================== *)

Section ResumeFacts.
Context {H : Host}.
Import ReceiptProcessor.

Lemma determinePath_world (inputFile outputFileName defaultExt output : string)
  (isBatch : bool) (w : World) :
  snd (determinePath inputFile outputFileName defaultExt output isBatch w) = w.
Proof.
  unfold determinePath. unfold_effects.
  destruct (Js.nonEmpty output); [|reflexivity].
  destruct (isBatch || h_isDir (fs w) output); [reflexivity|].
  destruct (Js.nonEmpty (fs_ext output)); reflexivity.
Qed.

Lemma readExistingReceiptData_run (filePath : string) (w : World) :
  readExistingReceiptData filePath w
  = let existing := h_read (fs w) filePath in
    if Js.nonEmpty (file_error existing) then
      (JNull, Spec.logged w "Failed to read existing receipt data:"
                          [file_error existing])
    else
      match JSON_parse (file_content existing) with
      | Some data => (data, w)
      | None => (JNull, Spec.logged w "Failed to parse existing receipt data:" [])
      end.
Proof.
  unfold readExistingReceiptData, Spec.logged. unfold_effects.
  destruct (Js.nonEmpty (file_error (h_read (fs w) filePath))); [reflexivity|].
  destruct (JSON_parse (file_content (h_read (fs w) filePath))); reflexivity.
Qed.

(** C3, as amended.  A file is skipped when overwrite is off and its
    output exists.  The receipt script then reads the output again and
    parses it.  A parsed value that is truthy, as every record is, is
    appended to the collection for the summary and the file is counted
    as skipped.  When the read or the parse fails, one line is written
    to the error console and the loop goes on to the next file with the
    success and failure counts as they were.  A parsed value that is
    falsy is dropped without a line. *)
Theorem skipped_file_is_read_again (s : Setup) (documentFile : string)
  (rest : list string) (t : Tally) (w : World) :
  let out :=
    fst (determineReceiptOutputPath documentFile (fs_basename documentFile)
           (resolvedOutput s) (isBatchProcessing s) (outputFormat (config s))
           w) in
  let existing := h_read (fs w) out in
  overwrite (config s) = false ->
  h_exists (fs w) out = true ->
  main_loop s (documentFile :: rest) t w
  = if Js.nonEmpty (file_error existing) then
      main_loop s rest t
        (Spec.logged w "Failed to read existing receipt data:"
                     [file_error existing])
    else
      match JSON_parse (file_content existing) with
      | None =>
          main_loop s rest t
            (Spec.logged w "Failed to parse existing receipt data:" [])
      | Some data =>
          if Value.truthy data then
            main_loop s rest
              {| successCount := successCount t;
                 failureCount := failureCount t;
                 allReceipts := (allReceipts t ++ [data])%list;
                 skippedCount := S (skippedCount t) |} w
          else main_loop s rest t w
      end.
Proof.
  intros out existing Hoff Hthere. cbn [main_loop].
  unfold determineReceiptOutputPath in *. unfold bind at 1.
  pose proof (determinePath_world documentFile
                (fs_basename documentFile ++ ".receipt" ++ ".json") ".json"
                (resolvedOutput s) (isBatchProcessing s) w) as Hpure.
  destruct (determinePath documentFile _ ".json" (resolvedOutput s)
              (isBatchProcessing s) w) as [out' w0] eqn:Hout.
  cbn [fst snd] in *. subst w0 out. unfold bind at 1. unfold fs_exists, query.
  rewrite Hoff, Hthere. cbn [negb andb]. unfold bind at 1.
  rewrite readExistingReceiptData_run. cbn zeta. fold existing.
  destruct (Js.nonEmpty (file_error existing)); [reflexivity|].
  destruct (JSON_parse (file_content existing)) as [data|]; [|reflexivity].
  destruct (Value.truthy data); reflexivity.
Qed.

End ResumeFacts.

Lemma skipped_file_is_read_again_witness :
  ReceiptProcessor.main_loop Scenario.resumedSetup ["/in/r2.png"; "/in/r3.png"]
    ReceiptProcessor.emptyTally (Scenario.start Scenario.resumedBatch)
  = ReceiptProcessor.main_loop Scenario.resumedSetup ["/in/r3.png"]
      ReceiptProcessor.emptyTally
      (Spec.logged (Scenario.start Scenario.resumedBatch)
                   "Failed to parse existing receipt data:" []).
Proof.
  exact (skipped_file_is_read_again (H := Sim.host) Scenario.resumedSetup
           "/in/r2.png" ["/in/r3.png"] ReceiptProcessor.emptyTally
           (Scenario.start Scenario.resumedBatch) eq_refl eq_refl).
Defined.

(** C3, the claim as worded fails: the existing output of the third
    receipt is read and parsed without error, to the number zero; yet
    nothing is added to the collection, nothing is reported, and no
    counter moves. *)
Lemma skipped_file_counterexample :
  h_exists Scenario.resumedBatch "/out/r3.receipt.json" = true
  /\ JSON_parse (file_content (h_read Scenario.resumedBatch
                                      "/out/r3.receipt.json"))
     = Some (JNum 0)
  /\ ReceiptProcessor.main_loop Scenario.resumedSetup ["/in/r3.png"]
       ReceiptProcessor.emptyTally (Scenario.start Scenario.resumedBatch)
     = (ReceiptProcessor.emptyTally, Scenario.start Scenario.resumedBatch).
Proof. repeat split; vm_compute; reflexivity. Qed.

(* ================================================================== *)
(** * Fallback output locator *)
(* ================================================================== *)

Section LocatorFacts.
Context {H : Host}.

Lemma calculateMd5_world (str : string) (w : World) :
  snd (ReceiptProcessor.calculateMd5 str w) = w.
Proof.
  unfold ReceiptProcessor.calculateMd5. unfold_effects.
  destruct (h_exists (fs w) str); [|reflexivity].
  destruct (negb (Js.nonEmpty (hash_error (h_md5 (fs w) str)))); reflexivity.
Qed.

(** C2, as amended.  The declared output of the extraction stage is
    missing after the tool ran without error, and the working directory
    is known.  The text extraction script takes the first file the
    search for "text.txt" returns, writes its content to the expected
    location, removes the file it found, and goes on to check the text
    at the expected location; a failed read or write fails the stage.
    The contract and the receipt script copy and remove nothing: they
    go on with the found file where it lies (the receipt script looks
    first for a "*.txt" entry of its staging directory).  In all three
    the stage fails when nothing is found. *)
Theorem fallback_locator_outcome :
  (forall (documentFile out ocrTool ocrLlmTemplate contentType : string) (verbose : bool) (w : World),
    let args := TextExtraction.docToTextArgs documentFile ocrTool ocrLlmTemplate
                  contentType verbose out in
    let opts := TextExtraction.docToTextOptions ocrTool in
    let run := h_cliCommand (fs w) "doc-to-text" args opts in
    let s1 := snd run in
    let before := (events w ++ [EvExec "doc-to-text" args opts; Spec.notCreated out])%list in
    Js.nonEmpty (cmd_error (fst run)) = false ->
    h_exists s1 out = false ->
    Js.nonEmpty (path_error (h_cwd s1)) = false ->
    TextExtraction.extractTextFromDocument documentFile out ocrTool
      ocrLlmTemplate contentType verbose w
    = match Spec.cwdCandidates s1 with
      | [] => (false, {| fs := s1; events := (before ++ [Spec.notLocated])%list |})
      | sourceFile :: _ =>
          let readResult := h_read s1 sourceFile in
          let written := h_write s1 out (file_content readResult) in
          if Js.nonEmpty (file_error readResult) then
            (false,
             {| fs := s1;
                events := (before ++ [EvError "Failed to read extracted text:"
                                              [file_error readResult]])%list |})
          else if Js.nonEmpty (res_error (fst written)) then
            (false,
             {| fs := snd written;
                events :=
                  (before ++ [EvWrite out (file_content readResult);
                              EvError "Failed to write text to desired location:"
                                      [res_error (fst written)]])%list |})
          else
            TextExtraction.verifyTextOutput out
              {| fs := snd (h_rm (snd written) sourceFile);
                 events := (before ++ [EvWrite out (file_content readResult);
                                       EvRm sourceFile])%list |}
      end)
  /\ (forall (documentFile reviewOutputFile ocrTool ocrLlmTemplate contractLlmTemplate contentType : string) (verbose : bool) (w : World),
      let expected := fs_join [fs_dirname reviewOutputFile;
                               fs_basename documentFile ++ ".extracted.txt"] in
      let args := TextExtraction.docToTextArgs documentFile ocrTool ocrLlmTemplate
                    contentType verbose expected in
      let opts := TextExtraction.docToTextOptions ocrTool in
      let run := h_cliCommand (fs w) "doc-to-text" args opts in
      let s1 := snd run in
      let before :=
        (events w ++ [EvExec "doc-to-text" args opts; Spec.notCreated expected])%list in
      Js.nonEmpty (cmd_error (fst run)) = false ->
      h_exists s1 expected = false ->
      Js.nonEmpty (path_error (h_cwd s1)) = false ->
      ContractReview.processDocument documentFile reviewOutputFile ocrTool
        ocrLlmTemplate contractLlmTemplate contentType verbose w
      = match Spec.cwdCandidates s1 with
        | [] => (false, {| fs := s1; events := (before ++ [Spec.notLocated])%list |})
        | candidate :: _ =>
            ContractReview.reviewText reviewOutputFile contractLlmTemplate candidate
              {| fs := s1; events := before |}
        end)
  /\ (forall (documentFile outputFile : string) (verbose : bool) (w : World),
      let md5Hash := fst (ReceiptProcessor.calculateMd5 documentFile w) in
      let tempDir := fs_dirname outputFile in
      let hashPath := fs_join [tempDir; md5Hash] in
      let made := h_mkdir (fs w) hashPath in
      let failed := Js.nonEmpty (res_error (fst made)) in
      let s0 := if h_exists (fs w) hashPath then fs w else snd made in
      let hashDir :=
        if h_exists (fs w) hashPath then hashPath
        else if failed then tempDir else hashPath in
      let staging :=
        if h_exists (fs w) hashPath then []
        else if failed
             then [EvMkdir hashPath;
                   EvError "Failed to create hash directory:" [res_error (fst made)]]
             else [EvMkdir hashPath] in
      let expected :=
        fs_join [hashDir; fs_basename documentFile ++ ".extracted.txt"] in
      let args :=
        ([documentFile; "--content-type"; "image"; "--ocr"; "llm-caller";
          "--llm_template"; "qwen-vl-ocr-image"; "-o"; expected]
         ++ (if verbose then ["--verbose"] else []))%list in
      let opts := {| timeout := 600; interactive := false |} in
      let run := h_cliCommand s0 "doc-to-text" args opts in
      let s1 := snd run in
      let before :=
        (events w ++ staging
         ++ [EvExec "doc-to-text" args opts; Spec.notCreated expected])%list in
      h_exists s0 expected = false ->
      Js.nonEmpty (cmd_error (fst run)) = false ->
      h_exists s1 expected = false ->
      Js.nonEmpty (path_error (h_cwd s1)) = false ->
      ReceiptProcessor.processReceipt documentFile outputFile verbose w
      = match Spec.locate s1 hashDir tempDir with
        | Some candidate =>
            ReceiptProcessor.structureReceipt documentFile outputFile candidate
              {| fs := s1; events := before |}
        | None => (JNull, {| fs := s1; events := (before ++ [Spec.notLocated])%list |})
        end).
Proof.
  split; [|split].
  - intros documentFile out ocrTool ocrLlmTemplate contentType verbose w.
    intros args opts run s1 before Hok Hmissing Hcwd.
    unfold TextExtraction.extractTextFromDocument, Spec.cwdCandidates.
    fold args opts. unfold_effects. fold run.
    destruct run as [result s1'] eqn:Hrun. cbn [fst snd fs events] in *.
    subst s1. rewrite Hok. tidy. rewrite Hmissing. tidy. rewrite Hcwd. tidy.
    unfold before, Spec.notCreated, Spec.notLocated.
    destruct (if Js.nonEmpty (find_error _) then [] else find_files _)
      as [|sourceFile more]; [tidy; reflexivity|].
    cbn zeta. tidy.
    destruct (Js.nonEmpty (file_error (h_read s1' sourceFile)));
      [tidy; reflexivity|].
    tidy. destruct (h_write s1' out _) as [writeResult s2] eqn:Hwrite. tidy.
    destruct (Js.nonEmpty (res_error writeResult)); [tidy; reflexivity|].
    tidy. destruct (h_rm s2 sourceFile) as [rmResult s3]. tidy. reflexivity.
  - intros documentFile reviewOutputFile ocrTool ocrLlmTemplate
           contractLlmTemplate contentType verbose w.
    intros expected args opts run s1 before Hok Hmissing Hcwd.
    unfold ContractReview.processDocument, Spec.cwdCandidates.
    fold expected. fold args opts. unfold_effects. fold run.
    destruct run as [result s1'] eqn:Hrun. cbn [fst snd fs events] in *.
    subst s1. rewrite Hok. tidy. rewrite Hmissing. tidy. rewrite Hcwd. tidy.
    unfold before, Spec.notCreated, Spec.notLocated.
    destruct (if Js.nonEmpty (find_error _) then [] else find_files _)
      as [|candidate more]; tidy; reflexivity.
  - intros documentFile outputFile verbose w.
    cbv zeta.
    pose proof (calculateMd5_world documentFile w) as Hpure.
    unfold ReceiptProcessor.processReceipt. unfold bind at 1.
    destruct (ReceiptProcessor.calculateMd5 documentFile w) as [md5Hash w0].
    cbn [fst snd] in *. subst w0.
    set (tempDir := fs_dirname outputFile).
    set (hashPath := fs_join [tempDir; md5Hash]).
    unfold_effects.
    destruct (h_exists (fs w) hashPath) eqn:Hstaged; tidy;
      [|destruct (h_mkdir (fs w) hashPath) as [mkdirResult s'] eqn:Hmade; tidy;
        destruct (Js.nonEmpty (res_error mkdirResult)) eqn:Hfailed];
    (* from the staging directory on, the three cases run alike *)
    tidy; intros Hfresh; rewrite Hfresh; tidy;
    match goal with
    | |- context [h_cliCommand ?s ?c ?a ?o] =>
        destruct (h_cliCommand s c a o) as [result s1] eqn:Hrun
    end;
    tidy; intros Hok Hmissing Hcwd;
    rewrite Hok; tidy; rewrite Hmissing; tidy; rewrite Hcwd; tidy;
    unfold Spec.locate, Spec.stagedCandidate, Spec.cwdCandidates,
      Spec.notCreated, Spec.notLocated;
    match goal with
    | |- context [negb (?d =? ?t) && h_exists ?s ?d] =>
        destruct (negb (d =? t) && h_exists s d); tidy;
        [ destruct (Js.nonEmpty (dir_error (h_readdir s d))); tidy;
          [ rewrite Hmissing; tidy
          | match goal with
            | |- context [find ?f (dir_files (h_readdir s d))] =>
                destruct (find f (dir_files (h_readdir s d))) as [entry|]; tidy;
                [ destruct (h_exists s (path entry)); tidy;
                  [ reflexivity | ]
                | rewrite Hmissing; tidy ]
            end ]
        | rewrite Hmissing; tidy ]
    end;
    match goal with
    | |- context [if Js.nonEmpty (find_error ?r) then [] else find_files ?r] =>
        destruct (if Js.nonEmpty (find_error r) then [] else find_files r);
        tidy; reflexivity
    end.
Qed.

End LocatorFacts.

Lemma fallback_locator_outcome_witness :
  let run :=
    TextExtraction.extractTextFromDocument "/in/c.pdf" "/out/c.txt"
      "surya_ocr" "" "" false (Scenario.start Scenario.strayOutput) in
  fst run = true
  /\ h_read (fs (snd run)) "/out/c.txt"
     = {| file_error := ""; file_content := "CONTRACT TEXT" |}
  /\ h_exists (fs (snd run)) "/work/cache/text.txt" = false.
Proof.
  cbv zeta.
  rewrite (proj1 (fallback_locator_outcome (H := Sim.host)) "/in/c.pdf"
             "/out/c.txt" "surya_ocr" "" "" false
             (Scenario.start Scenario.strayOutput) eq_refl eq_refl eq_refl).
  repeat split; vm_compute; reflexivity.
Defined.

(** C2, the claim as worded fails: the contract script finds the
    extractor's text under the working directory and succeeds, yet the
    expected location stays empty and the found file stays where it
    was; nothing is copied, moved or removed. *)
Lemma fallback_locator_counterexample :
  let run :=
    ContractReview.processDocument "/in/c.pdf" "/out/c.review.txt"
      "surya_ocr" "" "deepseek-contract-review" "" false
      (Scenario.start Scenario.strayOutput) in
  fst run = true
  /\ h_exists (fs (snd run)) "/out/c.extracted.txt" = false
  /\ h_exists (fs (snd run)) "/work/cache/text.txt" = true
  /\ events (snd run)
     = [EvExec "doc-to-text"
          ["/in/c.pdf"; "--ocr"; "surya_ocr"; "-o"; "/out/c.extracted.txt"]
          {| timeout := 600; interactive := false |};
        Spec.notCreated "/out/c.extracted.txt";
        EvExec "llm-caller"
          ["call"; "deepseek-contract-review"; "--var";
           "text:text:CONTRACT TEXT"]
          {| timeout := 600; interactive := false |};
        EvWrite "/out/c.review.txt" "The contract looks fine."].
Proof. repeat split; vm_compute; reflexivity. Qed.


(* ================================================================== *)
(** * Overwrite and the cached results (receipt processor) *)
(* ================================================================== *)

(** C1.  One receipt, run again with overwrite switched on, with the
    extracted text and the final output of an earlier run in place.
    The text is reused: no extractor run.  The final output is reused
    as well: [processReceipt] returns the record it reads from the
    existing file, the structuring tool is not run and the file is not
    written again.  Only the summary file is written. *)
Lemma overwrite_rerun_keeps_final_output :
  let w := Scenario.start Scenario.rerunWithOverwrite in
  h_getVar Scenario.rerunWithOverwrite "overwrite" = "true"
  /\ h_exists Scenario.rerunWithOverwrite "/out/r1.receipt.json" = true
  /\ ReceiptProcessor.processReceipt "/in/r1.png" "/out/r1.receipt.json" false w
     = (Scenario.invoice, w)
  /\ fst (ReceiptProcessor.main w) = Normal true
  /\ events (snd (ReceiptProcessor.main w))
     = [EvExec "doc-to-text" ["-h"] {| timeout := 10; interactive := false |};
        EvExec "llm-caller" ["-h"] {| timeout := 10; interactive := false |};
        EvMkdir "/out/total";
        EvWrite "/out/total/receipts_invoice.json"
                (JSON_stringify (JArr [Scenario.invoice]))].
Proof. repeat split; vm_compute; reflexivity. Qed.

(* ================================================================== *)
(** * The result of a run (contract review and video scripts) *)
(* ================================================================== *)

(** The video script on a folder with a video at the top and one in a
    subfolder: both are converted, each next to its source. *)
Example video_run :
  let run := VideoToAudio.main (Scenario.start Scenario.studio) in
  fst run = true
  /\ events (snd run)
     = [EvExec "ffmpeg" [] {| timeout := 5; interactive := false |};
        EvExec "ffmpeg"
               ["-i"; "/in/movie.mp4"; "-vn"; "-acodec"; "libvorbis";
                "-aq"; "6"; "/in/movie.ogg"]
               {| timeout := 300; interactive := false |};
        EvExec "ffmpeg"
               ["-i"; "/in/sub/clip.mp4"; "-vn"; "-acodec"; "libvorbis";
                "-aq"; "6"; "/in/sub/clip.ogg"]
               {| timeout := 300; interactive := false |}].
Proof. split; vm_compute; reflexivity. Qed.

(* ================================================================== *)
(** * Grouping the receipts of a batch *)
(* ================================================================== *)

Section GroupFacts.
Import ReceiptProcessor Spec.

Lemma addToGroup_keys (g : groups) (k : string) (r : json) :
  map fst (addToGroup g k r)
  = if existsb (fun k' => k' =? k) (map fst g) then map fst g
    else (map fst g ++ [k])%list.
Proof.
  induction g as [|[k' rs] rest IH]; cbn; [reflexivity|].
  destruct (k' =? k) eqn:E; cbn; [reflexivity|].
  rewrite IH. destruct (existsb _ (map fst rest)); reflexivity.
Qed.

Lemma addToGroup_NoDup (g : groups) (k : string) (r : json) :
  NoDup (map fst g) -> NoDup (map fst (addToGroup g k r)).
Proof.
  intros Hnd. rewrite addToGroup_keys.
  destruct (existsb _ (map fst g)) eqn:E; [assumption|].
  apply NoDup_app; [assumption| repeat constructor; intros [] |].
  intros x Hx [->|[]].
  assert (existsb (fun k' => k' =? x) (map fst g) = true); [|congruence].
  apply existsb_exists. exists x. split; [assumption|apply String.eqb_refl].
Qed.

Lemma addToGroup_grouped (g : groups) (k : string) (r : json) :
  Permutation (grouped (addToGroup g k r)) (r :: grouped g).
Proof.
  unfold grouped.
  induction g as [|[k' rs] rest IH]; cbn.
  - reflexivity.
  - destruct (k' =? k); cbn.
    + rewrite <- app_assoc. cbn.
      symmetry. apply Permutation_middle.
    + rewrite IH. symmetry. apply Permutation_middle.
Qed.

Lemma addToGroup_In (g : groups) (k : string) (r : json) (k0 : string)
  (rs0 : list json) (r0 : json) :
  In (k0, rs0) (addToGroup g k r) -> In r0 rs0 ->
  (k0 = k /\ r0 = r) \/ exists rs, In (k0, rs) g /\ In r0 rs.
Proof.
  induction g as [|[k' rs] rest IH]; cbn.
  - intros [[= <- <-]|[]] [<-|[]]. now left.
  - destruct (k' =? k) eqn:E; cbn.
    + intros [[= <- <-]|Hin] Hr.
      * apply in_app_or in Hr. destruct Hr as [Hr|[<-|[]]].
        -- right. exists rs. split; [now left|assumption].
        -- left. apply String.eqb_eq in E. now split.
      * right. exists rs0. split; [now right|assumption].
    + intros [[= <- <-]|Hin] Hr.
      * right. exists rs. split; [now left|assumption].
      * destruct (IH Hin Hr) as [?|[rs1 [H1 H2]]]; [now left|].
        right. exists rs1. split; [now right|assumption].
Qed.

Lemma groupReceiptsByType_acc (receipts : list json) :
  forall g : groups,
    let g' := fold_left
      (fun receiptsByType receipt =>
         match determineReceiptType receipt with
         | Some receiptType =>
             addToGroup receiptsByType (Value.toString receiptType) receipt
         | None => receiptsByType
         end) receipts g in
    (NoDup (map fst g) -> NoDup (map fst g'))
    /\ Permutation (grouped g') (grouped g ++ filter hasType receipts)
    /\ (forall k rs r, In (k, rs) g' -> In r rs ->
          (typeKey r = Some k /\ In r receipts)
          \/ exists rs0, In (k, rs0) g /\ In r rs0).
Proof.
  induction receipts as [|receipt rest IH]; intros g; cbn zeta; cbn [fold_left].
  - repeat split.
    + tauto.
    + cbn. now rewrite app_nil_r.
    + intros k rs r H1 H2. right. now exists rs.
  - cbn [filter].
    assert (Eh : hasType receipt
                 = match determineReceiptType receipt with
                   | Some _ => true | None => false end) by reflexivity.
    rewrite Eh. clear Eh.
    destruct (determineReceiptType receipt) as [t|] eqn:Et.
    + specialize (IH (addToGroup g (Value.toString t) receipt)).
      cbn zeta in IH. destruct IH as (IH1 & IH2 & IH3).
      repeat split.
      * intros Hnd. apply IH1. now apply addToGroup_NoDup.
      * rewrite IH2. rewrite addToGroup_grouped. cbn.
        apply Permutation_middle.
      * intros k rs r H1 H2.
        destruct (IH3 k rs r H1 H2) as [[Hk Hin]|[rs0 [Hg Hr]]].
        -- left. split; [assumption|now right].
        -- destruct (addToGroup_In _ _ _ _ _ _ Hg Hr) as [[-> ->]|Hex].
           ++ left. split; [|now left]. unfold typeKey. now rewrite Et.
           ++ now right.
    + specialize (IH g). cbn zeta in IH. destruct IH as (IH1 & IH2 & IH3).
      repeat split; [assumption|assumption|].
      intros k rs r H1 H2.
      destruct (IH3 k rs r H1 H2) as [[Hk Hin]|Hex]; [|now right].
      left. split; [assumption|now right].
Qed.

Lemma groupReceiptsByType_returns (receipts : list json) :
  Forall (fun r => r <> JNull) receipts ->
  (forall r code, In r receipts -> determineReceiptType r = Some code ->
                  Value.printable code = true) ->
  (forall r k, In r receipts -> typeKey r = Some k -> ownName k = true) ->
  groupReceiptsByType receipts = Normal (fold_left groupStep receipts []).
Proof.
  intros Hnull Hprint Hown. unfold groupReceiptsByType.
  apply foldC_total. intros g r Hin.
  rewrite Forall_forall in Hnull. specialize (Hnull r Hin).
  specialize (Hown r). specialize (Hprint r).
  unfold typeKey, ownName in Hown. unfold groupStep.
  destruct (determineReceiptType r) as [t|] eqn:Et.
  - specialize (Hown _ Hin eq_refl). apply negb_true_iff in Hown.
    rewrite Hown, (Hprint t Hin eq_refl).
    destruct r; try reflexivity. now elim Hnull.
  - destruct r; try reflexivity. now elim Hnull.
Qed.


Lemma groups_are_of_the_batch (receipts : list json) (k : string)
  (rs : list json) (r : json) :
  In (k, rs) (fold_left groupStep receipts []) -> In r rs ->
  typeKey r = Some k /\ In r receipts.
Proof.
  intros Hin Hr.
  destruct (groupReceiptsByType_acc receipts []) as (_ & _ & H3).
  cbn zeta in H3. fold groupStep in H3.
  destruct (H3 k rs r Hin Hr) as [Hok|[rs0 [[] _]]]. exact Hok.
Qed.


End GroupFacts.


(* ================================================================== *)
(** * Video discovery *)
(* ================================================================== *)

Section VideoDiscovery.
Context {H : Host}.

Lemma isVideoFile_extension (p : string) (exts : list string) :
  VideoToAudio.isVideoFile p exts = true ->
  In (Js.toLowerCase (fs_ext p)) exts.
Proof.
  unfold VideoToAudio.isVideoFile. intros Hvideo.
  apply existsb_exists in Hvideo as [e [Hin Heq]].
  apply String.eqb_eq in Heq. now subst e.
Qed.

Lemma sort_Forall (P : string -> Prop) (l : list string) :
  Forall P l -> Forall P (Js.sort l).
Proof.
  rewrite !Forall_forall. intros Hl p Hp. apply Hl. now apply sort_In.
Qed.

(** X5.  Video discovery returns its files in ascending order; each is a
    file with an allow-listed extension (compared in lower case), and
    the file system is left as it was. *)
Theorem video_discovery_sorted_and_filtered (root : string) (w : World) :
  let run := VideoToAudio.getVideoFiles root VideoToAudio.videoExtensions w in
  Spec.ascending (fst run)
  /\ Forall (fun p => h_isFile (fs w) p = true
                      /\ In (Js.toLowerCase (fs_ext p))
                            VideoToAudio.videoExtensions) (fst run)
  /\ fs (snd run) = fs w.
Proof.
  cbn zeta. unfold VideoToAudio.getVideoFiles. unfold_effects.
  destruct (h_exists (fs w) root); cbn [negb].
  2:{ cbn [fst snd fs]. repeat split; constructor. }
  destruct (h_isDir (fs w) root).
  - destruct (Js.nonEmpty (find_error (h_find (fs w) root "*"))); cbn [negb].
    + cbn [fst snd]. split; [apply sort_ascending|].
      split; [apply sort_Forall; constructor|reflexivity].
    + pose proof (keepVideoFiles_filter (find_files (h_find (fs w) root "*"))
                    VideoToAudio.videoExtensions w) as Hkeep.
      unfold bind, ret in Hkeep. rewrite Hkeep. cbn [fst snd].
      split; [apply sort_ascending|]. split; [|reflexivity].
      apply sort_Forall. apply Forall_forall. intros p Hp.
      apply filter_In in Hp as [_ Hp].
      apply andb_true_iff in Hp as [Hfile Hvideo]. split; [exact Hfile|].
      now apply isVideoFile_extension.
  - destruct (h_isFile (fs w) root) eqn:Hfile; cbn [andb].
    + destruct (VideoToAudio.isVideoFile root VideoToAudio.videoExtensions)
        eqn:Hvideo; cbn [fst snd].
      * split; [apply sort_ascending|]. split; [|reflexivity].
        apply sort_Forall. constructor; [|constructor].
        split; [exact Hfile|]. now apply isVideoFile_extension.
      * split; [apply sort_ascending|].
        split; [apply sort_Forall; constructor|reflexivity].
    + cbn [fst snd]. split; [apply sort_ascending|].
      split; [apply sort_Forall; constructor|reflexivity].
Qed.

End VideoDiscovery.

(* ================================================================== *)
(** * What the receipt processor reuses *)
(* ================================================================== *)

Section CacheFacts.
Context {H : Host}.
Import ReceiptProcessor Spec.

Lemma noExtractorRun_ret {A : Type} (a : A) : noExtractorRun (ret a).
Proof. intros w. reflexivity. Qed.

Lemma noExtractorRun_bind {A B : Type} (c : M A) (k : A -> M B) :
  noExtractorRun c -> (forall a, noExtractorRun (k a)) ->
  noExtractorRun (bind c k).
Proof.
  intros Hc Hk w. unfold bind. specialize (Hc w).
  destruct (c w) as [a w1]. cbn [snd] in Hc. now rewrite Hk.
Qed.

Lemma noExtractorRun_query {A : Type} (f : FS -> A) : noExtractorRun (query f).
Proof. intros w. reflexivity. Qed.

Lemma noExtractorRun_effect {A : Type} (f : FS -> A * FS) (e : Event) :
  isExtractorRun e = false -> noExtractorRun (effect f e).
Proof.
  intros He w. unfold effect. destruct (f (fs w)) as [a s]. cbn [snd events].
  unfold extractorRuns. rewrite filter_app. cbn [filter]. rewrite He.
  apply app_nil_r.
Qed.

Lemma noExtractorRun_error (msg : string) (args : list string) :
  noExtractorRun (console_error msg args).
Proof.
  intros w. unfold console_error, record. cbn [snd events].
  unfold extractorRuns. rewrite filter_app. apply app_nil_r.
Qed.

Lemma noExtractorRun_forEach {A : Type} (l : list A) (body : A -> M unit) :
  (forall a, noExtractorRun (body a)) -> noExtractorRun (forEach l body).
Proof.
  intros Hbody. induction l as [|x r IH]; cbn [forEach].
  - apply noExtractorRun_ret.
  - apply noExtractorRun_bind; [apply Hbody|intros _; exact IH].
Qed.

Lemma noExtractorRun_showLines (title out : string) (limit : nat) :
  noExtractorRun (showLines title out limit).
Proof.
  unfold showLines. destruct (Js.nonBlank out); [|apply noExtractorRun_ret].
  apply noExtractorRun_bind; [apply noExtractorRun_error|intros _].
  apply noExtractorRun_forEach. intros line.
  destruct (Js.nonBlank line);
    [apply noExtractorRun_error|apply noExtractorRun_ret].
Qed.

Lemma structureReceipt_noExtractorRun
  (documentFile outputFile tempTextFile : string) :
  noExtractorRun (structureReceipt documentFile outputFile tempTextFile).
Proof.
  unfold structureReceipt, readExistingReceiptData, parseExtractedData,
    fs_read, fs_exists, fs_write, cliCommand, Date_toISOString.
  repeat first
    [ apply noExtractorRun_ret
    | apply noExtractorRun_error
    | apply noExtractorRun_showLines
    | apply noExtractorRun_query
    | apply noExtractorRun_effect; reflexivity
    | apply noExtractorRun_bind; [|intros ?]
    | match goal with
      | |- noExtractorRun (if ?b then _ else _) => destruct b
      | |- noExtractorRun (match ?x with _ => _ end) => destruct x
      end ].
Qed.

(** X6.  The cached text.  When the staging directory of a receipt and
    the extracted text in it are there, [processReceipt] goes straight
    to its second step with that text: it behaves as the rest of the
    function does, and the run adds no call of doc-to-text.  The
    function is not given the overwrite flag. *)
Theorem cached_text_is_reused (documentFile outputFile : string)
  (verbose : bool) (w : World) :
  h_exists (fs w) (stagingDirectory documentFile outputFile w) = true ->
  h_exists (fs w) (stagedText documentFile outputFile w) = true ->
  processReceipt documentFile outputFile verbose w
  = structureReceipt documentFile outputFile
      (stagedText documentFile outputFile w) w
  /\ extractorRuns (events (snd (processReceipt documentFile outputFile verbose w)))
     = extractorRuns (events w).
Proof.
  intros Hdir Htext.
  assert (Heq : processReceipt documentFile outputFile verbose w
                = structureReceipt documentFile outputFile
                    (stagedText documentFile outputFile w) w).
  { unfold stagedText, stagingDirectory in *.
    unfold processReceipt. unfold bind at 1.
    pose proof (calculateMd5_world documentFile w) as Hw.
    destruct (calculateMd5 documentFile w) as [md5Hash w0].
    cbn [fst snd] in *. subst w0.
    unfold_effects. rewrite Hdir. tidy. rewrite Htext. reflexivity. }
  split; [exact Heq|]. rewrite Heq. apply structureReceipt_noExtractorRun.
Qed.

(** X7.  The existing final output.  When the extracted text can be read
    and is not blank, and the output file exists and holds a JSON value
    that is truthy, the steps after the extraction return that value and
    do nothing else: no tool is run and nothing is written. *)
Theorem existing_output_is_returned
  (documentFile outputFile tempTextFile : string) (data : json) (w : World) :
  file_error (h_read (fs w) tempTextFile) = "" ->
  Js.nonBlank (file_content (h_read (fs w) tempTextFile)) = true ->
  h_exists (fs w) outputFile = true ->
  file_error (h_read (fs w) outputFile) = "" ->
  JSON_parse (file_content (h_read (fs w) outputFile)) = Some data ->
  Value.truthy data = true ->
  structureReceipt documentFile outputFile tempTextFile w = (data, w).
Proof.
  intros Htext Hblank Hout Hread Hparse Htruthy.
  unfold structureReceipt. unfold_effects.
  rewrite Htext. change (Js.nonEmpty "") with false. cbn iota.
  rewrite Hblank. tidy. rewrite Hout.
  rewrite readExistingReceiptData_run. cbn zeta.
  rewrite Hread, Hparse. change (Js.nonEmpty "") with false. cbn iota.
  rewrite Htruthy. reflexivity.
Qed.

End CacheFacts.

Lemma cached_text_is_reused_witness :
  ReceiptProcessor.processReceipt "/in/r1.png" "/out/r1.receipt.json" false
    (Scenario.start Scenario.rerunWithOverwrite)
  = ReceiptProcessor.structureReceipt "/in/r1.png" "/out/r1.receipt.json"
      "/out/h9/r1.extracted.txt" (Scenario.start Scenario.rerunWithOverwrite)
  /\ Spec.extractorRuns
       (events (snd (ReceiptProcessor.processReceipt "/in/r1.png"
                       "/out/r1.receipt.json" false
                       (Scenario.start Scenario.rerunWithOverwrite))))
     = [].
Proof.
  apply (cached_text_is_reused (H := Sim.host) "/in/r1.png"
           "/out/r1.receipt.json" false
           (Scenario.start Scenario.rerunWithOverwrite));
    vm_compute; reflexivity.
Defined.

Lemma existing_output_is_returned_witness :
  ReceiptProcessor.structureReceipt "/in/r1.png" "/out/r1.receipt.json"
    "/out/h9/r1.extracted.txt" (Scenario.start Scenario.rerunWithOverwrite)
  = (Scenario.invoice, Scenario.start Scenario.rerunWithOverwrite).
Proof.
  apply (existing_output_is_returned (H := Sim.host));
    vm_compute; reflexivity.
Defined.

(* ================================================================== *)
(** * What a success leaves behind *)
(* ================================================================== *)

Section Postconditions.
Context {H : Host}.

Lemma verifyTextOutput_true (textOutputFile : string) (w : World) :
  fst (TextExtraction.verifyTextOutput textOutputFile w) = true ->
  snd (TextExtraction.verifyTextOutput textOutputFile w) = w
  /\ file_error (h_read (fs w) textOutputFile) = ""
  /\ Js.nonBlank (file_content (h_read (fs w) textOutputFile)) = true.
Proof.
  unfold TextExtraction.verifyTextOutput. unfold_effects.
  destruct (Js.nonEmpty (file_error (h_read (fs w) textOutputFile))) eqn:E;
    [discriminate|].
  destruct (Js.nonBlank (file_content (h_read (fs w) textOutputFile)));
    [|discriminate].
  cbn. intros _. repeat split.
  unfold Js.nonEmpty in E.
  destruct (file_error (h_read (fs w) textOutputFile)); [reflexivity|discriminate].
Qed.

(** X8.  A text extraction counted as a success has left a text at the
    output path: when [extractTextFromDocument] returns true, the
    output file can be read in the state it leaves, and what is read is
    not blank. *)
Theorem extractTextFromDocument_success
  (documentFile textOutputFile ocrTool ocrLlmTemplate contentType : string)
  (verbose : bool) (w : World) :
  let run := TextExtraction.extractTextFromDocument documentFile textOutputFile
               ocrTool ocrLlmTemplate contentType verbose w in
  fst run = true ->
  file_error (h_read (fs (snd run)) textOutputFile) = ""
  /\ Js.nonBlank (file_content (h_read (fs (snd run)) textOutputFile)) = true.
Proof.
  cbn zeta. unfold TextExtraction.extractTextFromDocument.
  set (verify := TextExtraction.verifyTextOutput textOutputFile).
  assert (Hverify : forall w0, fst (verify w0) = true ->
            file_error (h_read (fs (snd (verify w0))) textOutputFile) = ""
            /\ Js.nonBlank
                 (file_content (h_read (fs (snd (verify w0))) textOutputFile))
               = true).
  { intros w0 Hw0. subst verify.
    destruct (verifyTextOutput_true _ _ Hw0) as (-> & ? & ?). now split. }
  clearbody verify. unfold_effects.
  destruct (h_cliCommand _ _ _ _) as [extractResult s1]. tidy.
  destruct (Js.nonEmpty (cmd_error extractResult)).
  { destruct (showLines _ (stderr extractResult) _ _) as [[] w1].
    destruct (showLines _ (stdout extractResult) _ _) as [[] w2].
    cbn. discriminate. }
  tidy. destruct (h_exists s1 textOutputFile); [apply Hverify|].
  tidy. destruct (Js.nonEmpty (path_error (h_cwd s1))); tidy; [discriminate|].
  destruct (if Js.nonEmpty (find_error _) then [] else _) as [|sourceFile others];
    tidy; [discriminate|].
  destruct (Js.nonEmpty (file_error (h_read s1 sourceFile))); tidy;
    [discriminate|].
  destruct (h_write s1 _ _) as [writeResult s2]. tidy.
  destruct (Js.nonEmpty (res_error writeResult)); tidy; [discriminate|].
  destruct (h_rm s2 sourceFile) as [rmResult s3]. tidy.
  apply Hverify.
Qed.

(** X10.  A conversion counted as a success has left its output file:
    when [convertVideoToAudio] returns true, the output path exists in
    the state it leaves. *)
Theorem convertVideoToAudio_success (inputFile outputFile : string)
  (config : VideoToAudio.AudioConfig) (overwrite : bool) (w : World) :
  let run := VideoToAudio.convertVideoToAudio inputFile outputFile config
               overwrite w in
  fst run = true -> h_exists (fs (snd run)) outputFile = true.
Proof.
  cbn zeta. unfold VideoToAudio.convertVideoToAudio. unfold_effects.
  destruct (h_cliCommand _ _ _ _) as [result s1]. tidy.
  destruct (Js.nonEmpty (cmd_error result)).
  { destruct (if Js.nonEmpty (stderr result) then _ else _) as [[] w1].
    cbn. discriminate. }
  tidy. destruct (h_exists s1 outputFile) eqn:E; tidy; [|discriminate].
  intros _. exact E.
Qed.

Lemma reviewText_success (reviewOutputFile contractLlmTemplate textFile : string)
  (w : World) :
  fst (ContractReview.reviewText reviewOutputFile contractLlmTemplate
         textFile w) = true ->
  Spec.reviewed reviewOutputFile contractLlmTemplate textFile w
    (snd (ContractReview.reviewText reviewOutputFile contractLlmTemplate
            textFile w)).
Proof.
  unfold Spec.reviewed, ContractReview.reviewText. unfold_effects.
  destruct (Js.nonEmpty (file_error (h_read (fs w) textFile))); tidy;
    [discriminate|].
  destruct (Js.nonBlank (file_content (h_read (fs w) textFile))); tidy;
    [|discriminate].
  destruct (h_cliCommand _ _ _ _) as [llmResult s1]. tidy.
  destruct (Js.nonEmpty (cmd_error llmResult)).
  { destruct (showLines _ (stderr llmResult) _ _) as [[] w1].
    destruct (showLines _ (stdout llmResult) _ _) as [[] w2].
    cbn. discriminate. }
  tidy. destruct (Js.nonBlank (stdout llmResult)) eqn:Eout; tidy;
    [|discriminate].
  destruct (h_write s1 _ _) as [writeResult s2]. tidy.
  destruct (Js.nonEmpty (res_error writeResult)); tidy; [discriminate|].
  intros _. now repeat split.
Qed.

(** X9.  A contract review counted as a success has written the review
    the tool gave.  When [processDocument] returns true, the extraction
    tool reported no error; the text is the file asked for, or, when
    that was not made, the first file the search under the working
    directory finds; and from there the review step went through: the
    text was read and is not blank, the review tool was run on it and
    answered, and its answer, which is not blank, was written to the
    review file as the last thing the run did. *)
Theorem processDocument_success
  (documentFile reviewOutputFile ocrTool ocrLlmTemplate contractLlmTemplate
     contentType : string) (verbose : bool) (w : World) :
  let run := ContractReview.processDocument documentFile reviewOutputFile
               ocrTool ocrLlmTemplate contractLlmTemplate contentType verbose w in
  let expected :=
    fs_join [fs_dirname reviewOutputFile;
             fs_basename documentFile ++ ".extracted.txt"] in
  let extraction :=
    cliCommand "doc-to-text"
      (TextExtraction.docToTextArgs documentFile ocrTool ocrLlmTemplate
         contentType verbose expected)
      (TextExtraction.docToTextOptions ocrTool) w in
  fst run = true ->
  exists (textFile : string) (before : World),
    Js.nonEmpty (cmd_error (fst extraction)) = false
    /\ ((h_exists (fs (snd extraction)) expected = true
         /\ textFile = expected
         /\ before = snd extraction)
        \/ (h_exists (fs (snd extraction)) expected = false
            /\ Js.nonEmpty (path_error (h_cwd (fs (snd extraction)))) = false
            /\ hd_error (Spec.cwdCandidates (fs (snd extraction)))
               = Some textFile
            /\ before
               = Spec.logged (snd extraction)
                   "Text file was not created at expected location:"
                   [expected]))
    /\ Spec.reviewed reviewOutputFile contractLlmTemplate textFile before
                     (snd run).
Proof.
  cbn zeta. unfold ContractReview.processDocument.
  set (finish := ContractReview.reviewText reviewOutputFile contractLlmTemplate).
  assert (Hfinish : forall t w0, fst (finish t w0) = true ->
            Spec.reviewed reviewOutputFile contractLlmTemplate t w0
                          (snd (finish t w0))).
  { intros t w0. subst finish. apply reviewText_success. }
  clearbody finish. unfold Spec.cwdCandidates, Spec.logged. unfold_effects.
  destruct (h_cliCommand _ _ _ _) as [extractResult s1]. tidy.
  destruct (Js.nonEmpty (cmd_error extractResult)).
  { destruct (showLines _ (stderr extractResult) _ _) as [[] w1].
    destruct (showLines _ (stdout extractResult) _ _) as [[] w2].
    cbn. discriminate. }
  tidy. destruct (h_exists s1 _) eqn:Hex.
  { intros Hok. eexists _, _. split; [reflexivity|].
    split; [left; repeat split|]. now apply Hfinish. }
  tidy. destruct (Js.nonEmpty (path_error (h_cwd s1))); tidy; [discriminate|].
  destruct (if Js.nonEmpty (find_error _) then [] else _) as [|candidate others];
    tidy; [discriminate|].
  intros Hok. exists candidate. eexists. split; [reflexivity|].
  split; [right; repeat split|]. now apply Hfinish.
Qed.

End Postconditions.

Lemma extractTextFromDocument_success_witness :
  file_error
    (Sim.read
       (fs (snd (TextExtraction.extractTextFromDocument "/in/c.pdf" "/out/c.txt"
                   "surya_ocr" "" "" false (Scenario.start Scenario.strayOutput))))
       "/out/c.txt") = ""
  /\ Js.nonBlank
       (file_content
          (Sim.read
             (fs (snd (TextExtraction.extractTextFromDocument "/in/c.pdf"
                         "/out/c.txt" "surya_ocr" "" "" false
                         (Scenario.start Scenario.strayOutput))))
             "/out/c.txt")) = true.
Proof.
  apply (extractTextFromDocument_success (H := Sim.host) "/in/c.pdf"
           "/out/c.txt" "surya_ocr" "" "" false
           (Scenario.start Scenario.strayOutput)).
  vm_compute. reflexivity.
Defined.

Lemma processDocument_success_witness :
  Spec.reviewed "/out/c.review.txt" "deepseek-contract-review"
    "/work/cache/text.txt"
    (Spec.logged
       (snd (cliCommand "doc-to-text"
               (TextExtraction.docToTextArgs "/in/c.pdf" "surya_ocr" "" ""
                  false "/out/c.extracted.txt")
               (TextExtraction.docToTextOptions "surya_ocr")
               (Scenario.start Scenario.strayOutput)))
       "Text file was not created at expected location:"
       ["/out/c.extracted.txt"])
    (snd (ContractReview.processDocument "/in/c.pdf" "/out/c.review.txt"
            "surya_ocr" "" "deepseek-contract-review" "" false
            (Scenario.start Scenario.strayOutput))).
Proof.
  destruct (processDocument_success (H := Sim.host) "/in/c.pdf"
              "/out/c.review.txt" "surya_ocr" "" "deepseek-contract-review" ""
              false (Scenario.start Scenario.strayOutput))
    as (textFile & before & _ & [(Hex & _)|(_ & _ & Hfile & ->)] & Hreviewed).
  - vm_compute. reflexivity.
  - vm_compute in Hex. discriminate.
  - vm_compute in Hfile. injection Hfile as <-. exact Hreviewed.
Defined.

Lemma convertVideoToAudio_success_witness :
  h_exists
    (fs (snd (VideoToAudio.convertVideoToAudio "/in/movie.mp4" "/in/movie.ogg"
                {| VideoToAudio.codec := "libvorbis";
                   VideoToAudio.params := ["-aq"; "6"];
                   VideoToAudio.ext := ".ogg" |} false
                (Scenario.start Scenario.studio))))
    "/in/movie.ogg" = true.
Proof.
  apply (convertVideoToAudio_success (H := Sim.host) "/in/movie.mp4"
           "/in/movie.ogg" _ false (Scenario.start Scenario.studio)).
  vm_compute. reflexivity.
Defined.

(* ================================================================== *)
(** * The shape of a sanitized name *)
(* ================================================================== *)

Section SanitizeShape.
Import ReceiptProcessor Spec.

Lemma replaceInvalid_allChars (s : string) :
  allChars nameChar (replaceInvalid s) = true.
Proof.
  unfold replaceInvalid. induction s as [|c s IH]; [reflexivity|].
  cbn [Js.mapS allChars]. rewrite IH, andb_true_r.
  destruct (nameChar c) eqn:E; [exact E|reflexivity].
Qed.

Lemma collapseUnderscores_allChars (p : ascii -> bool) (s : string) :
  allChars p s = true -> allChars p (collapseUnderscores s) = true.
Proof.
  induction s as [|c s IH]; [reflexivity|].
  cbn [allChars collapseUnderscores]. intros Hs.
  apply andb_true_iff in Hs as [Hc Hs]. specialize (IH Hs).
  destruct s as [|d s']; [cbn; now rewrite Hc|].
  destruct (Ascii.eqb c underscore && Ascii.eqb d underscore); [exact IH|].
  cbn [allChars]. now rewrite Hc.
Qed.

Lemma collapseUnderscores_head (s : string) :
  match s with
  | String c _ => exists r, collapseUnderscores s = String c r
  | EmptyString => collapseUnderscores s = EmptyString
  end.
Proof.
  induction s as [|c s IH]; [reflexivity|].
  cbn [collapseUnderscores]. destruct s as [|d s']; [now eexists|].
  destruct (Ascii.eqb c underscore && Ascii.eqb d underscore) eqn:E.
  - destruct IH as [r Hr]. apply andb_true_iff in E as [Ec Ed].
    apply Ascii.eqb_eq in Ec, Ed. subst. now exists r.
  - now eexists.
Qed.

Lemma collapseUnderscores_noDouble (s : string) :
  noDoubleUnderscore (collapseUnderscores s) = true.
Proof.
  induction s as [|c s IH]; [reflexivity|].
  cbn [collapseUnderscores]. destruct s as [|d s']; [reflexivity|].
  destruct (Ascii.eqb c underscore && Ascii.eqb d underscore) eqn:E;
    [exact IH|].
  destruct (collapseUnderscores_head (String d s')) as [r Hr].
  rewrite Hr in *. cbn [noDoubleUnderscore]. rewrite E. exact IH.
Qed.

Lemma dropLastUnderscore_allChars (p : ascii -> bool) (s : string) :
  allChars p s = true -> allChars p (dropLastUnderscore s) = true.
Proof.
  induction s as [|c s IH]; [reflexivity|].
  cbn [allChars dropLastUnderscore]. intros Hs.
  apply andb_true_iff in Hs as [Hc Hs]. specialize (IH Hs).
  destruct s as [|d s'].
  - destruct (Ascii.eqb c underscore); [reflexivity|cbn; now rewrite Hc].
  - cbn [allChars]. now rewrite Hc.
Qed.

Lemma dropLastUnderscore_noDouble (s : string) :
  noDoubleUnderscore s = true ->
  noDoubleUnderscore (dropLastUnderscore s) = true
  /\ endsWithChar underscore (dropLastUnderscore s) = false.
Proof.
  induction s as [|c s IH]; [now split|].
  destruct s as [|d s'].
  - intros _. cbn [dropLastUnderscore].
    destruct (Ascii.eqb c underscore) eqn:E;
      cbn [noDoubleUnderscore endsWithChar]; [now split|].
    split; [reflexivity|]. rewrite Ascii.eqb_sym. exact E.
  - intros Hs. cbn [noDoubleUnderscore] in Hs.
    apply andb_true_iff in Hs as [Hcd Hs]. specialize (IH Hs) as [IH1 IH2].
    change (dropLastUnderscore (String c (String d s')))
      with (String c (dropLastUnderscore (String d s'))).
    destruct (dropLastUnderscore (String d s')) as [|e r] eqn:Hdrop.
    + (* the rest was a single underscore *)
      destruct s' as [|e' r']; cbn [dropLastUnderscore] in Hdrop.
      * destruct (Ascii.eqb d underscore) eqn:Ed; [|discriminate].
        split; [reflexivity|]. cbn [endsWithChar].
        rewrite andb_true_r in Hcd. apply negb_true_iff in Hcd.
        rewrite Ascii.eqb_sym. exact Hcd.
      * discriminate.
    + assert (e = d) as ->.
      { destruct s' as [|e' r']; cbn [dropLastUnderscore] in Hdrop.
        - destruct (Ascii.eqb d underscore); [discriminate|now injection Hdrop].
        - now injection Hdrop. }
      split.
      * cbn [noDoubleUnderscore]. rewrite Hcd. exact IH1.
      * exact IH2.
Qed.

Lemma toLowerCase_nameChars (s : string) :
  allChars nameChar s = true -> Js.toLowerCase s = s.
Proof.
  unfold Js.toLowerCase. induction s as [|c s IH]; [reflexivity|].
  cbn [allChars Js.mapS]. intros Hs. apply andb_true_iff in Hs as [Hc Hs].
  rewrite (IH Hs). f_equal.
  revert Hc. clear. destruct c as [[] [] [] [] [] [] [] []]; vm_compute;
    intros; congruence.
Qed.

Lemma replaceInvalid_nameChars (s : string) :
  allChars nameChar s = true -> replaceInvalid s = s.
Proof.
  unfold replaceInvalid. induction s as [|c s IH]; [reflexivity|].
  cbn [allChars Js.mapS]. intros Hs. apply andb_true_iff in Hs as [Hc Hs].
  now rewrite (IH Hs), Hc.
Qed.

Lemma collapseUnderscores_noDouble_id (s : string) :
  noDoubleUnderscore s = true -> collapseUnderscores s = s.
Proof.
  induction s as [|c s IH]; [reflexivity|].
  destruct s as [|d s']; [reflexivity|].
  cbn [noDoubleUnderscore]. intros Hs. apply andb_true_iff in Hs as [Hcd Hs].
  change (collapseUnderscores (String c (String d s')))
    with (if Ascii.eqb c underscore && Ascii.eqb d underscore
          then collapseUnderscores (String d s')
          else String c (collapseUnderscores (String d s'))).
  apply negb_true_iff in Hcd. rewrite Hcd. now rewrite (IH Hs).
Qed.

Lemma dropLastUnderscore_id (s : string) :
  endsWithChar underscore s = false -> dropLastUnderscore s = s.
Proof.
  induction s as [|c s IH]; [reflexivity|].
  destruct s as [|d s'].
  - cbn [endsWithChar dropLastUnderscore]. intros E.
    rewrite Ascii.eqb_sym, E. reflexivity.
  - intros E. change (dropLastUnderscore (String c (String d s')))
      with (String c (dropLastUnderscore (String d s'))).
    now rewrite IH.
Qed.

(** X11.  The name [sanitizeFileName] derives holds only lower-case
    letters, digits, underscores and hyphens (so no path separator, no
    dot and no blank); it has no two underscores in a row and neither
    starts nor ends with one. *)
Theorem sanitizeFileName_shape (name : string) :
  let typeName := sanitizeFileName name in
  allChars nameChar typeName = true
  /\ noDoubleUnderscore typeName = true
  /\ Js.startsWithChar underscore typeName = false
  /\ endsWithChar underscore typeName = false.
Proof.
  cbn zeta. unfold sanitizeFileName.
  set (lower := Js.toLowerCase (orDefault name "unknown")).
  pose proof (collapseUnderscores_allChars nameChar _
                (replaceInvalid_allChars lower)) as Hall.
  pose proof (collapseUnderscores_noDouble (replaceInvalid lower)) as Hnd.
  destruct (collapseUnderscores (replaceInvalid lower)) as [|c r] eqn:Ht;
    [now repeat split|].
  unfold stripEnds. destruct (Ascii.eqb c underscore) eqn:Ec.
  - (* a leading underscore goes; what follows does not start with one *)
    cbn [allChars] in Hall. apply andb_true_iff in Hall as [_ Hall].
    assert (Hr : noDoubleUnderscore r = true
                 /\ Js.startsWithChar underscore r = false).
    { destruct r as [|d r']; [now split|].
      cbn [noDoubleUnderscore] in Hnd. apply andb_true_iff in Hnd as [Hcd Hnd].
      split; [exact Hnd|]. rewrite Ec in Hcd. cbn [andb] in Hcd.
      apply negb_true_iff in Hcd. cbn [Js.startsWithChar]. exact Hcd. }
    destruct Hr as [Hndr Hstart].
    destruct (dropLastUnderscore_noDouble r Hndr) as [H1 H2].
    repeat split; [now apply dropLastUnderscore_allChars|exact H1| |exact H2].
    destruct r as [|d r']; [reflexivity|].
    cbn [Js.startsWithChar] in Hstart.
    destruct r' as [|e r'']; cbn [dropLastUnderscore].
    + rewrite Ascii.eqb_sym in Hstart. rewrite Hstart.
      cbn [Js.startsWithChar]. now rewrite Ascii.eqb_sym.
    + exact Hstart.
  - destruct (dropLastUnderscore_noDouble _ Hnd) as [H1 H2].
    repeat split; [now apply dropLastUnderscore_allChars|exact H1| |exact H2].
    destruct r as [|d r']; cbn [dropLastUnderscore].
    + rewrite Ec. cbn [Js.startsWithChar]. rewrite Ascii.eqb_sym. exact Ec.
    + cbn [Js.startsWithChar]. rewrite Ascii.eqb_sym. exact Ec.
Qed.

(** X12.  A name that is already sanitized stays as it is: sanitizing the
    result of [sanitizeFileName] again returns it unchanged, unless the
    result is empty, which sanitizes to "unknown". *)
Theorem sanitizeFileName_again (name : string) :
  sanitizeFileName (sanitizeFileName name)
  = if Js.nonEmpty (sanitizeFileName name) then sanitizeFileName name
    else "unknown".
Proof.
  destruct (sanitizeFileName_shape name) as (Hall & Hnd & Hstart & Hend).
  cbn zeta in *.
  destruct (sanitizeFileName name) as [|c r] eqn:E; [reflexivity|].
  change (Js.nonEmpty (String c r)) with true. cbn iota.
  unfold sanitizeFileName, orDefault.
  change (Js.nonEmpty (String c r)) with true. cbn iota.
  rewrite (toLowerCase_nameChars _ Hall), (replaceInvalid_nameChars _ Hall),
    (collapseUnderscores_noDouble_id _ Hnd).
  unfold stripEnds. cbn [Js.startsWithChar] in Hstart.
  rewrite Ascii.eqb_sym, Hstart. now apply dropLastUnderscore_id.
Qed.

End SanitizeShape.

(* ================================================================== *)
(** * Flattening never keeps the discriminant *)
(* ================================================================== *)

Section FlattenKeys.
Import ReceiptProcessor Spec.

Lemma set_keys (o : object) (k : string) (v : json) (x : string) :
  In x (Value.keys (Value.set o k v)) <-> In x (Value.keys o) \/ x = k.
Proof.
  unfold Value.keys. induction o as [|[k' v'] r IH]; cbn [Value.set map In].
  - intuition.
  - destruct (k' =? k) eqn:E; cbn [map In fst].
    + apply String.eqb_eq in E. subst. intuition.
    + rewrite IH. intuition.
Qed.

Lemma assign_keys (o : object) (k : string) (v : json) (x : string) :
  In x (Value.keys (assign o k v)) -> In x (Value.keys o) \/ x = k.
Proof.
  unfold assign. destruct (k =? "__proto__"); [now left|]. apply set_keys.
Qed.

Lemma set_keys_NoDup (o : object) (k : string) (v : json) :
  NoDup (Value.keys o) -> NoDup (Value.keys (Value.set o k v)).
Proof.
  unfold Value.keys. induction o as [|[k' v'] r IH]; cbn [Value.set map fst].
  - intros _. repeat constructor. intros [].
  - intros Hnd. inversion Hnd as [|? ? Hnotin Hrest]; subst.
    destruct (k' =? k) eqn:E; cbn [map fst].
    + constructor; assumption.
    + constructor; [|now apply IH].
      intros Hin. apply (set_keys r k v k') in Hin as [Hin| ->].
      * now apply Hnotin.
      * rewrite String.eqb_refl in E. discriminate.
Qed.

(** What holds of an object that is built from the empty one by
    assignments under keys that satisfy [ok]. *)
Section Invariant.
Variable ok : string -> bool.
Variable holds : object -> Prop.
Hypothesis holds_empty : holds [].
Hypothesis holds_assign :
  forall result k v, holds result -> ok k = true -> holds (assign result k v).

Lemma good_assign (result : object) (k : string) (v : json) :
  keeps ok holds result -> ok k = true -> keeps ok holds (assign result k v).
Proof.
  intros [Hh Hk] Hok. split; [now apply holds_assign|].
  unfold allKeys in *. apply Forall_forall. intros x Hx.
  apply assign_keys in Hx as [Hx| ->]; [|exact Hok].
  rewrite Forall_forall in Hk. now apply Hk.
Qed.

Lemma promoteFields_good (fields result r : object) :
  (forall k, In k (Value.keys fields) -> k <> "type-code" -> ok k = true) ->
  keeps ok holds result ->
  promoteFields fields result = Normal r -> keeps ok holds r.
Proof.
  unfold promoteFields. destruct (hasOwnPropertyThrows fields); [discriminate|].
  intros Hkeys Hgood [= <-]. revert result Hgood.
  induction fields as [|[k v] rest IH]; intros result Hgood;
    cbn [fold_left fst snd]; [exact Hgood|].
  assert (Hrest : forall k0, In k0 (Value.keys rest) -> k0 <> "type-code" ->
                             ok k0 = true)
    by (intros k0 Hin; apply Hkeys; now right).
  destruct (String.eqb_spec k "type-code") as [->|Hne]; [now apply IH|].
  apply IH; [exact Hrest|]. apply good_assign; [exact Hgood|].
  apply Hkeys; [now left|exact Hne].
Qed.

Lemma mergeInto_good (flattened result r : object) :
  keeps ok holds flattened -> keeps ok holds result ->
  mergeInto result flattened = Normal r -> keeps ok holds r.
Proof.
  unfold mergeInto.
  destruct (hasOwnPropertyThrows flattened); [discriminate|].
  intros [_ Hkeys] Hgood [= <-]. revert result Hgood.
  induction flattened as [|[k v] rest IH]; intros result Hgood;
    cbn [fold_left fst snd]; [exact Hgood|].
  inversion Hkeys as [|? ? Hk Hrest]; subst.
  apply IH; [exact Hrest|]. now apply good_assign.
Qed.

Lemma flattenStep_good (flatten : json -> string -> Completion object)
  (prefix : string) (result r : object) (kv : string * json) :
  (forall p f, flatten (snd kv) p = Normal f -> keeps ok holds f) ->
  (let newKey := if Js.nonEmpty prefix then prefix ++ "." ++ fst kv
                 else fst kv in
   newKey <> "type-code" -> ok newKey = true) ->
  (forall inner, snd kv = JObj inner -> fst kv = "fields" ->
     forall k, In k (Value.keys inner) -> k <> "type-code" -> ok k = true) ->
  keeps ok holds result ->
  flattenStep flatten prefix result kv = Normal r -> keeps ok holds r.
Proof.
  cbn zeta. intros Hrec Hkey Hfields Hgood. unfold flattenStep.
  destruct (String.eqb_spec
              (if Js.nonEmpty prefix then prefix ++ "." ++ fst kv else fst kv)
              "type-code") as [E|E]; [now intros [= <-]|].
  specialize (Hkey E).
  destruct (snd kv) as [| | | |items|inner] eqn:Ev;
    try (intros [= <-]; now apply good_assign).
  { destruct (forallb Value.printable items); [|discriminate].
    intros [= <-]. now apply good_assign. }
  destruct (String.eqb_spec (fst kv) "fields") as [Ef|Ef].
  - apply promoteFields_good; [|exact Hgood]. now apply Hfields.
  - destruct (flatten (JObj inner) _) as [f|] eqn:Hf; cbn [andThen];
      [|discriminate].
    apply mergeInto_good; [|exact Hgood]. eapply Hrec. exact Hf.
Qed.

End Invariant.

Lemma notTypeCode_spec (k : string) : k <> "type-code" -> notTypeCode k = true.
Proof. intros Hne. unfold notTypeCode. now apply negb_true_iff, String.eqb_neq. Qed.

(** Every object returned by [flattenObject] satisfies what the empty
    object does and every assignment under a key other than "type-code"
    keeps; and it has no key "type-code". *)
Lemma flattenObject_invariant (holds : object -> Prop) :
  holds [] ->
  (forall result k v, holds result -> notTypeCode k = true ->
                      holds (assign result k v)) ->
  forall (obj : json) (prefix : string) (flat : object),
    flattenObject obj prefix = Normal flat ->
    holds flat /\ Forall (fun k => notTypeCode k = true) (Value.keys flat).
Proof.
  intros Hempty Hassign. fix IH 1. intros obj prefix flat.
  destruct obj as [| | | | |props]; cbn [flattenObject];
    try (intros [= <-]; split; [exact Hempty|constructor]).
  destruct (hasOwnPropertyThrows props); [discriminate|].
  assert (Hfold : forall result flat,
             (holds result
              /\ Forall (fun k => notTypeCode k = true) (Value.keys result)) ->
             foldC (flattenStep flattenObject prefix) props result
             = Normal flat ->
             holds flat
             /\ Forall (fun k => notTypeCode k = true) (Value.keys flat)).
  { clear flat.
    induction props as [|[k v] rest IHprops]; intros result flat Hres.
    - cbn. now intros [= <-].
    - rewrite foldC_cons.
      destruct (flattenStep flattenObject prefix result (k, v)) as [r1|]
        eqn:Hstep; cbn [andThen]; [|discriminate].
      apply IHprops.
      refine (flattenStep_good notTypeCode holds Hassign flattenObject prefix
                result r1 (k, v) _ _ _ Hres Hstep).
      + intros p f. cbn [snd]. apply IH.
      + cbn zeta. apply notTypeCode_spec.
      + intros inner _ _ k0 _. apply notTypeCode_spec. }
  apply Hfold. split; [exact Hempty|constructor].
Qed.

Lemma flattenObject_keys_no_type_code (obj : json) (prefix : string)
  (flat : object) :
  flattenObject obj prefix = Normal flat ->
  ~ In "type-code" (Value.keys flat).
Proof.
  intros Hflat.
  destruct (flattenObject_invariant (fun _ => True) I (fun _ _ _ _ _ => I)
              obj prefix flat Hflat) as [_ Hkeys].
  rewrite Forall_forall in Hkeys. intros Hin.
  specialize (Hkeys _ Hin). discriminate.
Qed.

Lemma flattenObject_keys_NoDup (obj : json) (prefix : string) (flat : object) :
  flattenObject obj prefix = Normal flat -> NoDup (Value.keys flat).
Proof.
  intros Hflat.
  refine (proj1 (flattenObject_invariant (fun o => NoDup (Value.keys o))
                   (NoDup_nil _) _ obj prefix flat Hflat)).
  intros result k v Hnd _. unfold assign.
  destruct (k =? "__proto__"); [exact Hnd|now apply set_keys_NoDup].
Qed.

(** When every key, at any depth, satisfies [ok], and [ok] rules out
    the keys "hasOwnProperty" and "toString", nothing throws, and the
    keys of the result satisfy [ok] as well. *)
Section Returns.
Variable ok : string -> bool.
Hypothesis ok_callable : forall k, ok k = true -> k <> "hasOwnProperty".
Hypothesis ok_printable : forall k, ok k = true -> k <> "toString".
Hypothesis ok_dotted : forall p k, ok (p ++ "." ++ k) = true.

Lemma plainBy_keys (props : object) :
  plainBy ok (JObj props) = true -> allKeys ok props.
Proof.
  cbn [plainBy]. rewrite forallb_forall. intros Hall.
  apply Forall_forall. intros k Hin.
  apply in_map_iff in Hin as [kv [<- Hin]].
  specialize (Hall _ Hin). now apply andb_prop in Hall as [Hk _].
Qed.

Lemma plainBy_get (props : object) (k : string) (v : json) :
  plainBy ok (JObj props) = true -> Value.get props k = Some v ->
  plainBy ok v = true.
Proof.
  cbn [plainBy]. induction props as [|[k0 v0] rest IH];
    cbn [forallb Value.get fst snd]; [discriminate|].
  intros Hall. apply andb_prop in Hall as [H0 Hrest].
  apply andb_prop in H0 as [_ Hv0].
  destruct (k0 =? k); [now intros [= <-]|now apply IH].
Qed.

Lemma hasOwnProperty_found (o : object) :
  plainBy ok (JObj o) = true -> hasOwnPropertyThrows o = false.
Proof.
  intros Hall. apply plainBy_keys in Hall. apply hasKey_false. intros Hin.
  unfold allKeys in Hall. rewrite Forall_forall in Hall.
  now apply (ok_callable _ (Hall _ Hin)).
Qed.

Lemma plainBy_printable :
  forall v : json, plainBy ok v = true -> Value.printable v = true.
Proof.
  fix IH 1. intros v Hv.
  destruct v as [| | | |items|props]; try reflexivity.
  - cbn [plainBy Value.printable] in *.
    induction items as [|x rest IHitems]; [reflexivity|].
    cbn [forallb] in *. apply andb_prop in Hv as [Hx Hrest].
    now rewrite (IH x Hx), IHitems.
  - cbn [Value.printable]. apply negb_true_iff, hasKey_false.
    apply plainBy_keys in Hv. intros Hin.
    unfold allKeys in Hv. rewrite Forall_forall in Hv.
    now apply (ok_printable _ (Hv _ Hin)).
Qed.

Lemma plainBy_set (props : object) (k : string) (v : json) :
  plainBy ok (JObj props) = true -> ok k = true -> plainBy ok v = true ->
  plainBy ok (JObj (Value.set props k v)) = true.
Proof.
  intros Hprops Hk Hv. cbn [plainBy] in *.
  induction props as [|[k0 v0] r IH]; cbn [Value.set forallb fst snd] in *.
  - now rewrite Hk, Hv.
  - apply andb_prop in Hprops as [H0 Hr].
    destruct (k0 =? k); cbn [forallb fst snd].
    + apply andb_prop in H0 as [Hk0 _]. now rewrite Hk0, Hv, Hr.
    + now rewrite H0, IH.
Qed.

Lemma assign_plain (result : object) (k : string) (v : json) :
  plainBy ok (JObj result) = true -> ok k = true -> plainBy ok v = true ->
  plainBy ok (JObj (assign result k v)) = true.
Proof.
  intros Hres Hk Hv. unfold assign.
  destruct (k =? "__proto__"); [exact Hres|now apply plainBy_set].
Qed.

Lemma promoteFields_returns (fields result : object) :
  plainBy ok (JObj fields) = true -> plainBy ok (JObj result) = true ->
  exists r, promoteFields fields result = Normal r
            /\ plainBy ok (JObj r) = true.
Proof.
  intros Hfields Hres. unfold promoteFields.
  rewrite (hasOwnProperty_found fields Hfields).
  eexists. split; [reflexivity|]. revert result Hres.
  cbn [plainBy] in Hfields.
  induction fields as [|[k v] rest IH]; intros result Hres;
    cbn [fold_left fst snd]; [exact Hres|].
  cbn [forallb fst snd] in Hfields.
  apply andb_prop in Hfields as [Hkv Hrest].
  apply andb_prop in Hkv as [Hk Hv].
  destruct (k =? "type-code"); apply IH; try assumption.
  now apply assign_plain.
Qed.

Lemma mergeInto_returns (flattened result : object) :
  plainBy ok (JObj flattened) = true -> plainBy ok (JObj result) = true ->
  exists r, mergeInto result flattened = Normal r
            /\ plainBy ok (JObj r) = true.
Proof.
  intros Hflat Hres. unfold mergeInto.
  rewrite (hasOwnProperty_found flattened Hflat).
  eexists. split; [reflexivity|]. revert result Hres.
  cbn [plainBy] in Hflat.
  induction flattened as [|[k v] rest IH]; intros result Hres;
    cbn [fold_left fst snd]; [exact Hres|].
  cbn [forallb fst snd] in Hflat.
  apply andb_prop in Hflat as [Hkv Hrest].
  apply andb_prop in Hkv as [Hk Hv].
  apply IH; [assumption|]. now apply assign_plain.
Qed.

Lemma flattenStep_returns (flatten : json -> string -> Completion object)
  (prefix : string) (result : object) (kv : string * json) :
  ok (fst kv) = true ->
  plainBy ok (snd kv) = true ->
  (forall p, exists f, flatten (snd kv) p = Normal f
                       /\ plainBy ok (JObj f) = true) ->
  plainBy ok (JObj result) = true ->
  exists r, flattenStep flatten prefix result kv = Normal r
            /\ plainBy ok (JObj r) = true.
Proof.
  intros Hkey Hvalue Hrec Hres. unfold flattenStep.
  assert (Hnew : ok (if Js.nonEmpty prefix then prefix ++ "." ++ fst kv
                     else fst kv) = true)
    by (destruct (Js.nonEmpty prefix); [apply ok_dotted|exact Hkey]).
  destruct (_ =? "type-code"); [now exists result|].
  destruct (snd kv) as [| | | |items|inner] eqn:Ev;
    try (eexists; split; [reflexivity|now apply assign_plain]).
  - pose proof (plainBy_printable _ Hvalue) as Hprint.
    cbn [Value.printable] in Hprint. rewrite Hprint.
    eexists. split; [reflexivity|now apply assign_plain].
  - destruct (fst kv =? "fields").
    + now apply promoteFields_returns.
    + destruct (Hrec (if Js.nonEmpty prefix then prefix ++ "." ++ fst kv
                      else fst kv)) as [f [Hf Hok]].
      rewrite Hf. cbn [andThen]. now apply mergeInto_returns.
Qed.

Lemma flattenObject_returns :
  forall (obj : json) (prefix : string),
    plainBy ok obj = true ->
    exists flat, flattenObject obj prefix = Normal flat
                 /\ plainBy ok (JObj flat) = true.
Proof.
  fix IH 1. intros obj prefix Hplain.
  destruct obj as [| | | | |props]; cbn [flattenObject];
    try (exists []; split; reflexivity).
  rewrite (hasOwnProperty_found props Hplain).
  cbn [plainBy] in Hplain.
  assert (Hfold : forall result,
             plainBy ok (JObj result) = true ->
             exists flat,
               foldC (flattenStep flattenObject prefix) props result
               = Normal flat /\ plainBy ok (JObj flat) = true).
  { induction props as [|[k v] rest IHprops]; intros result Hres.
    - exists result. now split.
    - cbn [forallb fst snd] in Hplain.
      apply andb_prop in Hplain as [Hkv Hrest].
      apply andb_prop in Hkv as [Hk Hv].
      rewrite foldC_cons.
      destruct (flattenStep_returns flattenObject prefix result (k, v))
        as [r [Hr Hok]]; try assumption.
      + cbn [snd]. intros p. now apply IH.
      + rewrite Hr. cbn [andThen]. now apply IHprops. }
  apply Hfold. reflexivity.
Qed.

End Returns.

(** X13.  Whatever record is flattened, and under whatever prefix, the
    result has no "type-code" column: the discriminant is dropped at the
    top level and from every [fields] object that is promoted, at any
    depth. *)
Theorem flattenObject_no_type_code (props : object) (prefix : string)
  (flat : object) :
  flattenObject (JObj props) prefix = Normal flat ->
  ~ In "type-code" (Value.keys flat).
Proof. apply flattenObject_keys_no_type_code. Qed.

End FlattenKeys.

(* ================================================================== *)
(** * The summary table (receipt processor) *)
(* ================================================================== *)

Section CsvFacts.
Import ReceiptProcessor Spec.

Lemma addField_In (fields : list string) (key x : string) :
  In x (addField fields key) <-> In x fields \/ x = key.
Proof.
  unfold addField. destruct (existsb (String.eqb key) fields) eqn:E.
  - split; [now left|]. intros [?| ->]; [assumption|].
    apply existsb_exists in E as [y [Hy Heq]]. apply String.eqb_eq in Heq.
    now subst.
  - rewrite in_app_iff. cbn [In]. intuition.
Qed.

Lemma addField_NoDup (fields : list string) (key : string) :
  NoDup fields -> NoDup (addField fields key).
Proof.
  intros Hnd. unfold addField.
  destruct (existsb (String.eqb key) fields) eqn:E; [assumption|].
  apply NoDup_app; [assumption|repeat constructor; intros []|].
  intros x Hx [->|[]].
  assert (existsb (String.eqb x) fields = true); [|congruence].
  apply existsb_exists. exists x. split; [assumption|apply String.eqb_refl].
Qed.

Lemma addColumns_spec (keys : list string) :
  forall allFields,
    NoDup allFields ->
    NoDup (addColumns allFields keys)
    /\ forall x, In x (addColumns allFields keys)
                 <-> In x allFields \/ (In x keys /\ x <> "type-code").
Proof.
  unfold addColumns.
  induction keys as [|k rest IH]; intros allFields Hnd; cbn [fold_left].
  - split; [assumption|]. intros x. cbn [In]. intuition.
  - destruct (k =? "type-code") eqn:E.
    + apply String.eqb_eq in E. destruct (IH allFields Hnd) as [H1 H2].
      split; [assumption|]. intros x. rewrite H2. cbn [In].
      split; [intuition|]. intros [?|[[->|?] Hne]]; [now left| |right; now split].
      now elim Hne.
    + apply String.eqb_neq in E.
      destruct (IH _ (addField_NoDup allFields k Hnd)) as [H1 H2].
      split; [assumption|]. intros x. rewrite H2, addField_In. cbn [In].
      split; [|intuition].
      intros [[?| ->]|[? ?]]; [now left| |right; split; [now right|assumption]].
      right. split; [now left|assumption].
Qed.

Lemma columns_spec (receipts : list json) :
  forall allFields,
    NoDup allFields ->
    let fields :=
      fold_left
        (fun allFields receipt =>
           addColumns allFields (Value.keys (flattened receipt)))
        receipts allFields in
    NoDup fields
    /\ forall x, In x fields
                 <-> In x allFields
                     \/ (x <> "type-code"
                         /\ exists receipt,
                              In receipt receipts
                              /\ In x (Value.keys (flattened receipt))).
Proof.
  induction receipts as [|r rest IH]; intros allFields Hnd; cbn zeta;
    cbn [fold_left].
  - split; [assumption|]. intros x. split; [now left|].
    intros [?|[_ [? [[] _]]]]. assumption.
  - destruct (addColumns_spec (Value.keys (flattened r)) allFields Hnd)
      as [H1 H2].
    destruct (IH _ H1) as [H3 H4]. cbn zeta in H3, H4.
    split; [assumption|]. intros x. rewrite H4, H2. cbn [In].
    split.
    + intros [[?|[? ?]]|[? [r' [? ?]]]].
      * now left.
      * right. split; [assumption|]. exists r. split; [now left|assumption].
      * right. split; [assumption|]. exists r'. split; [now right|assumption].
    + intros [?|[? [r' [[<-|?] ?]]]].
      * left. now left.
      * left. right. now split.
      * right. split; [assumption|]. now exists r'.
Qed.

Lemma row_returns (flat : object) (fields : list string) :
  (forall k v, Value.get flat k = Some v -> Value.printable v = true) ->
  row flat fields
  = Normal (Js.join ","
              (map (fun field => csvCell (Value.get flat field)) fields)).
Proof.
  intros Hprint. unfold row.
  rewrite (mapC_total _ (fun field => csvCell (Value.get flat field)));
    [reflexivity|].
  intros field _. unfold cell.
  destruct (Value.get flat field) as [v|] eqn:E; [|reflexivity].
  now rewrite (Hprint _ _ E).
Qed.

(** The table of receipts that all flatten, to values that print. *)
Lemma createTotalCsv_returns (receipts : list json) :
  receipts <> [] ->
  (forall r, In r receipts -> flattenObject r "" = Normal (flattened r)) ->
  (forall r k v, In r receipts -> Value.get (flattened r) k = Some v ->
                 Value.printable v = true) ->
  createTotalCsv receipts
  = Normal
      (let fields :=
         fold_left
           (fun allFields receipt =>
              addColumns allFields (Value.keys (flattened receipt)))
           receipts [] in
       Js.join "," fields ++ newline
       ++ Js.join newline
            (map (fun receipt =>
                    Js.join ","
                      (map (fun field =>
                              csvCell (Value.get (flattened receipt) field))
                           fields))
                 receipts)).
Proof.
  intros Hne Hflat Hprint. unfold createTotalCsv.
  destruct receipts as [|r0 rest0]; [now elim Hne|].
  set (receipts := r0 :: rest0) in *.
  rewrite (foldC_total _
             (fun allFields receipt =>
                addColumns allFields (Value.keys (flattened receipt)))).
  2:{ intros a r Hr. now rewrite (Hflat r Hr). }
  cbn [andThen].
  rewrite (mapC_total _
             (fun receipt =>
                Js.join ","
                  (map (fun field =>
                          csvCell (Value.get (flattened receipt) field))
                       (fold_left
                          (fun allFields receipt =>
                             addColumns allFields
                               (Value.keys (flattened receipt)))
                          receipts [])))).
  2:{ intros r Hr. rewrite (Hflat r Hr). cbn [andThen].
      apply row_returns. intros k v. now apply Hprint. }
  reflexivity.
Qed.

Lemma inherited_no_dot (k : string) :
  Value.inherited k = true ->
  allChars (fun c => negb (Ascii.eqb c ".")) k = true.
Proof.
  unfold Value.inherited. rewrite existsb_exists.
  intros [n [Hin Heq]]. apply String.eqb_eq in Heq. subst n.
  unfold Value.inheritedNames in Hin. cbn [In] in Hin.
  repeat (destruct Hin as [<-|Hin]; [reflexivity|]). destruct Hin.
Qed.

Lemma allChars_app (p : ascii -> bool) (a b : string) :
  allChars p (a ++ b) = allChars p a && allChars p b.
Proof.
  induction a as [|c a IH]; cbn [append allChars]; [reflexivity|].
  now rewrite IH, andb_assoc.
Qed.

Lemma ordinaryKey_dotted (prefix key : string) :
  ordinaryKey (prefix ++ "." ++ key) = true.
Proof.
  unfold ordinaryKey, ownName, indexLike.
  apply andb_true_intro. split; apply negb_true_iff.
  - destruct (Value.inherited (prefix ++ "." ++ key)) eqn:E; [|reflexivity].
    apply inherited_no_dot in E. rewrite allChars_app in E.
    cbn [append allChars] in E. cbn in E. rewrite andb_false_r in E.
    discriminate.
  - rewrite allChars_app. cbn [append allChars].
    replace (Js.isDigit ".") with false by reflexivity.
    cbn [andb]. now rewrite !andb_false_r.
Qed.

Lemma ordinaryKey_callable (k : string) :
  ordinaryKey k = true -> k <> "hasOwnProperty".
Proof. intros Hk ->. discriminate. Qed.

Lemma ordinaryKey_printable (k : string) :
  ordinaryKey k = true -> k <> "toString".
Proof. intros Hk ->. discriminate. Qed.

(** A plain record flattens, and to a plain record. *)
Lemma flattenObject_plain (v : json) :
  plain v = true ->
  flattenObject v "" = Normal (flattened v)
  /\ plain (JObj (flattened v)) = true.
Proof.
  intros Hplain.
  destruct (flattenObject_returns ordinaryKey ordinaryKey_callable
              ordinaryKey_printable ordinaryKey_dotted v "" Hplain)
    as [flat [Hflat Hok]].
  unfold flattened. rewrite Hflat. now split.
Qed.

Lemma plain_values_print (flat : object) (k : string) (v : json) :
  plain (JObj flat) = true -> Value.get flat k = Some v ->
  Value.printable v = true.
Proof.
  intros Hplain Hget.
  apply (plainBy_printable ordinaryKey ordinaryKey_printable).
  exact (plainBy_get ordinaryKey flat k v Hplain Hget).
Qed.

Lemma determineReceiptType_plainBy (ok : string -> bool) (r code : json) :
  plainBy ok r = true -> determineReceiptType r = Some code ->
  plainBy ok code = true.
Proof.
  intros Hplain. unfold determineReceiptType.
  destruct (Value.truthyOpt (Value.prop r "type-code")).
  - destruct r as [| | | | |props]; cbn [Value.prop]; try discriminate.
    now apply plainBy_get.
  - destruct (Value.prop r "fields") as [fields|] eqn:Ef; [|discriminate].
    destruct (_ && _); [|discriminate].
    destruct r as [| | | | |props]; cbn [Value.prop] in Ef; try discriminate.
    pose proof (plainBy_get ok props "fields" fields Hplain Ef) as Hfields.
    destruct fields as [| | | | |inner]; cbn [Value.prop]; try discriminate.
    now apply plainBy_get.
Qed.

Lemma tabulates_plainBy (ok : string -> bool) (v : json) :
  (forall k, ok k = true -> k <> "hasOwnProperty") ->
  (forall k, ok k = true -> k <> "toString") ->
  (forall p k, ok (p ++ "." ++ k) = true) ->
  plainBy ok v = true -> tabulates v.
Proof.
  intros Hcall Hprint Hdot Hplain.
  destruct (flattenObject_returns ok Hcall Hprint Hdot v "" Hplain)
    as [flat [Hflat Hok]].
  unfold tabulates, flattened. rewrite Hflat. split; [reflexivity|].
  intros k x Hget. apply (plainBy_printable ok Hprint).
  exact (plainBy_get ok flat k x Hok Hget).
Qed.


(** X14.  The summary table.  The records are plain: their keys, at
    any depth, are no names that objects inherit and no array indices.
    Then every record flattens, and for a non-empty group the text is a
    header line and one line per record, joined by line feeds.  The
    columns are ordinary keys, pairwise distinct; they are exactly the
    keys that flattening gives for some record of the group, "type-code"
    left out; every row has one cell per column, made from the value the
    flattened record has under that key. *)
Theorem createTotalCsv_table (records : list object) :
  records <> [] ->
  Forall (fun props => plain (JObj props) = true) records ->
  exists fields : list string,
    Forall (fun props =>
              flattenObject (JObj props) "" = Normal (flattened (JObj props)))
           records
    /\ NoDup fields
    /\ Forall (fun key => ordinaryKey key = true) fields
    /\ (forall key, In key fields
                    <-> key <> "type-code"
                        /\ exists props,
                             In props records
                             /\ In key (Value.keys (flattened (JObj props))))
    /\ createTotalCsv (map JObj records)
       = Normal
           (Js.join "," fields ++ newline
            ++ Js.join newline
                 (map (fun props =>
                         Js.join ","
                           (map (fun field =>
                                   csvCell (Value.get (flattened (JObj props))
                                                      field)) fields))
                      records)).
Proof.
  intros Hne Hplain. rewrite Forall_forall in Hplain.
  destruct (columns_spec (map JObj records) [] (NoDup_nil _)) as [H1 H2].
  cbn zeta in H1, H2. eexists. split; [|split; [exact H1|split; [|split]]].
  - apply Forall_forall. intros props Hin.
    now apply flattenObject_plain, Hplain.
  - apply Forall_forall. intros key Hkey.
    apply H2 in Hkey as [[]|[_ [receipt [Hin Hk]]]].
    apply in_map_iff in Hin as [props [<- Hin]].
    destruct (flattenObject_plain (JObj props) (Hplain _ Hin)) as [_ Hok].
    apply (plainBy_keys ordinaryKey) in Hok.
    unfold allKeys in Hok. rewrite Forall_forall in Hok. now apply Hok.
  - intros key. rewrite H2. cbn [In].
    split.
    + intros [[]|[Htc [receipt [Hin Hk]]]]. split; [exact Htc|].
      apply in_map_iff in Hin as [props [<- Hin]]. now exists props.
    + intros [Htc [props [Hin Hk]]]. right. split; [exact Htc|].
      exists (JObj props). split; [now apply in_map|exact Hk].
  - rewrite createTotalCsv_returns.
    + cbn zeta. now rewrite map_map.
    + destruct records; [now elim Hne|discriminate].
    + intros r Hr. apply in_map_iff in Hr as [props [<- Hin]].
      now apply flattenObject_plain, Hplain.
    + intros r k v Hr. apply in_map_iff in Hr as [props [<- Hin]].
      apply plain_values_print.
      now apply flattenObject_plain, Hplain.
Qed.

Lemma doubleQuotes_inj (a : string) :
  forall b, doubleQuotes a = doubleQuotes b -> a = b.
Proof.
  induction a as [|c a IH]; intros [|d b]; cbn [doubleQuotes].
  - reflexivity.
  - destruct (Ascii.eqb d "034"); discriminate.
  - destruct (Ascii.eqb c "034"); discriminate.
  - destruct (Ascii.eqb c "034") eqn:Ec, (Ascii.eqb d "034") eqn:Ed.
    + intros Heq. injection Heq as Hc _ Hr. subst d. now rewrite (IH _ Hr).
    + intros Heq. injection Heq as Hc _. subst d. congruence.
    + intros Heq. injection Heq as Hc _. subst d. congruence.
    + intros Heq. injection Heq as Hc Hr. subst d. now rewrite (IH _ Hr).
Qed.

Lemma length_append (a b : string) :
  String.length (a ++ b) = String.length a + String.length b.
Proof. induction a as [|c a IH]; cbn; [reflexivity|now rewrite IH]. Qed.

Lemma append_inv_tail (a b t : string) : a ++ t = b ++ t -> a = b.
Proof.
  intros Heq.
  assert (Hlen : String.length a = String.length b).
  { apply (f_equal String.length) in Heq.
    rewrite !length_append in Heq. lia. }
  revert b Heq Hlen. induction a as [|c a IH]; intros [|d b] Heq Hlen;
    try discriminate; [reflexivity|].
  cbn in Heq. injection Heq as -> Heq. f_equal. apply IH; [assumption|].
  cbn in Hlen. lia.
Qed.

Lemma includes_head (c : ascii) (r : string) :
  Js.includes (String c r) (String c EmptyString) = true.
Proof.
  unfold Js.includes. cbn [index prefix].
  destruct (ascii_dec c c) as [_|Hne]; [|now elim Hne].
  destruct r; reflexivity.
Qed.

Lemma includes_quote (x : string) : Js.includes (quote ++ x) quote = true.
Proof. unfold quote. cbn [append]. apply includes_head. Qed.

Lemma csvCell_text_inj (a b : string) :
  csvCell (Some (JStr a)) = csvCell (Some (JStr b)) -> a = b.
Proof.
  cbn [csvCell].
  destruct (Js.includes a "," || Js.includes a quote || Js.includes a newline)
    eqn:Ea,
    (Js.includes b "," || Js.includes b quote || Js.includes b newline) eqn:Eb.
  - unfold quote at 1 3. cbn [append]. intros [= Heq].
    apply append_inv_tail in Heq. now apply doubleQuotes_inj.
  - intros <-. rewrite includes_quote, orb_true_r in Eb. discriminate.
  - intros ->. rewrite includes_quote, orb_true_r in Ea. discriminate.
  - trivial.
Qed.

(** X15.  Escaping a cell loses nothing: two different texts never give
    the same cell, quoted or not. *)
Theorem csvCell_injective (a b : string) :
  a <> b -> csvCell (Some (JStr a)) <> csvCell (Some (JStr b)).
Proof. intros Hne Heq. apply Hne. now apply csvCell_text_inj. Qed.

End CsvFacts.

Section SingleTable.
Import ReceiptProcessor Spec.

Lemma addField_fresh (fields : list string) (key : string) :
  ~ In key fields -> addField fields key = (fields ++ [key])%list.
Proof.
  intros Hnotin. unfold addField.
  destruct (existsb (String.eqb key) fields) eqn:E; [|reflexivity].
  apply existsb_exists in E as [y [Hy Heq]]. apply String.eqb_eq in Heq.
  subst y. now elim Hnotin.
Qed.

Lemma addColumns_fresh (keys : list string) :
  forall allFields,
    NoDup (allFields ++ keys) -> ~ In "type-code" keys ->
    addColumns allFields keys = (allFields ++ keys)%list.
Proof.
  unfold addColumns.
  induction keys as [|k rest IH]; intros allFields Hnd Htc; cbn [fold_left].
  - now rewrite app_nil_r.
  - destruct (k =? "type-code") eqn:E.
    + apply String.eqb_eq in E. subst k. elim Htc. now left.
    + rewrite addField_fresh.
      * rewrite IH.
        -- now rewrite <- app_assoc.
        -- now rewrite <- app_assoc.
        -- intros Hin. apply Htc. now right.
      * apply NoDup_remove_2 in Hnd. intros Hin. apply Hnd.
        apply in_or_app. now left.
Qed.

(** X27.  The table of one record.  [convertToCsv] gives for a record the
    text that [createTotalCsv] gives for the list of that record alone:
    the same columns, in the same order, and the same cells. *)
Theorem convertToCsv_is_the_table_of_one (props : object) :
  convertToCsv (JObj props) = createTotalCsv [JObj props].
Proof.
  unfold convertToCsv, createTotalCsv. rewrite foldC_cons. cbn [mapC].
  destruct (flattenObject (JObj props) "") as [flat|] eqn:Hflat;
    cbn [andThen foldC fold_left map Js.join]; [|reflexivity].
  rewrite (addColumns_fresh (Value.keys flat) []).
  - cbn [app]. now destruct (row flat (Value.keys flat)).
  - now apply (flattenObject_keys_NoDup (JObj props) "").
  - now apply (flattenObject_keys_no_type_code (JObj props) "").
Qed.

End SingleTable.

Lemma createTotalCsv_table_witness :
  let records := [Scenario.lunchRecord; Scenario.sampleRecord] in
  exists fields : list string,
    Forall (fun props =>
              ReceiptProcessor.flattenObject (JObj props) ""
              = Normal (Spec.flattened (JObj props)))
           records
    /\ NoDup fields
    /\ Forall (fun key => Spec.ordinaryKey key = true) fields
    /\ (forall key,
          In key fields
          <-> key <> "type-code"
              /\ exists props,
                   In props records
                   /\ In key (Value.keys (Spec.flattened (JObj props))))
    /\ ReceiptProcessor.createTotalCsv (map JObj records)
       = Normal
           (Js.join "," fields ++ ReceiptProcessor.newline
            ++ Js.join ReceiptProcessor.newline
                 (map (fun props =>
                         Js.join ","
                           (map (fun field =>
                                   ReceiptProcessor.csvCell
                                     (Value.get (Spec.flattened (JObj props))
                                                field)) fields))
                      records)).
Proof.
  apply (createTotalCsv_table [Scenario.lunchRecord; Scenario.sampleRecord]).
  - discriminate.
  - repeat constructor.
Defined.

Lemma flattenObject_no_type_code_witness :
  ~ In "type-code"
       (Value.keys [("vendor", JStr "Chez Max, Lyon"); ("total", JNum 4200);
                    ("tax.rate", JNum 10); ("tax.amount", JNum 420);
                    ("items", JStr "menu; coffee")]).
Proof.
  apply (flattenObject_no_type_code Scenario.lunchRecord "").
  vm_compute. reflexivity.
Defined.

(** The table of two receipts: the fields of the first are promoted, its
    nested object is spelled with dots, its list is joined, and the
    vendor is quoted for its comma. *)
Example summary_table :
  ReceiptProcessor.createTotalCsv [Scenario.lunch; Scenario.taxi]
  = Normal
      ("vendor,total,tax.rate,tax.amount,items" ++ ReceiptProcessor.newline
       ++ ReceiptProcessor.quote ++ "Chez Max, Lyon" ++ ReceiptProcessor.quote
       ++ ",4200,10,420,menu; coffee" ++ ReceiptProcessor.newline
       ++ ",1250,,,").
Proof. vm_compute. reflexivity. Qed.

Lemma csvCell_injective_witness :
  ReceiptProcessor.csvCell (Some (JStr "Chez Max, Lyon"))
  <> ReceiptProcessor.csvCell (Some (JStr "Chez Max; Lyon")).
Proof.
  apply (csvCell_injective "Chez Max, Lyon" "Chez Max; Lyon"). discriminate.
Defined.

(* ================================================================== *)
(** * The summary files, group after group *)
(* ================================================================== *)

Section SummaryFiles.
Context {H : Host}.
Import ReceiptProcessor.

Lemma writeGroups_turns (receiptsByType : groups) :
  forall (dir outputFormat : string) (overwrite : bool)
         (results : list string) (w : World),
    (forall k rs, In (k, rs) receiptsByType -> rs <> [] ->
       exists content, Spec.groupContent outputFormat rs = Normal content) ->
    exists written w',
      writeGroups receiptsByType dir outputFormat overwrite results w
      = (Normal (results ++ written)%list, w')
      /\ Spec.summaryTurns dir outputFormat overwrite receiptsByType w w'
                           written.
Proof.
  induction receiptsByType as [|[receiptType typeReceipts] rest IH];
    intros dir outputFormat overwrite results w Hcontent.
  - exists [], w. rewrite app_nil_r. split; [reflexivity|constructor].
  - assert (Hrest : forall k rs, In (k, rs) rest -> rs <> [] ->
              exists content, Spec.groupContent outputFormat rs = Normal content)
      by (intros k rs Hin; apply (Hcontent k rs); now right).
    cbn [writeGroups].
    destruct typeReceipts as [|r0 rs0] eqn:Ers.
    { cbn [List.length Nat.ltb Nat.leb andb].
      destruct (IH dir outputFormat overwrite results w Hrest)
        as (written & w' & Hrun & Hturns).
      exists written, w'. split; [exact Hrun|].
      apply Spec.turns_pass; [now left|exact Hturns]. }
    rewrite <- Ers in *.
    assert (Hne : typeReceipts <> []) by (rewrite Ers; discriminate).
    replace (0 <? List.length typeReceipts)%nat with true
      by (rewrite Ers; reflexivity).
    cbn [andb].
    destruct (String.eqb_spec receiptType "general") as [Hgen|Hgen];
      cbn [negb].
    { destruct (IH dir outputFormat overwrite results w Hrest)
        as (written & w' & Hrun & Hturns).
      exists written, w'. split; [exact Hrun|].
      apply Spec.turns_pass; [now right|exact Hturns]. }
    unfold_effects. cbn [fst snd fs events].
    fold (Spec.groupFilePath dir receiptType outputFormat).
    destruct (negb overwrite
              && h_exists (fs w)
                   (Spec.groupFilePath dir receiptType outputFormat)) eqn:Hkeep.
    { apply andb_prop in Hkeep as [How Hex]. apply negb_true_iff in How.
      destruct (IH dir outputFormat overwrite results w Hrest)
        as (written & w' & Hrun & Hturns).
      exists written, w'. split; [exact Hrun|].
      now apply Spec.turns_kept. }
    assert (Hwrite : overwrite = true
                     \/ h_exists (fs w)
                          (Spec.groupFilePath dir receiptType outputFormat)
                        = false).
    { destruct overwrite; [now left|right]. exact Hkeep. }
    fold (Spec.groupContent outputFormat typeReceipts).
    destruct (Hcontent receiptType typeReceipts (or_introl eq_refl) Hne)
      as [content Hc].
    rewrite Hc.
    pose proof (fun w' written =>
                  Spec.turns_written dir outputFormat overwrite receiptType
                    typeReceipts rest w w' written content Hne Hgen Hwrite Hc)
      as Hturn.
    unfold Spec.afterWrite in Hturn.
    destruct (h_write (fs w) (Spec.groupFilePath dir receiptType outputFormat)
                content) as [writeResult s'] eqn:Hw.
    cbn [fst snd fs events] in *.
    destruct (Js.nonEmpty (res_error writeResult)) eqn:Herr;
      cbn [fst snd fs events]; rewrite <- ?app_assoc; cbn [app].
    all: cbn beta in Hturn.
    + match goal with |- context [writeGroups rest dir outputFormat overwrite
                                    results ?w1] =>
        destruct (IH dir outputFormat overwrite results w1 Hrest)
          as (written & w' & Hrun & Hturns) end.
      exists written, w'. split; [exact Hrun|].
      now apply Hturn.
    + match goal with |- context [writeGroups rest dir outputFormat overwrite
                                    ?res ?w1] =>
        destruct (IH dir outputFormat overwrite res w1 Hrest)
          as (written & w' & Hrun & Hturns) end.
      exists (Spec.groupFilePath dir receiptType outputFormat :: written), w'.
      split.
      * rewrite Hrun. now rewrite <- app_assoc.
      * now apply Hturn.
Qed.

Lemma groupContent_returns (outputFormat : string) (rs : list json) :
  rs <> [] ->
  (forall r, In r rs -> Spec.tabulates r) ->
  exists content, Spec.groupContent outputFormat rs = Normal content.
Proof.
  intros Hne Hflat. unfold Spec.groupContent.
  destruct (outputFormat =? "csv"); [|eexists; reflexivity].
  rewrite createTotalCsv_returns; [eexists; reflexivity|exact Hne| |].
  - intros r Hr. now destruct (Hflat r Hr).
  - intros r k v Hr. destruct (Hflat r Hr) as [_ Hprint]. apply Hprint.
Qed.

Lemma ordinary_parts (r : json) :
  Spec.ordinary r = true ->
  r <> JNull
  /\ Spec.plain r = true
  /\ forall k, Spec.typeKey r = Some k -> Spec.ordinaryKey k = true.
Proof.
  unfold Spec.ordinary. intros Hord.
  assert (Hnull : r <> JNull) by (intros ->; discriminate).
  split; [exact Hnull|].
  assert (Hboth : Spec.plain r
                  && match Spec.typeKey r with
                     | Some k => Spec.ordinaryKey k
                     | None => true
                     end = true)
    by (destruct r; try exact Hord; now elim Hnull).
  apply andb_prop in Hboth as [Hplain Hkey]. split; [exact Hplain|].
  intros k Hk. now rewrite Hk in Hkey.
Qed.

Lemma totalDirectory_run (outputPath : string) (w : World) :
  let total := fs_join [outputPath; "total"] in
  let made := h_mkdir (fs w) total in
  (h_exists (fs w) total = true
   /\ totalDirectory outputPath w = (total, w))
  \/ (h_exists (fs w) total = false
      /\ Js.nonEmpty (res_error (fst made)) = false
      /\ totalDirectory outputPath w
         = (total, {| fs := snd made;
                      events := (events w ++ [EvMkdir total])%list |}))
  \/ (h_exists (fs w) total = false
      /\ Js.nonEmpty (res_error (fst made)) = true
      /\ totalDirectory outputPath w
         = (outputPath,
            {| fs := snd made;
               events :=
                 (events w
                  ++ [EvMkdir total;
                      EvError "Failed to create 'total' directory:"
                              [res_error (fst made)]])%list |})).
Proof.
  cbn zeta. unfold totalDirectory. unfold_effects.
  destruct (h_exists (fs w) (fs_join [outputPath; "total"])) eqn:Hex;
    cbn [negb fst snd fs events].
  - left. split; [reflexivity|now destruct w].
  - right.
    destruct (h_mkdir (fs w) (fs_join [outputPath; "total"]))
      as [mkdirResult s'] eqn:Hmk.
    cbn [fst snd fs events].
    destruct (Js.nonEmpty (res_error mkdirResult)) eqn:Herr;
      cbn [fst snd fs events].
    + right. repeat split. now rewrite <- app_assoc.
    + left. now repeat split.
Qed.

Lemma createSummaryFile_run (receipts : list json)
  (outputPath outputFormat : string) (overwrite : bool) (w : World) :
  createSummaryFile receipts outputPath outputFormat overwrite w
  = let folder := totalDirectory outputPath w in
    match groupReceiptsByType receipts with
    | TypeError => (TypeError, snd folder)
    | Normal receiptsByType =>
        let written :=
          writeGroups receiptsByType (fst folder) outputFormat overwrite
                      [] (snd folder) in
        (andThen (fst written)
           (fun results =>
              Normal (match results with
                      | [] => None
                      | _ => Some results
                      end)),
         snd written)
    end.
Proof.
  unfold createSummaryFile. unfold bind at 1.
  destruct (totalDirectory outputPath w) as [dir start]. cbn zeta.
  cbn [fst snd].
  destruct (groupReceiptsByType receipts); [|reflexivity].
  unfold bind, ret.
  now destruct (writeGroups _ dir outputFormat overwrite [] start).
Qed.

(** On receipts that are not null, with type codes that name no
    inherited member, and that all flatten, the summary is the run of
    the specification. *)
Lemma createSummaryFile_returns (receipts : list json)
  (outputPath outputFormat : string) (overwrite : bool) (w : World) :
  Forall (fun r => r <> JNull) receipts ->
  (forall r code, In r receipts -> determineReceiptType r = Some code ->
                  Value.printable code = true) ->
  (forall r k, In r receipts -> Spec.typeKey r = Some k ->
               Spec.ownName k = true) ->
  (forall r, In r receipts -> Spec.tabulates r) ->
  let folder := totalDirectory outputPath w in
  let run := createSummaryFile receipts outputPath outputFormat overwrite w in
  exists written : list string,
    groupReceiptsByType receipts = Normal (Spec.groupsOf receipts)
    /\ Spec.summaryTurns (fst folder) outputFormat overwrite
         (Spec.groupsOf receipts) (snd folder) (snd run) written
    /\ fst run
       = Normal (match written with
                 | [] => None
                 | _ => Some written
                 end).
Proof.
  intros Hnull Hprint Hown Hflat folder run.
  pose proof (groupReceiptsByType_returns receipts Hnull Hprint Hown) as Hg.
  unfold run. rewrite createSummaryFile_run. fold folder.
  unfold Spec.groupsOf. rewrite Hg. cbn zeta.
  destruct (writeGroups_turns (fold_left Spec.groupStep receipts []) (fst folder)
              outputFormat overwrite [] (snd folder))
    as (written & w' & Hwritten & Hturns).
  { intros k rs Hin Hne. apply groupContent_returns; [exact Hne|].
    intros r Hr.
    destruct (groups_are_of_the_batch receipts k rs r Hin Hr) as [_ Hrin].
    now apply Hflat. }
  rewrite Hwritten. cbn [fst snd app andThen].
  exists written. now repeat split.
Qed.

(** C8, as amended.  The name of a group file is "receipts_", the
    sanitized type code, a dot and the format.  Sanitizing lower-cases
    the type code, turns every run of characters other than a-z, 0-9 and
    the hyphen into one underscore (hyphens stay), and drops one leading
    and one trailing underscore.  The files go to [dir]: the "total"
    folder of the output location, made when it is missing, or the
    output location itself when that folder cannot be made.  Every file
    [createSummaryFile] writes belongs to a non-empty group other than
    "general".  And when the receipts are ordinary, the run from [start]
    is the run of the specification, group after group: every such group
    has its records written to its file in [dir], as a table or as a
    list, unless overwrite is off and the file exists; the result lists
    the files whose write succeeded. *)
Theorem group_file_name_and_place (receipts : list json)
  (outputPath outputFormat : string) (overwrite : bool) (w : World) :
  let total := fs_join [outputPath; "total"] in
  let made := h_mkdir (fs w) total in
  let run := createSummaryFile receipts outputPath outputFormat overwrite w in
  (forall name : string,
      sanitizeFileName name
      = stripEnds (Spec.collapseRuns Spec.kept
                     (Js.toLowerCase (orDefault name "unknown"))))
  /\ exists (dir : string) (start : World),
       ((h_exists (fs w) total = true /\ dir = total /\ start = w)
        \/ (h_exists (fs w) total = false
            /\ Js.nonEmpty (res_error (fst made)) = false
            /\ dir = total
            /\ start = {| fs := snd made;
                          events := (events w ++ [EvMkdir total])%list |})
        \/ (h_exists (fs w) total = false
            /\ Js.nonEmpty (res_error (fst made)) = true
            /\ dir = outputPath
            /\ start
               = {| fs := snd made;
                    events :=
                      (events w
                       ++ [EvMkdir total;
                           EvError "Failed to create 'total' directory:"
                                   [res_error (fst made)]])%list |}))
       /\ (exists added : list Event,
             events (snd run) = (events w ++ added)%list
             /\ Forall (Spec.summaryEffect (Spec.groupsOf receipts)
                                           outputPath dir outputFormat) added)
       /\ (Forall (fun r => Spec.ordinary r = true) receipts ->
           exists written : list string,
             groupReceiptsByType receipts = Normal (Spec.groupsOf receipts)
             /\ Spec.summaryTurns dir outputFormat overwrite
                  (Spec.groupsOf receipts) start (snd run) written
             /\ fst run
                = Normal (match written with
                          | [] => None
                          | _ => Some written
                          end)).
Proof.
  intros total made run. split; [exact sanitizeFileName_runs|].
  destruct (totalDirectory (H := H) outputPath w) as [dir start] eqn:Hdir.
  exists dir, start.
  assert (Hfolder :
    (h_exists (fs w) total = true /\ dir = total /\ start = w)
    \/ (h_exists (fs w) total = false
        /\ Js.nonEmpty (res_error (fst made)) = false
        /\ dir = total
        /\ start = {| fs := snd made;
                      events := (events w ++ [EvMkdir total])%list |})
    \/ (h_exists (fs w) total = false
        /\ Js.nonEmpty (res_error (fst made)) = true
        /\ dir = outputPath
        /\ start
           = {| fs := snd made;
                events :=
                  (events w
                   ++ [EvMkdir total;
                       EvError "Failed to create 'total' directory:"
                               [res_error (fst made)]])%list |})).
  { pose proof (totalDirectory_run outputPath w) as Hrun.
    cbn zeta in Hrun. fold total in Hrun. fold made in Hrun.
    rewrite Hdir in Hrun.
    destruct Hrun as [[Hex [= -> ->]]|[(Hex & Herr & [= -> ->])
                                      |(Hex & Herr & [= -> ->])]]; tauto. }
  split; [exact Hfolder|].
  assert (Hpre : exists pre, events start = (events w ++ pre)%list
                 /\ Forall (Spec.summaryEffect (Spec.groupsOf receipts)
                              outputPath dir outputFormat) pre).
  { destruct Hfolder as [(_ & _ & ->)|[(_ & _ & _ & ->)|(_ & _ & _ & ->)]].
    - exists []. rewrite app_nil_r. now split.
    - exists [EvMkdir total]. split; [reflexivity|].
      constructor; [reflexivity|constructor].
    - eexists. split; [reflexivity|].
      constructor; [reflexivity|]. constructor; [exact I|constructor]. }
  destruct Hpre as [pre [Hev1 Hpre]].
  split.
  - unfold run. rewrite createSummaryFile_run. rewrite Hdir.
    cbn zeta. cbn [fst snd]. unfold Spec.groupsOf in *.
    destruct (groupReceiptsByType receipts) as [g|]; cbn [snd].
    + destruct (writeGroups_effects g g outputPath dir outputFormat overwrite
                  [] start (incl_refl _)) as [added [Hev Hall]].
      exists (pre ++ added)%list. split.
      * rewrite Hev, Hev1. now rewrite app_assoc.
      * apply Forall_app. now split.
    + exists pre. now split.
  - intros Hord. rewrite Forall_forall in Hord.
    pose proof (createSummaryFile_returns receipts outputPath outputFormat
                  overwrite w) as Hrun.
    cbn zeta in Hrun. rewrite Hdir in Hrun. cbn [fst snd] in Hrun.
    apply Hrun.
    + apply Forall_forall. intros r Hin.
      now destruct (ordinary_parts r (Hord r Hin)).
    + intros r code Hin Hcode.
      destruct (ordinary_parts r (Hord r Hin)) as (_ & Hplain & _).
      apply (plainBy_printable Spec.ordinaryKey ordinaryKey_printable).
      exact (determineReceiptType_plainBy _ r code Hplain Hcode).
    + intros r k Hin Hk.
      destruct (ordinary_parts r (Hord r Hin)) as (_ & _ & Hkey).
      specialize (Hkey k Hk). unfold Spec.ordinaryKey in Hkey.
      now apply andb_prop in Hkey as [Hown _].
    + intros r Hin.
      destruct (ordinary_parts r (Hord r Hin)) as (_ & Hplain & _).
      exact (tabulates_plainBy Spec.ordinaryKey r ordinaryKey_callable
               ordinaryKey_printable ordinaryKey_dotted Hplain).
Qed.

End SummaryFiles.

Lemma group_file_name_and_place_witness :
  let receipts := [Scenario.invoice; Scenario.lunch; Scenario.taxi] in
  exists (dir : string) (start : World) (written : list string),
    Spec.summaryTurns dir "csv" true (Spec.groupsOf receipts) start
      (snd (ReceiptProcessor.createSummaryFile receipts "/out" "csv" true
              (Scenario.start Scenario.lockedTotal)))
      written
    /\ fst (ReceiptProcessor.createSummaryFile receipts "/out" "csv" true
              (Scenario.start Scenario.lockedTotal))
       = Normal (match written with [] => None | _ => Some written end).
Proof.
  destruct (group_file_name_and_place (H := Sim.host)
              [Scenario.invoice; Scenario.lunch; Scenario.taxi]
              "/out" "csv" true (Scenario.start Scenario.lockedTotal))
    as (_ & dir & start & _ & _ & Hturns).
  destruct Hturns as (written & _ & Hturns & Hresult).
  - repeat constructor.
  - now exists dir, start, written.
Defined.

(* ================================================================== *)
(** * What validating the output path does *)
(* ================================================================== *)

Section ValidationEffects.
Context {H : Host}.

(** X16.  All that validating an output path can do to the machine is to
    create one directory: the path itself in batch mode, its parent in
    single-file mode.  When the path exists, or in single-file mode its
    parent, nothing is done at all. *)
Theorem validateOutputPath_effects (outputPath : string)
  (isBatchProcessing : bool) (w : World) :
  let run := validateOutputPath outputPath isBatchProcessing w in
  let target := if isBatchProcessing then outputPath
                else fs_dirname outputPath in
  (h_exists (fs w) outputPath = true -> snd run = w)
  /\ (h_exists (fs w) target = true -> snd run = w)
  /\ (snd run = w
      \/ snd run = {| fs := snd (h_mkdir (fs w) target);
                      events := (events w ++ [EvMkdir target])%list |}).
Proof.
  cbn zeta. unfold validateOutputPath. unfold_effects.
  destruct isBatchProcessing.
  - destruct (h_exists (fs w) outputPath) eqn:Hex.
    + destruct (h_isDir (fs w) outputPath); cbn [negb snd];
        (split; [reflexivity|split; [reflexivity|now left]]).
    + destruct (h_mkdir (fs w) outputPath) as [mkdirResult s1]. tidy.
      split; [discriminate|]. split; [discriminate|]. right.
      destruct (Js.nonEmpty (res_error mkdirResult)); reflexivity.
  - destruct (h_exists (fs w) outputPath) eqn:Hex.
    + destruct (h_isDir (fs w) outputPath); cbn [snd];
        (split; [reflexivity|split; [reflexivity|now left]]).
    + destruct (h_exists (fs w) (fs_dirname outputPath)) eqn:Hparent;
        cbn [negb snd].
      * split; [discriminate|]. split; [reflexivity|now left].
      * destruct (h_mkdir (fs w) (fs_dirname outputPath)) as [mkdirResult s1].
        tidy. split; [discriminate|]. split; [discriminate|]. right.
        destruct (Js.nonEmpty (res_error mkdirResult)); reflexivity.
Qed.

End ValidationEffects.

(* ================================================================== *)
(** * The availability check *)
(* ================================================================== *)

Section ToolCheck.
Context {H : Host}.
Import Spec.

Lemma forEach_lines {A : Type} (l : list A) (body : A -> M unit) :
  (forall a w, exists lines,
      snd (body a w) = {| fs := fs w; events := (events w ++ lines)%list |}
      /\ forallb isErrorLine lines = true) ->
  forall w, exists lines,
    snd (forEach l body w)
    = {| fs := fs w; events := (events w ++ lines)%list |}
    /\ forallb isErrorLine lines = true.
Proof.
  intros Hbody. induction l as [|x r IH]; intros w; cbn [forEach].
  - exists []. unfold ret. cbn [snd]. rewrite app_nil_r. now destruct w.
  - unfold bind. destruct (Hbody x w) as [l1 [H1 F1]].
    destruct (body x w) as [[] w1]. cbn [snd] in H1. subst w1.
    destruct (IH {| fs := fs w; events := (events w ++ l1)%list |})
      as [l2 [H2 F2]].
    exists (l1 ++ l2)%list. rewrite H2. cbn [fs events].
    rewrite app_assoc. split; [reflexivity|].
    rewrite forallb_app. now rewrite F1, F2.
Qed.

Lemma showLines_lines (title out : string) (limit : nat) (w : World) :
  exists lines,
    snd (showLines title out limit w)
    = {| fs := fs w; events := (events w ++ lines)%list |}
    /\ forallb isErrorLine lines = true.
Proof.
  unfold showLines. destruct (Js.nonBlank out).
  - unfold bind, console_error, record.
    match goal with |- context [forEach ?l ?body ?w0] =>
      destruct (forEach_lines l body) with (w := w0) as [lines [Hl Fl]] end.
    { intros line w0. destruct (Js.nonBlank line).
      - eexists [_]. split; reflexivity.
      - exists []. unfold ret. cbn [snd]. rewrite app_nil_r.
        split; [now destruct w0|reflexivity]. }
    rewrite Hl. cbn [fs events]. eexists (_ :: lines).
    rewrite <- app_assoc. split; [reflexivity|exact Fl].
  - exists []. unfold ret. cbn [snd]. rewrite app_nil_r.
    split; [now destruct w|reflexivity].
Qed.

Lemma orDefault_empty (a b : string) :
  orDefault a (orDefault b "") = "" <-> a = "" /\ b = "".
Proof.
  unfold orDefault, Js.nonEmpty.
  destruct a as [|c a]; cbn; [|split; [discriminate|intros [? _]; discriminate]].
  destruct b as [|d b]; cbn; [tauto|].
  split; [discriminate|intros [_ ?]; discriminate].
Qed.

Lemma length_positive (s : string) :
  (0 <? String.length s)%nat = true <-> s <> "".
Proof.
  destruct s; cbn; split; try discriminate; try reflexivity.
  intros Hne. now elim Hne.
Qed.

Lemma output_nonEmpty (a b : string) :
  (0 <? String.length (orDefault a (orDefault b "")))%nat
  = Js.nonEmpty a || Js.nonEmpty b.
Proof. destruct a, b; reflexivity. Qed.

Lemma text_checkCliTool_run (toolName : string) (w : World) :
  let probe := h_cliCommand (fs w) toolName ["-h"]
                 {| timeout := 10; interactive := false |} in
  exists lines,
    TextExtraction.checkCliTool toolName w
    = (toolAvailable (fst probe),
       {| fs := snd probe;
          events := (events w
                     ++ EvExec toolName ["-h"]
                          {| timeout := 10; interactive := false |}
                        :: lines)%list |})
    /\ forallb isErrorLine lines = true.
Proof.
  cbn zeta. unfold TextExtraction.checkCliTool, toolAvailable.
  unfold cliCommand, effect. unfold bind at 1.
  destruct (h_cliCommand (fs w) toolName ["-h"] _) as [result s1].
  cbn [fst snd]. rewrite output_nonEmpty.
  destruct (Js.nonEmpty (cmd_error result)); cbn [andb negb orb].
  2:{ rewrite orb_true_r. unfold ret. cbn [fst snd].
      exists []. split; reflexivity. }
  destruct (Js.includes (cmd_error result)
              "not in the allowed CLI commands list"); cbn [andb negb].
  { unfold bind, console_error, record, ret. cbn [fst snd fs events].
    eexists [_; _]. rewrite <- !app_assoc. split; reflexivity. }
  destruct (Js.includes (cmd_error result) "command not found");
    cbn [orb andb negb].
  { unfold bind, console_error, record, ret. cbn [fst snd fs events].
    eexists [_; _]. rewrite <- !app_assoc. split; reflexivity. }
  destruct (Js.includes (cmd_error result) "No such file or directory");
    cbn [orb andb negb].
  { unfold bind, console_error, record, ret. cbn [fst snd fs events].
    eexists [_; _]. rewrite <- !app_assoc. split; reflexivity. }
  rewrite orb_false_r.
  destruct (Js.nonEmpty (stdout result) || Js.nonEmpty (stderr result)).
  { unfold ret. exists []. split; reflexivity. }
  unfold bind at 1 2 3. unfold console_error at 1 2, record.
  cbn [fst snd fs events].
  match goal with |- context [showLines ?t (stderr result) ?n ?w0] =>
    destruct (showLines_lines t (stderr result) n w0) as [l1 [H1 F1]];
    destruct (showLines t (stderr result) n w0) as [[] w2] end.
  cbn [snd] in H1. subst w2. cbn [fs events].
  unfold bind at 1.
  match goal with |- context [showLines ?t (stdout result) ?n ?w0] =>
    destruct (showLines_lines t (stdout result) n w0) as [l2 [H2 F2]];
    destruct (showLines t (stdout result) n w0) as [[] w3] end.
  cbn [snd] in H2. subst w3. unfold ret. cbn [fst snd fs events].
  eexists (_ :: _ :: l1 ++ l2)%list.
  rewrite <- !app_assoc. cbn [app]. split; [reflexivity|].
  cbn [forallb isErrorLine andb]. rewrite forallb_app. now rewrite F1, F2.
Qed.

Lemma receipt_checkCliTool_run (toolName : string) (w : World) :
  let probe := h_cliCommand (fs w) toolName ["-h"]
                 {| timeout := 10; interactive := false |} in
  exists lines,
    ReceiptProcessor.checkCliTool toolName w
    = (toolAvailable (fst probe),
       {| fs := snd probe;
          events := (events w
                     ++ EvExec toolName ["-h"]
                          {| timeout := 10; interactive := false |}
                        :: lines)%list |})
    /\ forallb isErrorLine lines = true.
Proof.
  cbn zeta. unfold ReceiptProcessor.checkCliTool, toolAvailable.
  unfold cliCommand, effect. unfold bind at 1.
  destruct (h_cliCommand (fs w) toolName ["-h"] _) as [result s1].
  cbn [fst snd]. rewrite output_nonEmpty.
  destruct (Js.nonEmpty (cmd_error result)); cbn [andb negb orb].
  2:{ rewrite orb_true_r. unfold ret. cbn [fst snd].
      exists []. split; reflexivity. }
  destruct (Js.includes (cmd_error result)
              "not in the allowed CLI commands list"); cbn [andb negb].
  { unfold bind, console_error, record, ret. cbn [fst snd fs events].
    eexists [_; _]. rewrite <- !app_assoc. split; reflexivity. }
  destruct (Js.includes (cmd_error result) "command not found");
    cbn [orb andb negb].
  { unfold bind, console_error, record, ret. cbn [fst snd fs events].
    eexists [_; _]. rewrite <- !app_assoc. split; reflexivity. }
  destruct (Js.includes (cmd_error result) "No such file or directory");
    cbn [orb andb negb].
  { unfold bind, console_error, record, ret. cbn [fst snd fs events].
    eexists [_; _]. rewrite <- !app_assoc. split; reflexivity. }
  rewrite orb_false_r.
  destruct (Js.nonEmpty (stdout result) || Js.nonEmpty (stderr result)).
  { unfold ret. exists []. split; reflexivity. }
  unfold bind at 1 2 3. unfold console_error at 1 2, record.
  cbn [fst snd fs events].
  match goal with |- context [showLines ?t (stderr result) ?n ?w0] =>
    destruct (showLines_lines t (stderr result) n w0) as [l1 [H1 F1]];
    destruct (showLines t (stderr result) n w0) as [[] w2] end.
  cbn [snd] in H1. subst w2. unfold ret. cbn [fst snd fs events].
  eexists (_ :: _ :: l1)%list.
  rewrite <- !app_assoc. cbn [app]. split; [reflexivity|].
  cbn [forallb isErrorLine andb]. exact F1.
Qed.

(** X17.  The availability check runs the tool once, with "-h", and adds
    nothing but error lines after it; the file system it leaves is the
    one that run left.  The tool is taken to be available exactly when
    the run reported no error, or when the error is neither a whitelist
    refusal nor a missing command and the run printed something.  The
    receipt script's copy decides the same. *)
Theorem checkCliTool_decision (toolName : string) (w : World) :
  let probe := h_cliCommand (fs w) toolName ["-h"]
                 {| timeout := 10; interactive := false |} in
  let err := cmd_error (fst probe) in
  let run := TextExtraction.checkCliTool toolName w in
  let receipt := ReceiptProcessor.checkCliTool toolName w in
  (exists lines,
      snd run
      = {| fs := snd probe;
           events := (events w
                      ++ EvExec toolName ["-h"]
                           {| timeout := 10; interactive := false |}
                         :: lines)%list |}
      /\ forallb isErrorLine lines = true)
  /\ (fst run = true
      <-> err = ""
          \/ (Js.includes err "not in the allowed CLI commands list" = false
              /\ Js.includes err "command not found" = false
              /\ Js.includes err "No such file or directory" = false
              /\ (stdout (fst probe) <> "" \/ stderr (fst probe) <> "")))
  /\ fst receipt = fst run
  /\ fs (snd receipt) = fs (snd run).
Proof.
  cbn zeta.
  destruct (text_checkCliTool_run toolName w) as [lines [Hrun Hl]].
  destruct (receipt_checkCliTool_run toolName w) as [lines' [Hrun' _]].
  cbn zeta in *. rewrite Hrun, Hrun'. cbn [fst snd fs].
  split; [exists lines; now split|]. split; [|now split].
  unfold toolAvailable.
  set (result := fst (h_cliCommand (fs w) toolName ["-h"] _)).
  assert (Hne : forall s, Js.nonEmpty s = true <-> s <> "").
  { intros s. destruct s; cbn; split; try discriminate; try reflexivity.
    intros Hs. now elim Hs. }
  rewrite orb_true_iff, !andb_true_iff, !negb_true_iff, orb_true_iff, !Hne.
  split.
  - intros [Herr|Hrest]; [left|now right].
    destruct (cmd_error result); [reflexivity|discriminate].
  - intros [Herr|Hrest]; [left|now right].
    now rewrite Herr.
Qed.

End ToolCheck.

(* ================================================================== *)
(** * Files that are passed by *)
(* ================================================================== *)

Section SkipFacts.
Context {H : Host}.

Lemma determinePath_run (inputFile outputFileName defaultExt output : string)
  (isBatch : bool) (w : World) :
  determinePath inputFile outputFileName defaultExt output isBatch w
  = (fst (determinePath inputFile outputFileName defaultExt output isBatch w), w).
Proof.
  rewrite <- (determinePath_world inputFile outputFileName defaultExt output
                                  isBatch w) at 3.
  now destruct (determinePath _ _ _ _ _ w).
Qed.

(** X18.  With overwrite off, a batch whose outputs are all there is left
    alone: the loop of the text extraction script, of the contract
    review script and of the video script runs no tool, writes nothing,
    and counts nothing. *)
Theorem existing_outputs_are_skipped (w : World) :
  (forall (s : TextExtraction.Setup) (files : list string) (a b : nat),
      TextExtraction.overwrite (TextExtraction.config s) = false ->
      Forall (fun f =>
                h_exists (fs w)
                  (fst (TextExtraction.determineTextOutputPath f (fs_basename f)
                          (TextExtraction.resolvedOutput s)
                          (TextExtraction.isBatchProcessing s) w)) = true)
             files ->
      TextExtraction.main_loop s files a b w = ((a, b), w))
  /\ (forall (s : ContractReview.Setup) (files : list string) (a b : nat),
         ContractReview.overwrite (ContractReview.config s) = false ->
         Forall (fun f =>
                   h_exists (fs w)
                     (fst (ContractReview.determineReviewOutputPath f
                             (fs_basename f)
                             (ContractReview.resolvedOutput s)
                             (ContractReview.isBatchProcessing s) w)) = true)
                files ->
         ContractReview.main_loop s files a b w = ((a, b), w))
  /\ (forall (s : VideoToAudio.Setup) (files : list string) (a b : nat),
         VideoToAudio.overwrite (VideoToAudio.config s) = false ->
         Forall (fun f =>
                   h_exists (fs w)
                     (fst (VideoToAudio.determineOutputPath f
                             (VideoToAudio.getBaseNameWithoutExt (fs_basename f))
                             (VideoToAudio.ext (VideoToAudio.audio s))
                             (VideoToAudio.finalOutputPath s)
                             (VideoToAudio.isBatchProcessing s) w)) = true)
                files ->
         VideoToAudio.main_loop s files a b w = ((a, b), w)).
Proof.
  split; [|split]; intros s files a b How Hall;
    induction Hall as [|f rest Hf _ IH]; try reflexivity.
  - cbn [TextExtraction.main_loop]. unfold bind at 1.
    unfold TextExtraction.determineTextOutputPath in *.
    rewrite determinePath_run. unfold bind at 1, fs_exists, query.
    rewrite Hf, How. exact IH.
  - cbn [ContractReview.main_loop]. unfold bind at 1.
    unfold ContractReview.determineReviewOutputPath in *.
    rewrite determinePath_run. unfold bind at 1, fs_exists, query.
    rewrite Hf, How. exact IH.
  - cbn [VideoToAudio.main_loop]. unfold bind at 1.
    unfold VideoToAudio.determineOutputPath in *.
    rewrite determinePath_run. unfold bind at 1, fs_exists, query.
    rewrite Hf, How. exact IH.
Qed.

(** X19.  A text file is its own output.  With no output path given, the
    text of [dir/name.txt] is to go to [dir/name.txt]; so with overwrite
    off the text extraction script passes such an input by, as a file
    whose output exists already. *)
Theorem text_input_is_its_own_output (s : TextExtraction.Setup)
  (documentFile : string) (rest : list string) (a b : nat) (w : World) :
  TextExtraction.resolvedOutput s = "" ->
  TextExtraction.overwrite (TextExtraction.config s) = false ->
  fs_join [fs_dirname documentFile; fs_basename documentFile ++ ".txt"]
  = documentFile ->
  h_exists (fs w) documentFile = true ->
  fst (TextExtraction.determineTextOutputPath documentFile
         (fs_basename documentFile) (TextExtraction.resolvedOutput s)
         (TextExtraction.isBatchProcessing s) w) = documentFile
  /\ TextExtraction.main_loop s (documentFile :: rest) a b w
     = TextExtraction.main_loop s rest a b w.
Proof.
  intros Hout How Hjoin Hex.
  assert (Hpath : TextExtraction.determineTextOutputPath documentFile
                    (fs_basename documentFile) (TextExtraction.resolvedOutput s)
                    (TextExtraction.isBatchProcessing s) w
                  = (documentFile, w)).
  { unfold TextExtraction.determineTextOutputPath, determinePath.
    rewrite Hout. change (Js.nonEmpty "") with false. cbn iota.
    unfold ret. now rewrite Hjoin. }
  split; [now rewrite Hpath|].
  cbn [TextExtraction.main_loop]. unfold bind at 1. rewrite Hpath.
  unfold bind at 1, fs_exists, query. rewrite Hex, How. reflexivity.
Qed.

End SkipFacts.

Lemma existing_outputs_are_skipped_witness :
  TextExtraction.main_loop Scenario.inPlace ["/in/a.txt"] 0 0
    (Scenario.start Scenario.library)
  = ((0, 0), Scenario.start Scenario.library).
Proof.
  apply (proj1 (existing_outputs_are_skipped (H := Sim.host)
                  (Scenario.start Scenario.library))).
  - reflexivity.
  - repeat constructor.
Defined.

Lemma text_input_is_its_own_output_witness :
  fst (TextExtraction.determineTextOutputPath "/in/a.txt"
         (fs_basename "/in/a.txt")
         (TextExtraction.resolvedOutput Scenario.inPlace)
         (TextExtraction.isBatchProcessing Scenario.inPlace)
         (Scenario.start Scenario.library)) = "/in/a.txt"
  /\ TextExtraction.main_loop Scenario.inPlace ["/in/a.txt"; "/in/b.PDF"] 0 0
       (Scenario.start Scenario.library)
     = TextExtraction.main_loop Scenario.inPlace ["/in/b.PDF"] 0 0
         (Scenario.start Scenario.library).
Proof.
  apply (text_input_is_its_own_output (H := Sim.host) Scenario.inPlace
           "/in/a.txt" ["/in/b.PDF"] 0 0 (Scenario.start Scenario.library));
    reflexivity.
Defined.

(* ================================================================== *)
(** * A failed extraction *)
(* ================================================================== *)

Section FailedExtraction.
Context {H : Host}.
Import Spec.

(** X20.  When doc-to-text reports an error, the file is given up: the
    text extraction script and the contract review script return false,
    and after the one run of doc-to-text they add error lines and
    nothing else.  The review tool is not run and nothing is written. *)
Theorem failed_extraction_gives_up
  (documentFile target ocrTool ocrLlmTemplate contractLlmTemplate
     contentType : string) (verbose : bool) (w : World) :
  let extraction (textFile : string) :=
    h_cliCommand (fs w) "doc-to-text"
      (TextExtraction.docToTextArgs documentFile ocrTool ocrLlmTemplate
         contentType verbose textFile)
      (TextExtraction.docToTextOptions ocrTool) in
  let gaveUp (textFile : string) (run : bool * World) :=
    exists lines,
      run
      = (false,
         {| fs := snd (extraction textFile);
            events :=
              (events w
               ++ EvExec "doc-to-text"
                    (TextExtraction.docToTextArgs documentFile ocrTool
                       ocrLlmTemplate contentType verbose textFile)
                    (TextExtraction.docToTextOptions ocrTool)
                  :: lines)%list |})
      /\ forallb isErrorLine lines = true in
  (cmd_error (fst (extraction target)) <> "" ->
   gaveUp target
     (TextExtraction.extractTextFromDocument documentFile target ocrTool
        ocrLlmTemplate contentType verbose w))
  /\ (let textFile :=
        fs_join [fs_dirname target;
                 fs_basename documentFile ++ ".extracted.txt"] in
      cmd_error (fst (extraction textFile)) <> "" ->
      gaveUp textFile
        (ContractReview.processDocument documentFile target ocrTool
           ocrLlmTemplate contractLlmTemplate contentType verbose w)).
Proof.
  cbn zeta. split; intros Herr.
  - unfold TextExtraction.extractTextFromDocument.
    unfold cliCommand, effect. unfold bind at 1.
    destruct (h_cliCommand (fs w) "doc-to-text" _ _) as [result s1].
    cbn [fst snd] in *.
    destruct (cmd_error result) as [|c e] eqn:E; [now elim Herr|].
    change (Js.nonEmpty (String c e)) with true. cbn iota.
    unfold bind at 1 2 3 4. unfold console_error at 1 2 3, record.
    cbn [fst snd fs events].
    match goal with |- context [showLines ?t (stderr result) ?n ?w0] =>
      destruct (showLines_lines t (stderr result) n w0) as [l1 [H1 F1]];
      destruct (showLines t (stderr result) n w0) as [[] w2] end.
    cbn [snd] in H1. subst w2. unfold bind.
    match goal with |- context [showLines ?t (stdout result) ?n ?w0] =>
      destruct (showLines_lines t (stdout result) n w0) as [l2 [H2 F2]];
      destruct (showLines t (stdout result) n w0) as [[] w3] end.
    cbn [snd] in H2. subst w3. unfold ret. cbn [fst snd fs events].
    eexists (_ :: _ :: _ :: l1 ++ l2)%list.
    rewrite <- !app_assoc. cbn [app]. split; [reflexivity|].
    cbn [forallb isErrorLine andb]. rewrite forallb_app. now rewrite F1, F2.
  - unfold ContractReview.processDocument.
    unfold cliCommand at 1, effect. unfold bind at 1.
    destruct (h_cliCommand (fs w) "doc-to-text" _ _) as [result s1].
    cbn [fst snd] in *.
    destruct (cmd_error result) as [|c e] eqn:E; [now elim Herr|].
    change (Js.nonEmpty (String c e)) with true. cbn iota.
    unfold bind at 1 2 3 4. unfold console_error at 1 2 3, record.
    cbn [fst snd fs events].
    match goal with |- context [showLines ?t (stderr result) ?n ?w0] =>
      destruct (showLines_lines t (stderr result) n w0) as [l1 [H1 F1]];
      destruct (showLines t (stderr result) n w0) as [[] w2] end.
    cbn [snd] in H1. subst w2. unfold bind.
    match goal with |- context [showLines ?t (stdout result) ?n ?w0] =>
      destruct (showLines_lines t (stdout result) n w0) as [l2 [H2 F2]];
      destruct (showLines t (stdout result) n w0) as [[] w3] end.
    cbn [snd] in H2. subst w3. unfold ret. cbn [fst snd fs events].
    eexists (_ :: _ :: _ :: l1 ++ l2)%list.
    rewrite <- !app_assoc. cbn [app]. split; [reflexivity|].
    cbn [forallb isErrorLine andb]. rewrite forallb_app. now rewrite F1, F2.
Qed.

End FailedExtraction.

Lemma failed_extraction_gives_up_witness :
  exists lines,
    TextExtraction.extractTextFromDocument "/in/a.pdf" "/in/a.txt" "surya_ocr"
      "" "" false (Scenario.start Scenario.everyFileFails)
    = (false,
       {| fs := snd (h_cliCommand Scenario.everyFileFails "doc-to-text"
                       (TextExtraction.docToTextArgs "/in/a.pdf" "surya_ocr" ""
                          "" false "/in/a.txt")
                       (TextExtraction.docToTextOptions "surya_ocr"));
          events :=
            EvExec "doc-to-text"
              (TextExtraction.docToTextArgs "/in/a.pdf" "surya_ocr" "" ""
                 false "/in/a.txt")
              (TextExtraction.docToTextOptions "surya_ocr")
            :: lines |})
    /\ forallb Spec.isErrorLine lines = true.
Proof.
  apply (proj1 (failed_extraction_gives_up (H := Sim.host) "/in/a.pdf"
                  "/in/a.txt" "surya_ocr" "" "" "" false
                  (Scenario.start Scenario.everyFileFails))).
  vm_compute. discriminate.
Defined.

(* ================================================================== *)
(** * The input is checked first *)
(* ================================================================== *)

Section InputChecks.
Context {H : Host}.
Import Spec.

(** X21.  The input is checked first.  When the input variable is empty,
    or names nothing that exists, each of the four scripts returns
    false without running a tool and without touching the file system:
    all it does is to print at most one error line. *)
Theorem input_is_checked_first (w : World) :
  h_getVar (fs w) "input" = ""
  \/ h_exists (fs w) (h_getVar (fs w) "input") = false ->
  refused w (TextExtraction.main w)
  /\ refusedAs (Normal false) w (ReceiptProcessor.main w)
  /\ refused w (ContractReview.main w)
  /\ refused w (VideoToAudio.main w).
Proof.
  intros Hin.
  assert (Hcases : Js.nonEmpty (h_getVar (fs w) "input") = false
                   \/ (Js.nonEmpty (h_getVar (fs w) "input") = true
                       /\ h_exists (fs w) (h_getVar (fs w) "input") = false)).
  { destruct (Js.nonEmpty (h_getVar (fs w) "input")) eqn:E; [|now left].
    right. split; [reflexivity|]. destruct Hin as [Hin|Hin]; [|exact Hin].
    rewrite Hin in E. discriminate. }
  clear Hin. unfold refused, refusedAs, Spec.logged.
  repeat split.
  - unfold TextExtraction.main, TextExtraction.main_setup. unfold_effects.
    destruct Hcases as [-> |[-> Hex]]; cbn [negb].
    + right. now eexists _, _.
    + match goal with |- context [if ?b then _ else _] => destruct b end.
      * right. now eexists _, _.
      * rewrite Hex. cbn [negb]. right. now eexists _, _.
  - unfold ReceiptProcessor.main, ReceiptProcessor.main_setup. unfold_effects.
    destruct Hcases as [-> |[-> Hex]]; cbn [negb].
    + right. now eexists _, _.
    + rewrite Hex. cbn [negb]. right. now eexists _, _.
  - unfold ContractReview.main, ContractReview.main_setup. unfold_effects.
    destruct Hcases as [-> |[-> Hex]]; cbn [negb].
    + right. now eexists _, _.
    + match goal with |- context [if ?b then _ else _] => destruct b end.
      * right. now eexists _, _.
      * rewrite Hex. cbn [negb]. right. now eexists _, _.
  - unfold VideoToAudio.main, VideoToAudio.main_setup. unfold_effects.
    destruct (h_getVar (fs w) "help" =? "true"); [now left|].
    destruct Hcases as [-> |[-> Hex]]; cbn [negb].
    + right. now eexists _, _.
    + rewrite Hex. cbn [negb]. right. now eexists _, _.
Qed.

End InputChecks.

Lemma input_is_checked_first_witness :
  Spec.refused (Scenario.start Scenario.missingInput)
          (TextExtraction.main (Scenario.start Scenario.missingInput))
  /\ Spec.refusedAs (Normal false) (Scenario.start Scenario.missingInput)
             (ReceiptProcessor.main (Scenario.start Scenario.missingInput))
  /\ Spec.refused (Scenario.start Scenario.missingInput)
             (ContractReview.main (Scenario.start Scenario.missingInput))
  /\ Spec.refused (Scenario.start Scenario.missingInput)
             (VideoToAudio.main (Scenario.start Scenario.missingInput)).
Proof.
  apply (input_is_checked_first (H := Sim.host)
           (Scenario.start Scenario.missingInput)).
  right. vm_compute. reflexivity.
Defined.

(* ================================================================== *)
(** * A receipt counted as a success *)
(* ================================================================== *)

Section ReceiptSuccess.
Context {H : Host}.
Import ReceiptProcessor Spec.

Lemma readExistingReceiptData_truthy (filePath : string) (w : World) :
  Value.truthy (fst (readExistingReceiptData filePath w)) = true ->
  snd (readExistingReceiptData filePath w) = w
  /\ file_error (h_read (fs w) filePath) = ""
  /\ JSON_parse (file_content (h_read (fs w) filePath))
     = Some (fst (readExistingReceiptData filePath w)).
Proof.
  rewrite readExistingReceiptData_run. cbn zeta.
  destruct (Js.nonEmpty (file_error (h_read (fs w) filePath))) eqn:Herr;
    [discriminate|].
  destruct (JSON_parse (file_content (h_read (fs w) filePath))) as [data|];
    [|discriminate].
  intros _. cbn [fst snd]. repeat split.
  unfold Js.nonEmpty in Herr.
  destruct (file_error (h_read (fs w) filePath)); [reflexivity|discriminate].
Qed.

Lemma structureReceipt_success (documentFile outputFile tempTextFile : string)
  (w : World) :
  Value.truthy (fst (structureReceipt documentFile outputFile tempTextFile w))
  = true ->
  recordOnDisk outputFile
    (structureReceipt documentFile outputFile tempTextFile w).
Proof.
  unfold recordOnDisk, structureReceipt. unfold_effects.
  destruct (Js.nonEmpty (file_error (h_read (fs w) tempTextFile))); tidy;
    [discriminate|].
  destruct (Js.nonBlank (file_content (h_read (fs w) tempTextFile))); tidy;
    [|discriminate].
  destruct (h_exists (fs w) outputFile) eqn:Hex.
  - pose proof (readExistingReceiptData_truthy outputFile w) as Hread.
    destruct (readExistingReceiptData outputFile w) as [existingData w1].
    cbn [fst snd] in Hread.
    destruct (Value.truthy existingData).
    + destruct (Hread eq_refl) as (-> & Herr & Hparse). tidy. intros _.
      right. now repeat split.
    + clear Hread. cbn beta iota. structuring_tail.
  - change (Value.truthy JNull) with false. cbn beta iota.
    structuring_tail.
Qed.

(** X22.  A receipt counted as a success is on disk.  When
    [processReceipt] returns a truthy record, either the last thing it
    did was to write that record, as JSON, to the output file, or the
    output file was there already and holds that record. *)
Theorem processReceipt_success (documentFile outputFile : string)
  (verbose : bool) (w : World) :
  Value.truthy (fst (processReceipt documentFile outputFile verbose w)) = true ->
  recordOnDisk outputFile (processReceipt documentFile outputFile verbose w).
Proof.
  set (holds := fun run : json * World =>
                  Value.truthy (fst run) = true -> recordOnDisk outputFile run).
  change (holds (processReceipt documentFile outputFile verbose w)).
  assert (Hfailed : forall w0, holds (JNull, w0)) by (intros w0; discriminate).
  assert (Hfinish : forall t w0,
             holds (structureReceipt documentFile outputFile t w0)).
  { intros t w0. subst holds. cbn beta.
    exact (structureReceipt_success documentFile outputFile t w0). }
  clearbody holds. unfold processReceipt.
  set (finish := structureReceipt documentFile outputFile) in *.
  clearbody finish. unfold bind at 1.
  pose proof (calculateMd5_world documentFile w) as Hmd5.
  destruct (calculateMd5 documentFile w) as [md5Hash w0]. cbn [snd] in Hmd5.
  subst w0. unfold_effects.
  repeat first
    [ progress tidy
    | apply Hfinish
    | apply Hfailed
    | match goal with
      | |- context [let (_, _) := ?e in _] => destruct e
      | |- context [if ?b then _ else _] => destruct b
      | |- context [match ?x with _ => _ end] => destruct x
      end ].
Qed.

End ReceiptSuccess.

Lemma processReceipt_success_witness :
  Spec.recordOnDisk "/out/r1.receipt.json"
    (ReceiptProcessor.processReceipt "/in/r1.png" "/out/r1.receipt.json" false
       (Scenario.start Scenario.rerunWithOverwrite)).
Proof.
  apply (processReceipt_success (H := Sim.host)). vm_compute. reflexivity.
Defined.

(* ================================================================== *)
(** * The record made of the answer *)
(* ================================================================== *)

Section ParseFacts.
Context {H : Host}.
Import ReceiptProcessor.

Lemma get_set_same (o : object) (k : string) (v : json) :
  Value.get (Value.set o k v) k = Some v.
Proof.
  induction o as [|[k' v'] r IH]; cbn [Value.set Value.get].
  - now rewrite String.eqb_refl.
  - destruct (k' =? k) eqn:E; cbn [Value.get]; rewrite E; [reflexivity|exact IH].
Qed.

Lemma get_set_other (o : object) (k k0 : string) (v : json) :
  k0 <> k -> Value.get (Value.set o k v) k0 = Value.get o k0.
Proof.
  intros Hne. induction o as [|[k' v'] r IH]; cbn [Value.set Value.get].
  - destruct (k =? k0) eqn:E; [|reflexivity].
    apply String.eqb_eq in E. now elim Hne.
  - destruct (k' =? k) eqn:E; cbn [Value.get].
    + apply String.eqb_eq in E. subst k'.
      destruct (k =? k0) eqn:E0; [|reflexivity].
      apply String.eqb_eq in E0. now elim Hne.
    + now rewrite IH.
Qed.

(** X23.  What the structuring tool answered is stamped.  The JSON text is
    the fenced block of the answer when there is one, else the whole
    answer.  When it parses to an object, the record returned is that
    object with [source_file] set to the file name and
    [extraction_timestamp] to the time of the call, whatever the answer
    held under these two keys; every other key keeps its value.  When
    it does not parse, or parses to null, the result is null and one
    error line is printed. *)
Theorem parseExtractedData_stamps (llmOutput sourceFileName : string)
  (w : World) :
  let jsonStr := match fencedBlock llmOutput with
                 | Some inner => inner
                 | None => llmOutput
                 end in
  let run := parseExtractedData llmOutput sourceFileName w in
  (forall props, JSON_parse jsonStr = Some (JObj props) ->
     exists stamped,
       run = (JObj stamped, w)
       /\ Value.get stamped "source_file" = Some (JStr sourceFileName)
       /\ Value.get stamped "extraction_timestamp"
          = Some (JStr (h_toISOString (fs w)))
       /\ forall key, key <> "source_file" -> key <> "extraction_timestamp" ->
                      Value.get stamped key = Value.get props key)
  /\ (JSON_parse jsonStr = None \/ JSON_parse jsonStr = Some JNull ->
      run = (JNull, Spec.logged w "Error parsing LLM output:" [])).
Proof.
  cbn zeta. unfold parseExtractedData. unfold_effects. split.
  - intros props ->. cbn [addMetadata]. eexists. split; [reflexivity|].
    split; [|split].
    + rewrite get_set_other by discriminate. apply get_set_same.
    + apply get_set_same.
    + intros key H1 H2. now rewrite !get_set_other.
  - intros [-> | ->]; reflexivity.
Qed.

End ParseFacts.

(* ================================================================== *)
(** * What the loops count and collect *)
(* ================================================================== *)

Section LoopFacts.
Context {H : Host}.

(** X24.  The loops of the contract review script and of the video script
    count every file at most once: the two counters only grow, and
    together they grow by no more than the number of files. *)
Theorem other_main_loop_counts (files : list string) :
  (forall (s : ContractReview.Setup) (successCount failureCount : nat)
          (w : World),
      let counts :=
        fst (ContractReview.main_loop s files successCount failureCount w) in
      successCount <= fst counts
      /\ failureCount <= snd counts
      /\ fst counts + snd counts
         <= successCount + failureCount + List.length files)
  /\ (forall (s : VideoToAudio.Setup) (successCount failureCount : nat)
             (w : World),
         let counts :=
           fst (VideoToAudio.main_loop s files successCount failureCount w) in
         successCount <= fst counts
         /\ failureCount <= snd counts
         /\ fst counts + snd counts
            <= successCount + failureCount + List.length files).
Proof.
  split; intros s; induction files as [|f rest IH]; intros sc fc w; cbn zeta;
    try (cbn; lia).
  - cbn [ContractReview.main_loop List.length]. unfold_effects.
    destruct (ContractReview.determineReviewOutputPath _ _ _ _ w) as [out w0].
    destruct (negb _ && _).
    + specialize (IH sc fc w0). cbn zeta in IH. lia.
    + destruct (ContractReview.processDocument _ _ _ _ _ _ _ w0) as [[|] w1].
      * specialize (IH (S sc) fc w1). cbn zeta in IH. lia.
      * specialize (IH sc (S fc) w1). cbn zeta in IH. lia.
  - cbn [VideoToAudio.main_loop List.length]. unfold_effects.
    destruct (VideoToAudio.determineOutputPath _ _ _ _ _ w) as [out w0].
    destruct (negb _ && _).
    + specialize (IH sc fc w0). cbn zeta in IH. lia.
    + destruct (VideoToAudio.convertVideoToAudio _ _ _ _ w0) as [[|] w1].
      * specialize (IH (S sc) fc w1). cbn zeta in IH. lia.
      * specialize (IH sc (S fc) w1). cbn zeta in IH. lia.
Qed.

Import ReceiptProcessor.

Lemma receipt_collection_grows_with_the_counts (s : Setup)
  (files : list string) :
  forall (t : Tally) (w : World),
    let t' := fst (main_loop s files t w) in
    List.length (allReceipts t') + skippedCount t
    + (if isBatchProcessing s then successCount t else 0)
    = List.length (allReceipts t) + skippedCount t'
      + (if isBatchProcessing s then successCount t' else 0).
Proof.
  induction files as [|documentFile rest IH]; intros t w; cbn zeta.
  - cbn. lia.
  - cbn [main_loop]. unfold_effects.
    destruct (determineReceiptOutputPath _ _ _ _ _ w) as [out w0].
    destruct (negb _ && _).
    + destruct (readExistingReceiptData out w0) as [existingData w1].
      destruct (Value.truthy existingData).
      * match goal with |- context [main_loop s rest ?t1 w1] =>
          specialize (IH t1 w1) end.
        cbn zeta in IH.
        cbn [successCount failureCount skippedCount allReceipts] in IH.
        rewrite length_app in IH. cbn [List.length] in IH. lia.
      * specialize (IH t w1). cbn zeta in IH. lia.
    + destruct (processReceipt _ _ _ w0) as [extractedData w1].
      destruct (Value.truthy extractedData).
      * match goal with |- context [main_loop s rest ?t1 w1] =>
          specialize (IH t1 w1) end.
        cbn zeta in IH.
        cbn [successCount failureCount skippedCount allReceipts] in IH.
        destruct (isBatchProcessing s).
        -- rewrite length_app in IH. cbn [List.length] in IH. lia.
        -- lia.
      * match goal with |- context [main_loop s rest ?t1 w1] =>
          specialize (IH t1 w1) end.
        cbn zeta in IH.
        cbn [successCount failureCount skippedCount allReceipts] in IH.
        lia.
Qed.

(** X25.  What the receipt loop collects.  In batch mode every receipt
    counted as a success or as skipped adds one record to the
    collection the summary is made from, and nothing else does; in
    single-file mode only a skipped receipt does. *)
Theorem receipt_collection_size (s : Setup) (files : list string) (w : World) :
  let t := fst (main_loop s files emptyTally w) in
  List.length (allReceipts t)
  = skippedCount t + (if isBatchProcessing s then successCount t else 0).
Proof.
  pose proof (receipt_collection_grows_with_the_counts s files emptyTally w)
    as Hgrow.
  cbn zeta in *. cbn [emptyTally allReceipts skippedCount successCount
                      List.length] in Hgrow.
  destruct (isBatchProcessing s); lia.
Qed.

End LoopFacts.

(* ================================================================== *)
(** * The fenced block of an answer *)
(* ================================================================== *)

Section FenceFacts.
Import ReceiptProcessor Spec.

Lemma substring_all (s : string) : substring 0 (String.length s) s = s.
Proof. induction s as [|c s IH]; cbn; [reflexivity|now rewrite IH]. Qed.

Lemma substring_head (a b : string) :
  substring 0 (String.length a) (a ++ b) = a.
Proof.
  induction a as [|c a IH]; cbn [append String.length substring].
  - destruct b; reflexivity.
  - now rewrite IH.
Qed.

Lemma trimEnd_newline (a : string) : Js.trimEnd (a ++ newline) = Js.trimEnd a.
Proof.
  induction a as [|c a IH]; [reflexivity|].
  cbn [append Js.trimEnd]. now rewrite IH.
Qed.

Lemma index_fence_plain (body : string) :
  allChars notBacktick body = true ->
  index 0 fence (body ++ newline ++ fence) = Some (String.length body + 1).
Proof.
  induction body as [|c body IH]; [reflexivity|].
  cbn [allChars append String.length]. intros Hb.
  apply andb_true_iff in Hb as [Hc Hb].
  unfold notBacktick in Hc. apply negb_true_iff in Hc.
  apply Ascii.eqb_neq in Hc.
  change (index 0 fence (String c (body ++ newline ++ fence)))
    with (if prefix fence (String c (body ++ newline ++ fence)) then Some 0
          else match index 0 fence (body ++ newline ++ fence) with
               | Some n => Some (S n)
               | None => None
               end).
  rewrite (IH Hb). unfold fence at 1. cbn [prefix].
  destruct (ascii_dec "`" c) as [Heq|_]; [now elim Hc|reflexivity].
Qed.

Lemma index_fence_none (text : string) :
  allChars notBacktick text = true -> index 0 fence text = None.
Proof.
  induction text as [|c text IH]; [reflexivity|].
  cbn [allChars]. intros Hb. apply andb_true_iff in Hb as [Hc Hb].
  unfold notBacktick in Hc. apply negb_true_iff in Hc.
  apply Ascii.eqb_neq in Hc.
  change (index 0 fence (String c text))
    with (if prefix fence (String c text) then Some 0
          else match index 0 fence text with
               | Some n => Some (S n)
               | None => None
               end).
  rewrite (IH Hb). unfold fence at 1. cbn [prefix].
  destruct (ascii_dec "`" c) as [Heq|_]; [now elim Hc|reflexivity].
Qed.

Lemma trimStart_body (body tail : string) :
  body <> "" -> Js.trimStart body = body ->
  Js.trimStart (body ++ tail) = body ++ tail.
Proof.
  destruct body as [|c body]; [intros Hne; now elim Hne|].
  intros _. cbn [Js.trimStart append].
  destruct (Js.isSpace c); [|reflexivity].
  intros Heq. exfalso.
  assert (Hlen : forall s, String.length (Js.trimStart s) <= String.length s).
  { induction s as [|d s IHs]; cbn [Js.trimStart]; [lia|].
    destruct (Js.isSpace d); cbn [String.length]; lia. }
  specialize (Hlen body). rewrite Heq in Hlen. cbn [String.length] in Hlen. lia.
Qed.

Lemma unwrap_after_label (body : string) :
  allChars notBacktick body = true ->
  Js.trimStart body = body -> Js.trimEnd body = body ->
  match index 0 fence (Js.trimStart (newline ++ body ++ newline ++ fence)) with
  | Some k =>
      Some (Js.trimEnd
              (substring 0 k
                 (Js.trimStart (newline ++ body ++ newline ++ fence))))
  | None => None
  end = Some body.
Proof.
  intros Hplain Hstart Hend.
  change (Js.trimStart (newline ++ body ++ newline ++ fence))
    with (Js.trimStart (body ++ newline ++ fence)).
  destruct (string_dec body "") as [->|Hne]; [reflexivity|].
  rewrite (trimStart_body body _ Hne Hstart).
  rewrite (index_fence_plain body Hplain).
  replace (body ++ newline ++ fence) with ((body ++ newline) ++ fence).
  2:{ clear. induction body as [|d b IH]; [reflexivity|].
      cbn [append]. now rewrite IH. }
  replace (String.length body + 1) with (String.length (body ++ newline)).
  2:{ clear. induction body as [|d b IH]; [reflexivity|].
      cbn [append String.length]. now rewrite IH. }
  rewrite substring_head, trimEnd_newline. now rewrite Hend.
Qed.

Lemma substring_drop3 (a b c : ascii) (r : string) :
  substring 3 (String.length (String a (String b (String c r))) - 3)
            (String a (String b (String c r))) = r.
Proof.
  cbn [String.length substring Nat.sub]. rewrite Nat.sub_0_r.
  apply substring_all.
Qed.

Lemma substring_drop4 (a b c d : ascii) (r : string) :
  substring 4 (String.length (String a (String b (String c (String d r)))) - 4)
            (String a (String b (String c (String d r)))) = r.
Proof.
  cbn [String.length substring Nat.sub]. rewrite Nat.sub_0_r.
  apply substring_all.
Qed.

(** X26.  A fenced answer is unwrapped.  For a text without backticks that
    neither starts nor ends with white space, [fencedBlock] returns that
    text from between two fences on lines of their own, whether the
    opening fence is labelled "json" or not.  An answer without
    backticks has no fenced block. *)
Theorem fencedBlock_unwraps (body : string) :
  allChars notBacktick body = true ->
  Js.trimStart body = body -> Js.trimEnd body = body ->
  fencedBlock ("```json" ++ newline ++ body ++ newline ++ "```") = Some body
  /\ fencedBlock ("```" ++ newline ++ body ++ newline ++ "```") = Some body
  /\ fencedBlock body = None.
Proof.
  intros Hplain Hstart Hend.
  pose proof (unwrap_after_label body Hplain Hstart Hend) as Hunwrap.
  split; [|split].
  - unfold fencedBlock.
    change (index 0 fence ("```json" ++ newline ++ body ++ newline ++ "```"))
      with (Some 0).
    cbn beta iota zeta. cbn [append Nat.add].
    rewrite substring_drop3.
    cbn [prefix]. cbn match. rewrite substring_drop4. exact Hunwrap.
  - unfold fencedBlock.
    change (index 0 fence ("```" ++ newline ++ body ++ newline ++ "```"))
      with (Some 0).
    cbn beta iota zeta. cbn [append Nat.add].
    rewrite substring_drop3.
    cbn [prefix]. cbn match. exact Hunwrap.
  - unfold fencedBlock. now rewrite index_fence_none.
Qed.

End FenceFacts.

Lemma fencedBlock_unwraps_witness :
  ReceiptProcessor.fencedBlock
    ("```json" ++ ReceiptProcessor.newline ++ "{1: [2, 3]}"
     ++ ReceiptProcessor.newline ++ "```") = Some "{1: [2, 3]}"
  /\ ReceiptProcessor.fencedBlock
       ("```" ++ ReceiptProcessor.newline ++ "{1: [2, 3]}"
        ++ ReceiptProcessor.newline ++ "```") = Some "{1: [2, 3]}"
  /\ ReceiptProcessor.fencedBlock "{1: [2, 3]}" = None.
Proof. apply (fencedBlock_unwraps "{1: [2, 3]}"); reflexivity. Defined.

(* ================================================================== *)
(** * The result of a run (text extraction and receipt processor) *)
(* ================================================================== *)

Section MainResult.
Context {H : Host}.
Import Spec.

Lemma text_checkCliTool_available (toolName : string) (w : World) :
  toolAvailable (fst (probe toolName w)) = true ->
  TextExtraction.checkCliTool toolName w = (true, snd (probe toolName w)).
Proof.
  unfold TextExtraction.checkCliTool, probe, toolAvailable.
  unfold cliCommand, effect. unfold bind at 1.
  destruct (h_cliCommand (fs w) toolName ["-h"] _) as [result s1].
  cbn [fst snd]. rewrite output_nonEmpty. intros Hav.
  destruct (Js.nonEmpty (cmd_error result)); cbn [andb negb orb] in *.
  2:{ now rewrite orb_true_r. }
  destruct (Js.includes (cmd_error result)
              "not in the allowed CLI commands list"); cbn [andb negb] in *;
    [discriminate|].
  destruct (Js.includes (cmd_error result) "command not found");
    cbn [orb andb negb] in *; [discriminate|].
  destruct (Js.includes (cmd_error result) "No such file or directory");
    cbn [orb andb negb] in *; [discriminate|].
  rewrite Hav. now rewrite orb_false_r.
Qed.

Lemma probe_result (toolName : string) (w : World) :
  fst (probe toolName w)
  = fst (h_cliCommand (fs w) toolName ["-h"]
           {| timeout := 10; interactive := false |}).
Proof.
  unfold probe, cliCommand, effect. now destruct (h_cliCommand _ _ _ _).
Qed.

Lemma text_checkCliTool_unavailable (toolName : string) (w : World) :
  toolAvailable (fst (probe toolName w)) = false ->
  fst (TextExtraction.checkCliTool toolName w) = false.
Proof.
  rewrite probe_result. intros Hav.
  destruct (text_checkCliTool_run toolName w) as [lines [Hrun _]].
  cbn zeta in Hrun. rewrite Hrun. exact Hav.
Qed.
















(** X3.  Whether [main] of the contract review script returns true is
    settled before the loop: it returns true exactly when the input is
    valid, the template is given where it is needed, the output path is
    accepted, the extraction tool and the review tool answer, and at
    least one document is found.  What happens to the documents in the
    loop has no part in the result. *)
Theorem contract_main_result (w : World) :
  fst (ContractReview.main w) = contractSetupPasses w.
Proof.
  unfold ContractReview.main, ContractReview.main_setup, contractSetupPasses,
    inputValid, templateGiven, outputValidation, ContractReview.checkCliTool.
  unfold_effects. tidy. cbn [ContractReview.ocrTool].
  destruct (Js.nonEmpty (h_getVar (fs w) "input")); tidy; [|reflexivity].
  destruct ((orDefault (h_getVar (fs w) "ocr") "interactive" =? "llm-caller")
            && negb (Js.nonEmpty (h_getVar (fs w) "ocr_llm_template"))); tidy;
    [now rewrite andb_false_r|].
  destruct (h_exists (fs w) (h_getVar (fs w) "input")); tidy; [|reflexivity].
  match goal with |- context [(if ?c then ?f else ?g) w] =>
    replace ((if c then f else g) w) with (if c then f w else g w)
      by (now destruct c) end.
  cbn beta.
  match goal with |- context [let (_, _) := ?e in _] =>
    destruct e as [[resolved|reason] w1] end; tidy; [|reflexivity].
  destruct (toolAvailable (fst (probe "doc-to-text" w1))) eqn:Hav; tidy.
  2:{ pose proof (text_checkCliTool_unavailable _ _ Hav) as Hno.
      destruct (TextExtraction.checkCliTool "doc-to-text" w1) as [a w2].
      cbn [fst] in Hno. subst a. reflexivity. }
  rewrite (text_checkCliTool_available _ _ Hav). tidy.
  destruct (toolAvailable
              (fst (probe "llm-caller" (snd (probe "doc-to-text" w1)))))
    eqn:Hav2; tidy.
  2:{ pose proof (text_checkCliTool_unavailable _ _ Hav2) as Hno.
      destruct (TextExtraction.checkCliTool "llm-caller" _) as [a w2].
      cbn [fst] in Hno. subst a. reflexivity. }
  rewrite (text_checkCliTool_available _ _ Hav2). tidy.
  destruct (ContractReview.getDocumentFiles _ _ _) as [files w2]. tidy.
  destruct (List.length files =? 0)%nat; tidy; [reflexivity|].
  now destruct (ContractReview.main_loop _ _ 0 0 w2).
Qed.


End MainResult.



(** On that machine both scripts enter the loop with two files and
    both files fail. *)
Example every_file_fails_run :
  match TextExtraction.main_setup (Scenario.start Scenario.everyFileFails) with
  | (Some s, w) =>
      fst (TextExtraction.main_loop s (TextExtraction.documentFiles s) 0 0 w)
      = (0, 2)
  | (None, _) => False
  end
  /\ match ReceiptProcessor.main_setup
            (Scenario.start Scenario.everyFileFails) with
     | (Some s, w) =>
         fst (ReceiptProcessor.main_loop s (ReceiptProcessor.documentFiles s)
                ReceiptProcessor.emptyTally w)
         = {| ReceiptProcessor.successCount := 0;
              ReceiptProcessor.failureCount := 2;
              ReceiptProcessor.allReceipts := [];
              ReceiptProcessor.skippedCount := 0 |}
     | (None, _) => False
     end.
Proof. split; vm_compute; reflexivity. Qed.

